(** * price-aggregator: alert evaluation, relay and SSE fan-out

    A shallow embedding of the notification path of the repository:

    - the price processor ([processPriceUpdate], [sendSSEAlert]:
      the second program of cmd/alerts/main.go), with its package-level
      cooldown map [lastAlertTime];
    - the relay's publish side ([BroadcastAlert], [PublishMessage]) and
      subscribe side ([listenForAlerts]) of handlers/sse.go and
      internal/cache/pubsub.go;
    - the SSE registry ([clients], [StreamAlertsHandler],
      [broadcastToClients]) of handlers/sse.go.

    Go values are modelled as the code has them: strings are byte strings
    ([string]), float64 is the kernel's binary64 [float], a map is a [gmap],
    a buffered channel is a bounded queue in a heap of channels, and every
    read of the wall clock and every call of the Redis client is a call to
    an oracle of the environment. *)

From Stdlib Require Import ZArith Lia Bool String Ascii.
From Stdlib Require Import Floats.
From stdpp Require Import gmap strings list.

Set Warnings "-register-all".

Local Open Scope Z_scope.

(* ===================================================================== *)
(** ** package time *)
(* ===================================================================== *)

Module GoTime.

(** A [time.Time] is kept as its instant in nanoseconds; a
    [time.Duration] is an int64 count of nanoseconds. *)
Definition Instant := Z.
Definition Duration := Z.

Definition Second : Duration := 1000000000.

Definition minDuration : Duration := - 2 ^ 63.
Definition maxDuration : Duration := 2 ^ 63 - 1.

(** [t.Sub(u)]: the difference, saturated to the range of a Duration. *)
Definition Sub (t u : Instant) : Duration :=
  let d := t - u in
  if d <? minDuration then minDuration
  else if maxDuration <? d then maxDuration
  else d.

(** [time.Since(t)] is [time.Now().Sub(t)]; [now] is the clock reading
    the call takes. *)
Definition Since (now t : Instant) : Duration := Sub now t.

End GoTime.

(* ===================================================================== *)
(** ** package unicode/utf8, as far as encoding/json uses it *)
(* ===================================================================== *)

Module Utf8.

(** The classes of the table [first]: an ASCII byte, a byte that starts
    no sequence, or a leading byte with the sequence's size and the
    range accepted for its second byte. *)
Inductive firstClass :=
| ASCII
| Invalid
| Lead (size : nat) (lo hi : N).

Definition first (b : N) : firstClass :=
  (if b <? 128 then ASCII
   else if b <? 194 then Invalid
   else if b <? 224 then Lead 2 128 191
   else if b =? 224 then Lead 3 160 191
   else if b <? 237 then Lead 3 128 191
   else if b =? 237 then Lead 3 128 159
   else if b <? 240 then Lead 3 128 191
   else if b =? 240 then Lead 4 144 191
   else if b <? 244 then Lead 4 128 191
   else if b =? 244 then Lead 4 128 143
   else Invalid)%N.

Definition between (lo hi : N) (c : ascii) : bool :=
  ((lo <=? N_of_ascii c) && (N_of_ascii c <=? hi))%N.

(** Continuation bytes: [locb = 0x80], [hicb = 0xBF]. *)
Definition cont (c : ascii) : bool := between 128 191 c.

(** [DecodeRuneInString], reduced to the size it returns: [Some n] for a
    well-formed sequence of [n] bytes at the head of [s], [None] where Go
    returns [(RuneError, 1)] (or [(RuneError, 0)] on the empty string). *)
Definition runeLen (s : string) : option nat :=
  match s with
  | EmptyString => None
  | String c0 r0 =>
    match first (N_of_ascii c0) with
    | ASCII => Some 1%nat
    | Invalid => None
    | Lead sz lo hi =>
      match r0 with
      | EmptyString => None
      | String c1 r1 =>
        if negb (between lo hi c1) then None
        else if (sz <=? 2)%nat then Some 2%nat
        else
          match r1 with
          | EmptyString => None
          | String c2 r2 =>
            if negb (cont c2) then None
            else if (sz <=? 3)%nat then Some 3%nat
            else
              match r2 with
              | EmptyString => None
              | String c3 _ => if cont c3 then Some 4%nat else None
              end
          end
      end
    end
  end.

Fixpoint takeS (n : nat) (s : string) : string :=
  match n, s with
  | S n', String c r => String c (takeS n' r)
  | _, _ => EmptyString
  end.

Fixpoint dropS (n : nat) (s : string) : string :=
  match n, s with
  | S n', String _ r => dropS n' r
  | _, _ => s
  end.

(** U+FFFD, the replacement character, in UTF-8: EF BF BD. *)
Definition replacement : string :=
  String (ascii_of_N 239) (String (ascii_of_N 191)
    (String (ascii_of_N 189) EmptyString)).

(** [ValidString]: the loop over the runes of [s]; [fuel] bounds the
    number of iterations, and the length of [s] is always enough. *)
Fixpoint validLoop (fuel : nat) (s : string) : bool :=
  match fuel with
  | O => match s with EmptyString => true | _ => false end
  | S fuel' =>
    match s with
    | EmptyString => true
    | String _ r =>
      match runeLen s with
      | None => false
      | Some n => validLoop fuel' (dropS n s)
      end
    end
  end.

Definition ValidString (s : string) : bool := validLoop (String.length s) s.

(** The string a JSON encoder writes for [s] and a decoder reads back:
    the loop of encoding/json's [appendString] copies each well-formed
    rune and writes U+FFFD for each byte that starts none. *)
Fixpoint coerceLoop (fuel : nat) (s : string) : string :=
  match fuel with
  | O => EmptyString
  | S fuel' =>
    match s with
    | EmptyString => EmptyString
    | String _ r =>
      match runeLen s with
      | None => replacement +:+ coerceLoop fuel' r
      | Some n => takeS n s +:+ coerceLoop fuel' (dropS n s)
      end
    end
  end.

Definition ToValidUTF8 (s : string) : string := coerceLoop (String.length s) s.

End Utf8.

(* ===================================================================== *)
(** ** Errors and the zap logger *)
(* ===================================================================== *)

(** The errors the modelled calls return. *)
Inductive error :=
| UnsupportedValueError            (* json.Marshal: NaN or an infinity *)
| UnmarshalTypeError (field : string)
| SyntaxError                      (* json.Unmarshal: not a JSON text *)
| RedisError                       (* the Redis client's Publish / Receive *)
| DatabaseError.                   (* QueryContext, Scan or rows.Err *)

Inductive result (A : Type) :=
| Ok (a : A)
| Err (e : error).
Arguments Ok {A} a.
Arguments Err {A} e.

Module Zap.

Inductive level := InfoLevel | WarnLevel | ErrorLevel.

Inductive field :=
| String (key val : string)
| Int (key : string) (n : Z)
| Error (e : error).

Record entry := Entry { lvl : level; msg : string; fields : list field }.

Definition isWarn (e : entry) : bool :=
  match lvl e with WarnLevel => true | _ => false end.

Definition isError (e : entry) : bool :=
  match lvl e with ErrorLevel => true | _ => false end.

End Zap.

(* ===================================================================== *)
(** ** package encoding/json, on JSON documents *)
(* ===================================================================== *)

Module Json.

(** A JSON document. What travels over Redis and over an SSE response is
    kept as the document [json.Marshal] builds; its rendering as text by
    the library, and the reading back of that text, are not modelled.
    A number is kept as the float64 it denotes. *)
Inductive value :=
| Null
| Bool (b : bool)
| Number (f : float)
| Str (s : string)
| Array (elems : list value)
| Object (members : list (string * value)).

(** A Go string encodes as a JSON string coerced to valid UTF-8. *)
Definition encodeString (s : string) : value := Str (Utf8.ToValidUTF8 s).

(** A float64 encodes as a number; NaN and the infinities are refused. *)
Definition encodeFloat (f : float) : result value :=
  if PrimFloat.is_finite f then Ok (Number f) else Err UnsupportedValueError.

(** Keys match a field's name exactly or, failing that, up to case.
    Only the case of ASCII letters is folded here. *)
Definition lowerAscii (c : ascii) : ascii :=
  let n := N_of_ascii c in
  if ((65 <=? n) && (n <=? 90))%N then ascii_of_N (n + 32) else c.

Fixpoint foldName (s : string) : string :=
  match s with
  | EmptyString => EmptyString
  | String.String c r => String.String (lowerAscii c) (foldName r)
  end.

(** [data.k] in the frontend, after [JSON.parse]: of two members with one
    name the later one counts. *)
Fixpoint lookupKey (k : string) (ms : list (string * value)) : option value :=
  match ms with
  | [] => None
  | (k', v) :: ms' =>
    match lookupKey k ms' with
    | Some v' => Some v'
    | None => if String.eqb k k' then Some v else None
    end
  end.

End Json.


(* ===================================================================== *)
(** ** internal/cache/pubsub.go *)
(* ===================================================================== *)

Module Cache.

(** The Redis server as the publisher sees it: the messages it accepted,
    in order, and how many times [Publish] was called. Whether the n-th
    call fails is the environment's choice ([fails]). *)
Record Redis := MkRedis {
  accepted : list (string * Json.value);
  calls : nat
}.

(** [PublishMessage(channel, message)]: the client's [Publish(...).Err()]. *)
Definition PublishMessage (fails : nat -> bool) (channel : string)
    (message : Json.value) (r : Redis) : option error * Redis :=
  if fails (calls r)
  then (Some RedisError, MkRedis (accepted r) (S (calls r)))
  else (None, MkRedis (accepted r ++ [(channel, message)]) (S (calls r))).

End Cache.

(* ===================================================================== *)
(** ** handlers/sse.go *)
(* ===================================================================== *)

Module Sse.

(** [AlertMessage]: an alert that will be streamed. *)
Record AlertMessage := MkAlertMessage {
  UserID : string;
  Symbol : string;
  Threshold : float;
  Triggered : string;
  Timestamp : string
}.

(** The zero value of the struct ([var alert AlertMessage]). *)
Definition zeroAlert : AlertMessage :=
  MkAlertMessage EmptyString EmptyString PrimFloat.zero EmptyString EmptyString.

(** The struct's fields with their json tags, in declaration order. No
    tag carries [omitempty]. *)
Inductive structField := FUserID | FSymbol | FThreshold | FTriggered | FTimestamp.

Definition tag (f : structField) : string :=
  match f with
  | FUserID => "user_id"
  | FSymbol => "symbol"
  | FThreshold => "threshold"
  | FTriggered => "triggered"
  | FTimestamp => "timestamp"
  end.

Definition structFields : list structField :=
  [FUserID; FSymbol; FThreshold; FTriggered; FTimestamp].

(** [json.Marshal(alert)]: an object with one member per field. *)
Definition Marshal (a : AlertMessage) : result Json.value :=
  match Json.encodeFloat (Threshold a) with
  | Err e => Err e
  | Ok n =>
    Ok (Json.Object
          [ (tag FUserID, Json.encodeString (UserID a));
            (tag FSymbol, Json.encodeString (Symbol a));
            (tag FThreshold, n);
            (tag FTriggered, Json.encodeString (Triggered a));
            (tag FTimestamp, Json.encodeString (Timestamp a)) ])
  end.

(** The field a key of the document selects. *)
Definition findField (key : string) : option structField :=
  match List.find (fun f => String.eqb (tag f) key) structFields with
  | Some f => Some f
  | None =>
    List.find (fun f => String.eqb (Json.foldName (tag f)) (Json.foldName key))
              structFields
  end.

(** Storing one member's value in its field: [null] leaves the field as it
    is, a value of another kind is an [UnmarshalTypeError]. A string is
    read the way it is written, coerced to valid UTF-8. *)
Definition setField (f : structField) (v : Json.value) (a : AlertMessage)
    : AlertMessage * option error :=
  match f, v with
  | _, Json.Null => (a, None)
  | FUserID, Json.Str s =>
    (MkAlertMessage (Utf8.ToValidUTF8 s) (Symbol a) (Threshold a) (Triggered a)
                    (Timestamp a), None)
  | FSymbol, Json.Str s =>
    (MkAlertMessage (UserID a) (Utf8.ToValidUTF8 s) (Threshold a) (Triggered a)
                    (Timestamp a), None)
  | FThreshold, Json.Number x =>
    (MkAlertMessage (UserID a) (Symbol a) x (Triggered a) (Timestamp a), None)
  | FTriggered, Json.Str s =>
    (MkAlertMessage (UserID a) (Symbol a) (Threshold a) (Utf8.ToValidUTF8 s)
                    (Timestamp a), None)
  | FTimestamp, Json.Str s =>
    (MkAlertMessage (UserID a) (Symbol a) (Threshold a) (Triggered a)
                    (Utf8.ToValidUTF8 s), None)
  | _, _ => (a, Some (UnmarshalTypeError (tag f)))
  end.

Definition firstError (e1 e2 : option error) : option error :=
  match e1 with Some _ => e1 | None => e2 end.

Fixpoint decodeMembers (ms : list (string * Json.value)) (a : AlertMessage)
    (err : option error) : AlertMessage * option error :=
  match ms with
  | [] => (a, err)
  | (k, v) :: ms' =>
    match findField k with
    | None => decodeMembers ms' a err
    | Some f =>
      let '(a', e) := setField f v a in
      decodeMembers ms' a' (firstError err e)
    end
  end.

(** [json.Unmarshal(payload, &alert)]: [payload] is [None] for a text that
    is no JSON document. The members of an object are stored in order; the
    first type error is returned once all of them are read. *)
Definition Unmarshal (payload : option Json.value) (a : AlertMessage)
    : AlertMessage * option error :=
  match payload with
  | None => (a, Some SyntaxError)
  | Some Json.Null => (a, None)
  | Some (Json.Object ms) => decodeMembers ms a None
  | Some _ => (a, Some (UnmarshalTypeError EmptyString))
  end.

(** The four string fields are valid UTF-8. *)
Definition validStrings (a : AlertMessage) : bool :=
  Utf8.ValidString (UserID a) && Utf8.ValidString (Symbol a)
  && Utf8.ValidString (Triggered a) && Utf8.ValidString (Timestamp a).

(** *** The relay's publish side *)

Definition alertsChannel : string := "price_alerts".

(** What [BroadcastAlert] acts on in the process that calls it: the zap
    log and the Redis client. *)
Record Publisher := MkPublisher {
  plog : list Zap.entry;
  redis : Cache.Redis
}.

Definition plogged (e : Zap.entry) (p : Publisher) : Publisher :=
  MkPublisher (plog p ++ [e]) (redis p).

(** [BroadcastAlert(alert)]: the function has no result; a failure is
    logged and the function returns. *)
Definition BroadcastAlert (fails : nat -> bool) (alert : AlertMessage)
    (p : Publisher) : unit * Publisher :=
  let p := plogged (Zap.Entry Zap.InfoLevel "Publishing alert to Redis"
                      [Zap.String "symbol" (Symbol alert);
                       Zap.String "user_id" (UserID alert)]) p in
  match Marshal alert with
  | Err e =>
    (tt, plogged (Zap.Entry Zap.ErrorLevel "Failed to marshal alert"
                    [Zap.Error e]) p)
  | Ok alertJSON =>
    let '(err, r) := Cache.PublishMessage fails alertsChannel alertJSON (redis p) in
    let p := MkPublisher (plog p) r in
    match err with
    | Some e =>
      (tt, plogged (Zap.Entry Zap.ErrorLevel "Failed to publish alert to Redis"
                      [Zap.Error e]) p)
    | None =>
      (tt, plogged (Zap.Entry Zap.InfoLevel "Alert published to Redis successfully"
                      [Zap.String "symbol" (Symbol alert)]) p)
    end
  end.

(** *** The SSE registry and the streaming handler *)

(** A buffered channel of alerts: the queued messages, and whether
    [close] was called on it. *)
Record Chan := MkChan {
  buf : list AlertMessage;
  closed : bool
}.

(** [make(chan AlertMessage, 10)] *)
Definition chanCap : nat := 10.

(** The serving process. Channels live in [heap], each under the identity
    [make] gave it; [clients] is the package-level map, keyed by channel;
    [heartbeats] holds the connections whose heartbeat goroutine is
    running; [written] is what each handler wrote to its response;
    [crashed] is set by a panic outside a handler. The mutex [mu] makes
    each of the operations below atomic with respect to the map. *)
Record Server := MkServer {
  heap : gmap nat Chan;
  nextChan : nat;
  clients : gmap nat bool;
  heartbeats : gset nat;
  written : gmap nat (list Json.value);
  zlog : list Zap.entry;
  crashed : bool
}.

Definition init : Server := MkServer ∅ 0 ∅ ∅ ∅ [] false.

Definition logged (e : Zap.entry) (s : Server) : Server :=
  MkServer (heap s) (nextChan s) (clients s) (heartbeats s) (written s)
           (zlog s ++ [e]) (crashed s).

Definition withHeap (h : gmap nat Chan) (s : Server) : Server :=
  MkServer h (nextChan s) (clients s) (heartbeats s) (written s)
           (zlog s) (crashed s).

Definition withHeartbeats (hb : gset nat) (s : Server) : Server :=
  MkServer (heap s) (nextChan s) (clients s) hb (written s)
           (zlog s) (crashed s).

Definition panicked (s : Server) : Server :=
  MkServer (heap s) (nextChan s) (clients s) (heartbeats s) (written s)
           (zlog s) true.

(** A send inside [select] with a [default] case. *)
Inductive sendResult :=
| Sent (h : gmap nat Chan)   (* the message is queued *)
| WouldBlock                 (* the buffer is full: [default] runs *)
| SendPanics.                (* send on a closed channel *)

Definition trySend (a : AlertMessage) (c : nat) (h : gmap nat Chan) : sendResult :=
  match h !! c with
  | None => WouldBlock
  | Some ch =>
    if closed ch then SendPanics
    else if (length (buf ch) <? chanCap)%nat
         then Sent (<[c := MkChan (buf ch ++ [a]) false]> h)
         else WouldBlock
  end.

(** [StreamAlertsHandler], from [make] to the start of the heartbeat
    goroutine: the connection is registered under a fresh channel. *)
Definition connect (s : Server) : Server :=
  let clientChan := nextChan s in
  let cl := <[clientChan := true]> (clients s) in
  logged (Zap.Entry Zap.InfoLevel "New SSE client connected"
            [Zap.Int "total_clients" (Z.of_nat (size cl))])
    (MkServer (<[clientChan := MkChan [] false]> (heap s)) (S clientChan) cl
              ({[clientChan]} ∪ heartbeats s) (written s) (zlog s) (crashed s)).

(** [StreamAlertsHandler] up to there; without an [http.Flusher] it
    answers 500 and returns before it touches the registry. *)
Definition StreamAlertsHandler (flusherOk : bool) (s : Server) : Server :=
  if flusherOk then connect s else s.

(** The handler's deferred function, for the handler that owns
    [clientChan]: the entry is deleted, then the channel is closed. A
    [close] that panics unwinds the handler (net/http recovers it) before
    the last log line. *)
Definition disconnect (clientChan : nat) (s : Server) : Server :=
  let cl := delete clientChan (clients s) in
  let s' := MkServer (heap s) (nextChan s) cl (heartbeats s) (written s)
                     (zlog s) (crashed s) in
  match heap s !! clientChan with
  | Some ch =>
    if closed ch then s'
    else
      logged (Zap.Entry Zap.InfoLevel "SSE client disconnected"
                [Zap.Int "total_clients" (Z.of_nat (size cl))])
        (withHeap (<[clientChan := MkChan (buf ch) true]> (heap s)) s')
  | None => s'
  end.

(** [len(clients)], the count the handler logs as [total_clients]. *)
Definition clientCount (s : Server) : nat := size (clients s).

Section Heartbeat.

(** [t.Format(time.RFC3339)] in the process's location. *)
Variable RFC3339 : Z -> string.

(** The message a heartbeat tick sends: only [Timestamp] is set. *)
Definition heartbeatMessage (now : Z) : AlertMessage :=
  MkAlertMessage EmptyString EmptyString PrimFloat.zero EmptyString (RFC3339 now).

(** One firing of [heartbeatTicker.C] in the goroutine of [clientChan]:
    the inner [select] sends or, in its [default] case, returns from the
    goroutine. A goroutine that has returned ticks no more. *)
Definition heartbeat (clientChan : nat) (now : Z) (s : Server) : Server :=
  if decide (clientChan ∈ heartbeats s) then
    match trySend (heartbeatMessage now) clientChan (heap s) with
    | Sent h => withHeap h s
    | WouldBlock => withHeartbeats (heartbeats s ∖ {[clientChan]}) s
    | SendPanics => panicked s
    end
  else s.

End Heartbeat.

(** The goroutine of [clientChan] sees [r.Context().Done()] and returns. *)
Definition contextDone (clientChan : nat) (s : Server) : Server :=
  withHeartbeats (heartbeats s ∖ {[clientChan]}) s.

(** One turn of [for alert := range clientChan]: the oldest message is
    taken, marshalled and written to the response as one event. With an
    empty buffer the loop waits. *)
Definition serve (clientChan : nat) (s : Server) : Server :=
  match heap s !! clientChan with
  | Some (MkChan (alert :: rest) cl) =>
    let s' := withHeap (<[clientChan := MkChan rest cl]> (heap s)) s in
    match Marshal alert with
    | Err e =>
      logged (Zap.Entry Zap.ErrorLevel "Failed to marshal alert data"
                [Zap.Error e]) s'
    | Ok alertData =>
      MkServer (heap s') (nextChan s') (clients s') (heartbeats s')
               (<[clientChan := default [] (written s !! clientChan) ++ [alertData]]>
                  (written s))
               (zlog s') (crashed s')
    end
  | _ => s
  end.

(** The body of the loop of [broadcastToClients] for one channel. A panic
    ends the loop: nothing is sent once the process has crashed. *)
Definition sendTo (alert : AlertMessage) (s : Server) (clientChan : nat) : Server :=
  if crashed s then s
  else
    match trySend alert clientChan (heap s) with
    | Sent h => withHeap h s
    | WouldBlock =>
      logged (Zap.Entry Zap.WarnLevel "Alert dropped due to slow client" []) s
    | SendPanics => panicked s
    end.

(** [for clientChan := range clients], in the order [order]. *)
Definition sendAll (alert : AlertMessage) (order : list nat) (s : Server) : Server :=
  fold_left (sendTo alert) order s.

(** The channels registered in [clients], in the order this model ranges
    over them. Go leaves the order of a range over a map open;
    [sendAll_order] shows that the order makes no difference. *)
Definition registered (s : Server) : list nat := (map_to_list (clients s)).*1.

(** [broadcastToClients(alert)] *)
Definition broadcastToClients (alert : AlertMessage) (s : Server) : Server :=
  let s := logged (Zap.Entry Zap.InfoLevel "Broadcasting alert to clients"
                     [Zap.Int "client_count" (Z.of_nat (size (clients s)));
                      Zap.String "symbol" (Symbol alert)]) s in
  if (size (clients s) =? 0)%nat
  then logged (Zap.Entry Zap.WarnLevel
                 "No SSE clients available! Skipping alert broadcast." []) s
  else sendAll alert (registered s) s.

(** What [ReceiveMessage] hands to one turn of [listenForAlerts]. *)
Inductive received :=
| ReceiveError (e : error)
| Message (payload : option Json.value).

(** One turn of the loop of [listenForAlerts]. *)
Definition listenForAlerts (r : received) (s : Server) : Server :=
  match r with
  | ReceiveError e =>
    logged (Zap.Entry Zap.ErrorLevel "Error receiving message from Redis"
              [Zap.Error e]) s
  | Message payload =>
    match Unmarshal payload zeroAlert with
    | (_, Some e) =>
      logged (Zap.Entry Zap.ErrorLevel "Error unmarshaling alert message"
                [Zap.Error e]) s
    | (alert, None) =>
      broadcastToClients alert
        (logged (Zap.Entry Zap.InfoLevel "Received alert from Redis"
                   [Zap.String "symbol" (Symbol alert);
                    Zap.String "triggered" (Triggered alert)]) s)
    end
  end.

(** What can happen in the serving process, one atomic action each. *)
Inductive event :=
| Request (flusherOk : bool)            (* a GET /alerts/stream arrives *)
| Unwind (clientChan : nat)             (* a handler's deferred function runs *)
| HeartbeatTick (clientChan : nat) (now : Z)
| ContextDone (clientChan : nat)
| Serve (clientChan : nat)
| Received (r : received).

Section Run.

Variable RFC3339 : Z -> string.

Definition step (s : Server) (e : event) : Server :=
  if crashed s then s
  else
    match e with
    | Request ok => StreamAlertsHandler ok s
    | Unwind c => disconnect c s
    | HeartbeatTick c now => heartbeat RFC3339 c now s
    | ContextDone c => contextDone c s
    | Serve c => serve c s
    | Received r => listenForAlerts r s
    end.

Definition run (es : list event) (s : Server) : Server := fold_left step es s.

(** The states the serving process can be in. *)
Definition reachable (s : Server) : Prop := exists es, s = run es init.

End Run.

(** What a non-blocking send of [a] leaves of an open channel: the message
    is queued when there is room, and the channel is as it was when full. *)
Definition isFull (ch : Chan) : bool := negb (length (buf ch) <? chanCap)%nat.

Definition deliver (a : AlertMessage) (ch : Chan) : Chan :=
  if isFull ch then ch else MkChan (buf ch ++ [a]) false.

(** The registered channels whose buffer is full. *)
Definition fullSinks (s : Server) : list nat :=
  List.filter (fun c => match heap s !! c with
                        | Some ch => isFull ch
                        | None => true
                        end) (registered s).

(** The record of a drop: the warning [broadcastToClients] logs. *)
Definition dropEntry : Zap.entry :=
  Zap.Entry Zap.WarnLevel "Alert dropped due to slow client" [].

Definition isDrop (e : Zap.entry) : bool :=
  Zap.isWarn e && String.eqb (Zap.msg e) "Alert dropped due to slow client".

Definition dropCount (s : Server) : nat := length (List.filter isDrop (zlog s)).

(** Every registered channel exists and is open, and every channel in use
    was made before [nextChan]. *)
Definition registry_ok (s : Server) : Prop :=
  (forall c, is_Some (clients s !! c) ->
             exists ch, heap s !! c = Some ch /\ closed ch = false)
  /\ (forall c, is_Some (clients s !! c) \/ is_Some (heap s !! c)
                \/ c ∈ heartbeats s -> (c < nextChan s)%nat).

(** Sequences of the registry's two operations, from the empty registry:
    the k-th [Connect] registers sink k. *)
Inductive registryOp :=
| Connect
| Disconnect (sink : nat).

Definition applyOp (s : Server) (op : registryOp) : Server :=
  match op with
  | Connect => StreamAlertsHandler true s
  | Disconnect c => disconnect c s
  end.

Definition applyOps (ops : list registryOp) : Server := fold_left applyOp ops init.

Definition isConnect (op : registryOp) : bool :=
  match op with Connect => true | Disconnect _ => false end.

Definition connects (ops : list registryOp) : nat :=
  length (List.filter isConnect ops).

Definition disconnects (ops : list registryOp) : nat :=
  length (List.filter (fun op => negb (isConnect op)) ops).

Definition names (c : nat) (op : registryOp) : bool :=
  match op with Connect => false | Disconnect c' => (c =? c')%nat end.

(** The sinks a sequence disconnects, in order. *)
Fixpoint disconnected (ops : list registryOp) : list nat :=
  match ops with
  | [] => []
  | Connect :: ops' => disconnected ops'
  | Disconnect c :: ops' => c :: disconnected ops'
  end.

(** Each [Disconnect] names a sink that a [Connect] before it made. *)
Fixpoint previouslyConnected (made : nat) (ops : list registryOp) : Prop :=
  match ops with
  | [] => True
  | Connect :: ops' => previouslyConnected (S made) ops'
  | Disconnect c :: ops' => (c < made)%nat /\ previouslyConnected made ops'
  end.

(** The [Connect] calls no [Disconnect] has matched: sink k counts when
    no [Disconnect k] is in the sequence. *)
Definition unmatched (ops : list registryOp) : nat :=
  length (List.filter (fun k => negb (existsb (names k) ops))
                      (seq 0 (connects ops))).

(** The check of frontend/index.html for a heartbeat:
    [Object.keys(data).length === 1 && data.timestamp]. A string is truthy
    when it is not empty. *)
Definition truthy (v : option Json.value) : bool :=
  match v with
  | Some (Json.Str s) => negb (String.eqb s EmptyString)
  | Some (Json.Number f) => negb (PrimFloat.is_zero f || PrimFloat.is_nan f)
  | Some (Json.Bool b) => b
  | Some (Json.Array _) | Some (Json.Object _) => true
  | Some Json.Null | None => false
  end.

Fixpoint objectKeys (ms : list (string * Json.value)) : list string :=
  match ms with
  | [] => []
  | (k, _) :: ms' =>
    k :: List.filter (fun k' => negb (String.eqb k k')) (objectKeys ms')
  end.

Definition frontendIsHeartbeat (data : Json.value) : bool :=
  match data with
  | Json.Object ms =>
    (length (objectKeys ms) =? 1)%nat && truthy (Json.lookupKey "timestamp" ms)
  | _ => false
  end.

End Sse.

(* ===================================================================== *)
(** ** internal/models and internal/database *)
(* ===================================================================== *)

Module Models.

(** [Alert]: a price alert; a threshold that is not set is a nil
    pointer. *)
Record Alert := MkAlert {
  ID : string;
  UserID : string;
  Symbol : string;
  UpperThreshold : option float;
  LowerThreshold : option float;
  CreatedAt : Z;
  UpdatedAt : Z
}.

End Models.

Module Database.

(** The alerts table as one query sees it, and whether the query (or the
    scan of its rows) fails. *)
Record DB := MkDB {
  table : list Models.Alert;
  failing : bool
}.

(** [ORDER BY created_at DESC] *)
Fixpoint insertDesc (a : Models.Alert) (l : list Models.Alert) : list Models.Alert :=
  match l with
  | [] => [a]
  | b :: l' =>
    if Models.CreatedAt b <? Models.CreatedAt a
    then a :: b :: l'
    else b :: insertDesc a l'
  end.

Fixpoint orderByCreatedAtDesc (l : list Models.Alert) : list Models.Alert :=
  match l with
  | [] => []
  | a :: l' => insertDesc a (orderByCreatedAtDesc l')
  end.

(** [GetAlertsBySymbol(ctx, symbol)]: the rows [WHERE symbol = $1], or the
    error, which is logged as well. *)
Definition GetAlertsBySymbol (db : DB) (symbol : string) (log : list Zap.entry)
    : result (list Models.Alert) * list Zap.entry :=
  if failing db
  then (Err DatabaseError,
        log ++ [Zap.Entry Zap.ErrorLevel "Failed to query alerts by symbol"
                  [Zap.String "symbol" symbol; Zap.Error DatabaseError]])
  else (Ok (orderByCreatedAtDesc
              (List.filter (fun a => String.eqb (Models.Symbol a) symbol) (table db))),
        log).

End Database.

(* ===================================================================== *)
(** ** The price processor (cmd/alerts/main.go, second program) *)
(* ===================================================================== *)

Module Processor.

(** [PriceUpdate]: a price update, as it comes from Kafka. *)
Record PriceUpdate := MkPriceUpdate {
  Exchange : string;
  Symbol : string;
  Price : float;
  Timestamp : string
}.

(** What the process prints ([fmt.Printf], [fmt.Println], [log.Println]),
    one constructor per format string. *)
Inductive line :=
| Suppressed (alertKey : string)          (* Alert suppressed for %s (cooldown active) *)
| Triggering (alert : Sse.AlertMessage)   (* Triggering SSE Alert: %+v *)
| NotificationToBeSent                    (* Notification to be sent! *)
| FailedToFetch (e : error).              (* Failed to fetch alerts: err *)

(** The environment of the process: what the n-th read of the clock
    returns, how an instant prints in RFC 3339, and whether the n-th call
    of the Redis client's Publish fails. *)
Record Env := MkEnv {
  clock : nat -> Z;
  RFC3339 : Z -> string;
  publishFails : nat -> bool
}.

(** The process: the package-level map [lastAlertTime], the number of
    clock reads so far, the printed lines, and the relay's publisher. *)
Record World := MkWorld {
  lastAlertTime : gmap string Z;
  clockReads : nat;
  console : list line;
  pub : Sse.Publisher
}.

Definition start : World :=
  MkWorld ∅ 0 [] (Sse.MkPublisher [] (Cache.MkRedis [] 0)).

(** [const cooldown = 30 * time.Second] *)
Definition cooldown : GoTime.Duration := 30 * GoTime.Second.

(** Code that runs in the process: a state monad over [World]. *)
Definition M (A : Type) : Type := World -> A * World.

Definition ret {A} (a : A) : M A := fun w => (a, w).

Definition bind {A B} (m : M A) (k : A -> M B) : M B :=
  fun w => let '(a, w') := m w in k a w'.

Notation "x <- m ;; k" := (bind m (fun x => k))
  (at level 100, m at next level, right associativity).
Notation "m ;;; k" := (bind m (fun _ => k))
  (at level 100, right associativity).

Definition exec {A} (m : M A) (w : World) : World := snd (m w).

Definition print (l : line) : M unit :=
  fun w => (tt, MkWorld (lastAlertTime w) (clockReads w) (console w ++ [l]) (pub w)).

Definition lookupLast (key : string) : M (option Z) :=
  fun w => (lastAlertTime w !! key, w).

Definition storeLast (key : string) (t : Z) : M unit :=
  fun w => (tt, MkWorld (<[key := t]> (lastAlertTime w)) (clockReads w)
                        (console w) (pub w)).

Section WithEnv.

Variable env : Env.

(** [time.Now()] *)
Definition now : M Z :=
  fun w => (clock env (clockReads w),
            MkWorld (lastAlertTime w) (S (clockReads w)) (console w) (pub w)).

(** [handlers.BroadcastAlert(alert)], run in this process. *)
Definition BroadcastAlert (alert : Sse.AlertMessage) : M unit :=
  fun w =>
    let '(u, p) := Sse.BroadcastAlert (publishFails env) alert (pub w) in
    (u, MkWorld (lastAlertTime w) (clockReads w) (console w) p).

(** [sendSSEAlert(userID, symbol, threshold, triggered)] *)
Definition sendSSEAlert (userID symbol : string) (threshold : float)
    (triggered : string) : M unit :=
  t <- now ;;
  let alert := Sse.MkAlertMessage userID symbol threshold triggered
                                  (RFC3339 env t) in
  print (Triggering alert) ;;;
  BroadcastAlert alert.

(** The alert [sendSSEAlert] builds for a crossing of [threshold] by
    [priceUpdate], when its read of the clock is the n-th. *)
Definition crossingEvent (priceUpdate : PriceUpdate) (alert : Models.Alert)
    (direction : string) (n : nat) (threshold : float) : Sse.AlertMessage :=
  Sse.MkAlertMessage (Models.UserID alert) (Symbol priceUpdate) threshold
                     direction (RFC3339 env (clock env n)).

(** [fmt.Sprintf("%s_%s", alert.UserID, alert.Symbol)] *)
Definition alertKey (alert : Models.Alert) : string :=
  Models.UserID alert +:+ "_" +:+ Models.Symbol alert.

(** The cooldown check of the loop body: [true] where the code says
    [continue]. [time.Since] reads the clock. *)
Definition cooldownActive (key : string) : M bool :=
  last <- lookupLast key ;;
  match last with
  | Some lastTime =>
    t <- now ;;
    ret (GoTime.Since t lastTime <? cooldown)
  | None => ret false
  end.

(** The two threshold checks; each returns whether it triggered. *)
Definition checkLower (priceUpdate : PriceUpdate) (alert : Models.Alert) : M bool :=
  match Models.LowerThreshold alert with
  | Some lower =>
    if PrimFloat.leb (Price priceUpdate) lower
    then sendSSEAlert (Models.UserID alert) (Symbol priceUpdate) lower "below" ;;;
         ret true
    else ret false
  | None => ret false
  end.

Definition checkUpper (priceUpdate : PriceUpdate) (alert : Models.Alert) : M bool :=
  match Models.UpperThreshold alert with
  | Some upper =>
    if PrimFloat.leb upper (Price priceUpdate)
    then sendSSEAlert (Models.UserID alert) (Symbol priceUpdate) upper "above" ;;;
         ret true
    else ret false
  | None => ret false
  end.

(** The body of [for _, alert := range alerts]. *)
Definition evalAlert (priceUpdate : PriceUpdate) (alert : Models.Alert) : M unit :=
  let key := alertKey alert in
  active <- cooldownActive key ;;
  if active then print (Suppressed key)
  else
    below <- checkLower priceUpdate alert ;;
    above <- checkUpper priceUpdate alert ;;
    if below || above
    then t <- now ;;
         storeLast key t ;;;
         print NotificationToBeSent
    else ret tt.

Fixpoint evalAlerts (priceUpdate : PriceUpdate) (alerts : list Models.Alert) : M unit :=
  match alerts with
  | [] => ret tt
  | alert :: rest => evalAlert priceUpdate alert ;;; evalAlerts priceUpdate rest
  end.

(** [processPriceUpdate(priceUpdate)]; [db] is the database at the time
    of the call. *)
Definition processPriceUpdate (db : Database.DB) (priceUpdate : PriceUpdate) : M unit :=
  fun w =>
    let '(r, lg) := Database.GetAlertsBySymbol db (Symbol priceUpdate)
                      (Sse.plog (pub w)) in
    let w := MkWorld (lastAlertTime w) (clockReads w) (console w)
                     (Sse.MkPublisher lg (Sse.redis (pub w))) in
    match r with
    | Err e => print (FailedToFetch e) w
    | Ok alerts => evalAlerts priceUpdate alerts w
    end.

(** The consumer loop of [main], over the price updates it receives. *)
Fixpoint processAll (ticks : list (Database.DB * PriceUpdate)) : M unit :=
  match ticks with
  | [] => ret tt
  | (db, priceUpdate) :: rest =>
    processPriceUpdate db priceUpdate ;;; processAll rest
  end.

End WithEnv.

(** The alerts handed to [sendSSEAlert] so far. *)
Fixpoint sentAlerts (ls : list line) : list Sse.AlertMessage :=
  match ls with
  | [] => []
  | Triggering a :: ls' => a :: sentAlerts ls'
  | _ :: ls' => sentAlerts ls'
  end.

(** The cooldown key of a sent alert. *)
Definition eventKey (a : Sse.AlertMessage) : string :=
  Sse.UserID a +:+ "_" +:+ Sse.Symbol a.

(** The world after one read of the clock. *)
Definition afterRead (w : World) : World :=
  MkWorld (lastAlertTime w) (S (clockReads w)) (console w) (pub w).

(** The number of times the cooldown map was written: each write is
    followed by the line [NotificationToBeSent]. *)
Fixpoint recordings (ls : list line) : nat :=
  match ls with
  | [] => 0
  | NotificationToBeSent :: ls' => S (recordings ls')
  | _ :: ls' => recordings ls'
  end.

(** The words of the specification, to state the claims with.

    The cooldown for [key] has elapsed: there is no entry, or the next
    clock reading is at least [cooldown] after the entry. The difference
    is the mathematical one, not the saturated [GoTime.Sub]. *)
Definition windowElapsed (env : Env) (key : string) (w : World) : bool :=
  match lastAlertTime w !! key with
  | None => true
  | Some lastFired => negb (clock env (clockReads w) - lastFired <? cooldown)
  end.

(** Between [w] and [w'] the process was silent for [key], whose entry
    [lastFired] it kept: provided every clock reading taken in between
    was within the cooldown of [lastFired], the entry is still there and no
    alert sent in between has that key. *)
Definition silentFor (env : Env) (key : string) (lastFired : Z)
    (w w' : World) : Prop :=
  (clockReads w <= clockReads w')%nat
  /\ ((forall n, (clockReads w <= n < clockReads w')%nat ->
                 clock env n - lastFired < cooldown) ->
      lastAlertTime w !! key = Some lastFired ->
      lastAlertTime w' !! key = Some lastFired
      /\ exists evs,
           sentAlerts (console w') = sentAlerts (console w) ++ evs
           /\ Forall (fun e => eventKey e <> key) evs).

(** Two worlds that agree on everything the evaluation of alerts reads
    and writes; the publisher's log and Redis may differ. *)
Definition sameEvaluation (w w' : World) : Prop :=
  lastAlertTime w = lastAlertTime w'
  /\ clockReads w = clockReads w'
  /\ console w = console w'.

(** The lower threshold is set and the price is at or below it; the
    upper threshold is set and the price is at or above it. *)
Definition lowerCrossing (priceUpdate : PriceUpdate) (alert : Models.Alert)
    : option float :=
  match Models.LowerThreshold alert with
  | Some lower => if PrimFloat.leb (Price priceUpdate) lower then Some lower else None
  | None => None
  end.

Definition upperCrossing (priceUpdate : PriceUpdate) (alert : Models.Alert)
    : option float :=
  match Models.UpperThreshold alert with
  | Some upper => if PrimFloat.leb upper (Price priceUpdate) then Some upper else None
  | None => None
  end.

End Processor.

(* ===================================================================== *)
(** ** Observations on runs of the serving process *)
(* ===================================================================== *)

Module SseObs.

Import Sse.

(** No channel holds more messages than its capacity. *)
Definition bounded (s : Server) : Prop :=
  forall c ch, heap s !! c = Some ch -> (length (buf ch) <= chanCap)%nat.

(** The documents the streaming loop writes for the queued messages [b]:
    one for each message that marshals, in the order queued. *)
Fixpoint eventsOf (b : list AlertMessage) : list Json.value :=
  match b with
  | [] => []
  | a :: b' =>
    match Marshal a with
    | Ok alertData => alertData :: eventsOf b'
    | Err _ => eventsOf b'
    end
  end.

(** The queued messages [json.Marshal] refuses. *)
Definition refused (b : list AlertMessage) : list AlertMessage :=
  List.filter (fun a => match Marshal a with Err _ => true | Ok _ => false end) b.

(** What the handler of [clientChan] has written to its response. *)
Definition writtenTo (clientChan : nat) (s : Server) : list Json.value :=
  default [] (written s !! clientChan).

(** The events that run a handler's deferred function, and the requests
    the handler registers. *)
Definition isUnwind (e : event) : bool :=
  match e with Unwind _ => true | _ => false end.

Definition registers (e : event) : bool :=
  match e with Request flusherOk => flusherOk | _ => false end.

(** Two states of the serving process that differ in the zap log at
    most. *)
Definition sameButLog (s t : Server) : Prop :=
  heap s = heap t /\ nextChan s = nextChan t /\ clients s = clients t
  /\ heartbeats s = heartbeats t /\ written s = written t
  /\ crashed s = crashed t.


(** While no deferred function has run: nothing has crashed, the
    channels made so far are all registered, and all are open. *)
Definition allRegistered (s : Server) : Prop :=
  crashed s = false
  /\ (forall c, clients s !! c = if (c <? nextChan s)%nat then Some true else None)
  /\ (forall c ch, heap s !! c = Some ch -> closed ch = false)
  /\ (forall c, (c < nextChan s)%nat -> is_Some (heap s !! c)).

End SseObs.

(* ===================================================================== *)
(** ** Observations on the price processor *)
(* ===================================================================== *)

Module Ticks.

Import Processor.

(** The alert message [e] is what [sendSSEAlert] is called with for a
    crossing of a threshold of the stored alert [alert] by
    [priceUpdate]. *)
Definition crossedBy (priceUpdate : PriceUpdate) (alert : Models.Alert)
    (e : Sse.AlertMessage) : Prop :=
  Sse.UserID e = Models.UserID alert
  /\ Sse.Symbol e = Symbol priceUpdate
  /\ ((Sse.Triggered e = "below"
       /\ Models.LowerThreshold alert = Some (Sse.Threshold e)
       /\ PrimFloat.leb (Price priceUpdate) (Sse.Threshold e) = true)
      \/ (Sse.Triggered e = "above"
          /\ Models.UpperThreshold alert = Some (Sse.Threshold e)
          /\ PrimFloat.leb (Sse.Threshold e) (Price priceUpdate) = true)).

(** The rows of the table a query [WHERE symbol = $1] selects. *)
Definition rowsFor (db : Database.DB) (symbol : string) : list Models.Alert :=
  List.filter (fun a => String.eqb (Models.Symbol a) symbol) (Database.table db).

End Ticks.

(* ===================================================================== *)
(** ** encoding/json on the other structs of the repository *)
(* ===================================================================== *)

Module JsonStruct.

(** Storing one JSON value in a field of a Go type. [null] leaves a
    string or a float64 as it is and sets a pointer to nil; a number whose
    literal is out of the range of float64 (it reads as an infinity) and a
    value of another kind are an [UnmarshalTypeError]. Before a value that
    is not [null] is stored through a nil pointer, the pointer is made to
    point to a new zero value. *)
Definition storeString (name : string) (v : Json.value) (old : string)
    : string * option error :=
  match v with
  | Json.Null => (old, None)
  | Json.Str s => (Utf8.ToValidUTF8 s, None)
  | _ => (old, Some (UnmarshalTypeError name))
  end.

Definition storeFloat64 (name : string) (v : Json.value) (old : float)
    : float * option error :=
  match v with
  | Json.Null => (old, None)
  | Json.Number x =>
    if PrimFloat.is_finite x then (x, None)
    else (old, Some (UnmarshalTypeError name))
  | _ => (old, Some (UnmarshalTypeError name))
  end.

Definition storeFloat64Ptr (name : string) (v : Json.value) (old : option float)
    : option float * option error :=
  match v with
  | Json.Null => (None, None)
  | _ =>
    let '(x, e) := storeFloat64 name v (default PrimFloat.zero old) in
    (Some x, e)
  end.

Section Decode.

(** A struct type [S] with its exported fields [F]: the fields in
    declaration order, the name the json tag gives to each, and how a
    value is stored in each. *)
Context {F S : Type}.
Variable fields : list F.
Variable tag : F -> string.
Variable setField : F -> Json.value -> S -> S * option error.

(** The field a key selects: the one whose name is the key or, failing
    that, the first whose name is the key up to case. *)
Definition findField (key : string) : option F :=
  match List.find (fun f => String.eqb (tag f) key) fields with
  | Some f => Some f
  | None =>
    List.find (fun f => String.eqb (Json.foldName (tag f)) (Json.foldName key))
              fields
  end.

Fixpoint decodeMembers (ms : list (string * Json.value)) (a : S)
    (err : option error) : S * option error :=
  match ms with
  | [] => (a, err)
  | (k, v) :: ms' =>
    match findField k with
    | None => decodeMembers ms' a err
    | Some f =>
      let '(a', e) := setField f v a in
      decodeMembers ms' a' (Sse.firstError err e)
    end
  end.

(** [json.Unmarshal(payload, &a)] and [json.NewDecoder(r).Decode(&a)] for
    a struct: [payload] is the JSON value read, [None] when there is none
    to read. The members are stored in order; the first type error is
    returned once all of them are read. *)
Definition Unmarshal (payload : option Json.value) (a : S) : S * option error :=
  match payload with
  | None => (a, Some SyntaxError)
  | Some Json.Null => (a, None)
  | Some (Json.Object ms) => decodeMembers ms a None
  | Some _ => (a, Some (UnmarshalTypeError EmptyString))
  end.

End Decode.

End JsonStruct.

(** [PriceUpdate], the price update both programs declare, as JSON. *)
Module PriceUpdateJson.

Import Processor.

Inductive structField := FExchange | FSymbol | FPrice | FTimestamp.

Definition tag (f : structField) : string :=
  match f with
  | FExchange => "exchange"
  | FSymbol => "symbol"
  | FPrice => "price"
  | FTimestamp => "timestamp"
  end.

Definition structFields : list structField :=
  [FExchange; FSymbol; FPrice; FTimestamp].


(** [json.Marshal(priceData)] *)
Definition Marshal (p : PriceUpdate) : result Json.value :=
  match Json.encodeFloat (Price p) with
  | Err e => Err e
  | Ok n =>
    Ok (Json.Object
          [ (tag FExchange, Json.encodeString (Exchange p));
            (tag FSymbol, Json.encodeString (Symbol p));
            (tag FPrice, n);
            (tag FTimestamp, Json.encodeString (Timestamp p)) ])
  end.

Definition setField (f : structField) (v : Json.value) (p : PriceUpdate)
    : PriceUpdate * option error :=
  match f with
  | FExchange =>
    let '(s, e) := JsonStruct.storeString (tag f) v (Exchange p) in
    (MkPriceUpdate s (Symbol p) (Price p) (Timestamp p), e)
  | FSymbol =>
    let '(s, e) := JsonStruct.storeString (tag f) v (Symbol p) in
    (MkPriceUpdate (Exchange p) s (Price p) (Timestamp p), e)
  | FPrice =>
    let '(x, e) := JsonStruct.storeFloat64 (tag f) v (Price p) in
    (MkPriceUpdate (Exchange p) (Symbol p) x (Timestamp p), e)
  | FTimestamp =>
    let '(s, e) := JsonStruct.storeString (tag f) v (Timestamp p) in
    (MkPriceUpdate (Exchange p) (Symbol p) (Price p) s, e)
  end.

(** [json.Unmarshal(msg.Value, &priceUpdate)] *)
Definition Unmarshal (payload : option Json.value) (p : PriceUpdate)
    : PriceUpdate * option error :=
  JsonStruct.Unmarshal structFields tag setField payload p.

End PriceUpdateJson.

(* ===================================================================== *)
(** ** The ingestion service (cmd/ingestion/main.go) *)
(* ===================================================================== *)

Module Ingestion.

(** [TradeMessage]: a trade message from Coinbase. *)
Record TradeMessage := MkTradeMessage {
  Type_ : string;          (* [Type] *)
  ProductID : string;
  Price : string;
  Size : string;
  Time : string
}.

Definition zeroTrade : TradeMessage :=
  MkTradeMessage EmptyString EmptyString EmptyString EmptyString EmptyString.

Inductive structField := FType | FProductID | FPrice | FSize | FTime.

Definition tag (f : structField) : string :=
  match f with
  | FType => "type"
  | FProductID => "product_id"
  | FPrice => "price"
  | FSize => "size"
  | FTime => "time"
  end.

Definition structFields : list structField :=
  [FType; FProductID; FPrice; FSize; FTime].

Definition setField (f : structField) (v : Json.value) (t : TradeMessage)
    : TradeMessage * option error :=
  match f with
  | FType =>
    let '(s, e) := JsonStruct.storeString (tag f) v (Type_ t) in
    (MkTradeMessage s (ProductID t) (Price t) (Size t) (Time t), e)
  | FProductID =>
    let '(s, e) := JsonStruct.storeString (tag f) v (ProductID t) in
    (MkTradeMessage (Type_ t) s (Price t) (Size t) (Time t), e)
  | FPrice =>
    let '(s, e) := JsonStruct.storeString (tag f) v (Price t) in
    (MkTradeMessage (Type_ t) (ProductID t) s (Size t) (Time t), e)
  | FSize =>
    let '(s, e) := JsonStruct.storeString (tag f) v (Size t) in
    (MkTradeMessage (Type_ t) (ProductID t) (Price t) s (Time t), e)
  | FTime =>
    let '(s, e) := JsonStruct.storeString (tag f) v (Time t) in
    (MkTradeMessage (Type_ t) (ProductID t) (Price t) (Size t) s, e)
  end.

(** [json.Unmarshal(message, &trade)] *)
Definition Unmarshal (payload : option Json.value) (t : TradeMessage)
    : TradeMessage * option error :=
  JsonStruct.Unmarshal structFields tag setField payload t.

(** The subscription [main] writes to the socket. *)
Definition subscribe : Json.value :=
  Json.Object [ ("type", Json.Str "subscribe");
                ("product_ids", Json.Array [Json.Str "BTC-USD"]);
                ("channels", Json.Array [Json.Str "matches"]) ].

(** The Kafka producer: the messages it took for the topic
    [price.updates], and the number of calls of [Produce]. Whether the
    n-th call fails is the environment's choice. *)
Record Producer := MkProducer {
  produced : list Json.value;
  produceCalls : nat
}.

(** What the process prints, one constructor per format string. *)
Inductive line :=
| Connecting                                  (* Connecting to Coinbase WebSocket... *)
| ConnectionFailed (backoff : GoTime.Duration)  (* WebSocket connection failed: err. Retrying in backoff... *)
| Connected                                   (* Connected to Coinbase WebSocket! *)
| SubscriptionFailed                          (* Subscription failed: err *)
| Subscribed                                  (* Subscribed to BTC/USD trades. *)
| WebSocketError                              (* WebSocket error: err *)
| ErrorParsingMessage (e : error)             (* Error parsing message: err *)
| Trade (symbol : string) (price : float)     (* Trade: %s | Price: %.2f *)
| ErrorMarshaling (e : error)                 (* Error marshaling JSON: err *)
| ErrorProducing                              (* Error producing Kafka message: err *)
| SentToKafka (value : Json.value).           (* Sent to Kafka: value *)

(** Where [main] is: inside [connectWebSocket] with the current backoff,
    about to write the subscription, in the read loop, or returned. *)
Inductive phase :=
| Dialing (backoff : GoTime.Duration)
| Subscribing
| Reading
| Exited.

(** The process: the calls of [time.Sleep] made, the connections opened
    and not closed, what was written to the socket, the producer and
    whether it is closed, and the printed lines. *)
Record State := MkState {
  stage : phase;
  slept : list GoTime.Duration;
  openConns : nat;
  wsWritten : list Json.value;
  kafka : Producer;
  producerClosed : bool;
  out : list line
}.

(** What the environment answers to the call [main] is waiting in. *)
Inductive answer :=
| Dial (failed : bool)
| WriteJSON (failed : bool)
| ReadMessage (message : option (option Json.value)).
                  (* [None]: an error; [Some payload]: the bytes read,
                     [payload] being the JSON value they hold, if any *)

Definition printed (l : line) (s : State) : State :=
  MkState (stage s) (slept s) (openConns s) (wsWritten s) (kafka s)
          (producerClosed s) (out s ++ [l]).

Definition moved (p : phase) (s : State) : State :=
  MkState p (slept s) (openConns s) (wsWritten s) (kafka s)
          (producerClosed s) (out s).

(** int64 arithmetic wraps. *)
Definition wrap64 (z : Z) : Z := (z + 2 ^ 63) mod 2 ^ 64 - 2 ^ 63.

(** [var backoff = 1 * time.Second] *)
Definition initialBackoff : GoTime.Duration := 1 * GoTime.Second.

(** After a failed dial and the sleep:
    [if backoff < 30*time.Second { backoff *= 2 }]. *)
Definition nextBackoff (backoff : GoTime.Duration) : GoTime.Duration :=
  if backoff <? 30 * GoTime.Second then wrap64 (backoff * 2) else backoff.

Section WithEnv.

(** The decoder's reading of a text as one JSON value, the library's:
    [None] for a text that is not one. *)
Variable parseJSON : string -> option Json.value.

(** Whether the n-th call of [Produce] fails. *)
Variable produceFails : nat -> bool.

(** [parsePrice(priceStr)]: the error of [json.Unmarshal] is dropped, and
    [price] is then still zero. *)
Definition parsePrice (priceStr : string) : float :=
  match parseJSON priceStr with
  | None => PrimFloat.zero
  | Some v => fst (JsonStruct.storeFloat64 EmptyString v PrimFloat.zero)
  end.

(** [publishToKafka(producer, priceData)] *)
Definition publishToKafka (priceData : Processor.PriceUpdate) (s : State) : State :=
  match PriceUpdateJson.Marshal priceData with
  | Err e => printed (ErrorMarshaling e) s
  | Ok value =>
    let k := kafka s in
    if produceFails (produceCalls k)
    then printed ErrorProducing
           (MkState (stage s) (slept s) (openConns s) (wsWritten s)
                    (MkProducer (produced k) (S (produceCalls k)))
                    (producerClosed s) (out s))
    else printed (SentToKafka value)
           (MkState (stage s) (slept s) (openConns s) (wsWritten s)
                    (MkProducer (produced k ++ [value]) (S (produceCalls k)))
                    (producerClosed s) (out s))
  end.

(** The body of the read loop for the bytes of one message. *)
Definition handleMessage (message : option Json.value) (s : State) : State :=
  match Unmarshal message zeroTrade with
  | (_, Some e) => printed (ErrorParsingMessage e) s
  | (trade, None) =>
    if String.eqb (Type_ trade) "match" then
      let priceUpdate :=
        Processor.MkPriceUpdate "coinbase" (ProductID trade)
                                (parsePrice (Price trade)) (Time trade) in
      publishToKafka priceUpdate
        (printed (Trade (Processor.Symbol priceUpdate)
                        (Processor.Price priceUpdate)) s)
    else s
  end.

(** [main], from one call that waits on the environment to the next. An
    answer to a call [main] is not waiting in does not occur. When [main]
    returns, the deferred calls close every connection and the
    producer. *)
Definition step (s : State) (a : answer) : State :=
  match stage s, a with
  | Dialing backoff, Dial true =>
    let s := printed (ConnectionFailed backoff) (printed Connecting s) in
    MkState (Dialing (nextBackoff backoff)) (slept s ++ [backoff]) (openConns s)
            (wsWritten s) (kafka s) (producerClosed s) (out s)
  | Dialing _, Dial false =>
    let s := printed Connected (printed Connecting s) in
    MkState Subscribing (slept s) (S (openConns s)) (wsWritten s) (kafka s)
            (producerClosed s) (out s)
  | Subscribing, WriteJSON true =>
    let s := printed SubscriptionFailed s in
    MkState Exited (slept s) 0 (wsWritten s) (kafka s) true (out s)
  | Subscribing, WriteJSON false =>
    let s := printed Subscribed s in
    MkState Reading (slept s) (openConns s) (wsWritten s ++ [subscribe])
            (kafka s) (producerClosed s) (out s)
  | Reading, ReadMessage None =>
    moved (Dialing initialBackoff) (printed WebSocketError s)
  | Reading, ReadMessage (Some message) => handleMessage message s
  | _, _ => s
  end.

Definition run (answers : list answer) (s : State) : State :=
  fold_left step answers s.

End WithEnv.

(** [main] at its first call of [connectWebSocket]. *)
Definition start : State :=
  MkState (Dialing initialBackoff) [] 0 [] (MkProducer [] 0) false [].

(** The sleeps so far, and the backoff in force, are between 1 s and
    32 s. *)
Definition backoffBounded (s : State) : Prop :=
  Forall (fun d => GoTime.Second <= d <= 32 * GoTime.Second) (slept s)
  /\ match stage s with
     | Dialing backoff =>
       exists k, backoff = 2 ^ Z.of_nat (Nat.min k 5) * GoTime.Second
     | _ => True
     end.

Definition isConnected (l : line) : bool :=
  match l with Connected => true | _ => false end.

Definition isSubscriptionFailed (l : line) : bool :=
  match l with SubscriptionFailed => true | _ => false end.

Definition isErrorMarshaling (l : line) : bool :=
  match l with ErrorMarshaling _ => true | _ => false end.

(** The connections dialed so far, by the lines printed. *)
Definition dialed (s : State) : nat := length (List.filter isConnected (out s)).

(** While [main] has not returned every connection dialed is open and so
    is the producer; it has returned exactly when a subscription has
    failed, and then all are closed. No price update has failed to
    marshal. *)
Definition resourcesHeld (s : State) : Prop :=
  match stage s with
  | Exited =>
    openConns s = 0%nat /\ producerClosed s = true
    /\ existsb isSubscriptionFailed (out s) = true
  | _ =>
    openConns s = dialed s /\ producerClosed s = false
    /\ existsb isSubscriptionFailed (out s) = false
  end.



End Ingestion.

(* ===================================================================== *)
(** ** The consumer loop of the price processor (cmd/alerts/main.go) *)
(* ===================================================================== *)

Module Consumer.

Import Processor.




Section WithEnv.

Variable env : Env.



End WithEnv.


End Consumer.

(* ===================================================================== *)
(** ** internal/database/db.go: the other statements *)
(* ===================================================================== *)

Module Crud.

Import Models.

(** The errors these functions return: [errors.New("alert not found")],
    or an error of database/sql or the driver. *)
Inductive failure :=
| AlertNotFound
| Driver (e : error).

Inductive reply (A : Type) :=
| Got (a : A)
| Failed (f : failure).
Arguments Got {A} a.
Arguments Failed {A} f.

(** What goes wrong in a query for rows: nothing, the query itself, or
    the scan of its rows ([rows.Scan], [rows.Err]). *)
Inductive fault := NoFault | QueryFault | ScanFault.

(** The table is the list of its rows, oldest insert first; a row is kept
    as the values the statement binds, and read as [scanAlerts] reads it.
    Which statements fail is the environment's choice: the constraints of
    the schema, which is not part of the repository, are among the
    reasons. *)
Definition Table := list Alert.

(** [CreateAlert(ctx, alert)] *)
Definition CreateAlert (fails : bool) (alert : Alert) (table : Table)
    (log : list Zap.entry) : option failure * Table * list Zap.entry :=
  if fails
  then (Some (Driver DatabaseError), table,
        log ++ [Zap.Entry Zap.ErrorLevel "Failed to create alert in database"
                  [Zap.String "alert_id" (ID alert); Zap.Error DatabaseError]])
  else (None, table ++ [alert], log).

(** [GetAlertByID(ctx, id)]: [QueryRowContext] and [Scan] give the first
    row selected, or [sql.ErrNoRows]. *)
Definition GetAlertByID (fails : bool) (id : string) (table : Table)
    (log : list Zap.entry) : reply Alert * list Zap.entry :=
  if fails
  then (Failed (Driver DatabaseError),
        log ++ [Zap.Entry Zap.ErrorLevel "Failed to retrieve alert"
                  [Zap.String "alert_id" id; Zap.Error DatabaseError]])
  else
    match List.find (fun a => String.eqb (ID a) id) table with
    | None => (Failed AlertNotFound, log)
    | Some alert => (Got alert, log)
    end.

(** [GetAlertsByUserID(ctx, userID)]; a failed scan is returned without
    a log entry. *)
Definition GetAlertsByUserID (f : fault) (userID : string) (table : Table)
    (log : list Zap.entry) : result (list Alert) * list Zap.entry :=
  match f with
  | QueryFault =>
    (Err DatabaseError,
     log ++ [Zap.Entry Zap.ErrorLevel "Failed to query alerts by user ID"
               [Zap.String "user_id" userID; Zap.Error DatabaseError]])
  | ScanFault => (Err DatabaseError, log)
  | NoFault =>
    (Ok (Database.orderByCreatedAtDesc
           (List.filter (fun a => String.eqb (UserID a) userID) table)), log)
  end.

(** [GetAlertsBySymbol(ctx, symbol)], with the failed scan. *)
Definition GetAlertsBySymbol (f : fault) (symbol : string) (table : Table)
    (log : list Zap.entry) : result (list Alert) * list Zap.entry :=
  match f with
  | ScanFault => (Err DatabaseError, log)
  | QueryFault => Database.GetAlertsBySymbol (Database.MkDB table true) symbol log
  | NoFault => Database.GetAlertsBySymbol (Database.MkDB table false) symbol log
  end.

(** [GetAllAlerts(ctx)] *)
Definition GetAllAlerts (f : fault) (table : Table) (log : list Zap.entry)
    : result (list Alert) * list Zap.entry :=
  match f with
  | QueryFault =>
    (Err DatabaseError,
     log ++ [Zap.Entry Zap.ErrorLevel "Failed to query all alerts"
               [Zap.Error DatabaseError]])
  | ScanFault => (Err DatabaseError, log)
  | NoFault => (Ok (Database.orderByCreatedAtDesc table), log)
  end.

(** The row [UPDATE alerts SET symbol, upper_threshold, lower_threshold,
    updated_at WHERE id] makes of a row it selects. *)
Definition updated (alert row : Alert) : Alert :=
  MkAlert (ID row) (UserID row) (Symbol alert) (UpperThreshold alert)
          (LowerThreshold alert) (CreatedAt row) (UpdatedAt alert).

(** [UpdateAlert(ctx, alert)]: the number of rows affected is not
    looked at. *)
Definition UpdateAlert (fails : bool) (alert : Alert) (table : Table)
    (log : list Zap.entry) : option failure * Table * list Zap.entry :=
  if fails
  then (Some (Driver DatabaseError), table,
        log ++ [Zap.Entry Zap.ErrorLevel "Failed to update alert"
                  [Zap.String "alert_id" (ID alert); Zap.Error DatabaseError]])
  else
    (None,
     map (fun row => if String.eqb (ID row) (ID alert) then updated alert row
                     else row) table,
     log).

(** [DeleteAlert(ctx, id)]: when [RowsAffected] fails the rows are
    gone all the same. *)
Definition DeleteAlert (fails rowsAffectedFails : bool) (id : string)
    (table : Table) (log : list Zap.entry)
    : option failure * Table * list Zap.entry :=
  if fails
  then (Some (Driver DatabaseError), table,
        log ++ [Zap.Entry Zap.ErrorLevel "Failed to delete alert"
                  [Zap.String "alert_id" id; Zap.Error DatabaseError]])
  else
    let table' := List.filter (fun a => negb (String.eqb (ID a) id)) table in
    let rowsAffected := (length table - length table')%nat in
    if rowsAffectedFails then (Some (Driver DatabaseError), table', log)
    else if (rowsAffected =? 0)%nat then (Some AlertNotFound, table', log)
    else (None, table', log).

End Crud.

(* ===================================================================== *)
(** ** internal/cache: the response cache *)
(* ===================================================================== *)

Module CacheStore.

(** The bytes of a cached value or of a response body: a string, or the
    text [json.Marshal] renders a document as, which is never empty. *)
Inductive text :=
| Raw (s : string)
| Rendered (doc : Json.value).

Definition isEmpty (t : text) : bool :=
  match t with
  | Raw s => String.eqb s EmptyString
  | Rendered _ => false
  end.

(** The Redis keyspace, each value with the instant it expires at if it
    does, and the two Prometheus counters by their labels
    (endpoint, instance). *)
Record Store := MkStore {
  kv : gmap string (text * option Z);
  cacheHitsTotal : gmap (string * string) nat;
  cacheMissesTotal : gmap (string * string) nat
}.

Definition inc (labels : string * string) (c : gmap (string * string) nat)
    : gmap (string * string) nat :=
  <[labels := S (default 0%nat (c !! labels))]> c.

(** [GET key] at the instant [now] of the server's clock: a key is gone
    once the clock is past its expiry. *)
Definition get (now : Z) (key : string) (st : Store) : option text :=
  match kv st !! key with
  | Some (v, Some expiry) => if now <=? expiry then Some v else None
  | Some (v, None) => Some v
  | None => None
  end.

(** [GetCache(ctx, key, endpoint, instance)]; [redis.Nil] is a miss. *)
Definition GetCache (fails : bool) (now : Z) (key endpoint instance : string)
    (st : Store) : (text * option error) * Store :=
  if fails then ((Raw EmptyString, Some RedisError), st)
  else
    match get now key st with
    | None =>
      ((Raw EmptyString, None),
       MkStore (kv st) (cacheHitsTotal st)
               (inc (endpoint, instance) (cacheMissesTotal st)))
    | Some val =>
      ((val, None),
       MkStore (kv st) (inc (endpoint, instance) (cacheHitsTotal st))
               (cacheMissesTotal st))
    end.

(** The expiry the client's [Set] asks for: a positive duration is sent
    in whole seconds when it is a number of seconds, and in milliseconds
    (at least one) when it is not; [KeepTTL] keeps the expiry the key
    has; any other duration sets none. *)
Definition KeepTTL : GoTime.Duration := -1.

Definition Millisecond : GoTime.Duration := 1000000.

Definition expiryOf (now : Z) (ttl : GoTime.Duration) (old : option Z) : option Z :=
  if 0 <? ttl then
    if (ttl <? GoTime.Second) || negb (Z.rem ttl GoTime.Second =? 0)
    then Some (now + (if ttl <? Millisecond then 1
                      else Z.quot ttl Millisecond) * Millisecond)
    else Some (now + Z.quot ttl GoTime.Second * GoTime.Second)
  else if ttl =? KeepTTL then old
  else None.

(** [SetCache(ctx, key, value, ttl, endpoint, instance)] *)
Definition SetCache (fails : bool) (now : Z) (key : string) (value : text)
    (ttl : GoTime.Duration) (endpoint instance : string) (st : Store)
    : option error * Store :=
  if fails then (Some RedisError, st)
  else
    let old := match kv st !! key with
               | Some (_, Some expiry) => if now <=? expiry then Some expiry else None
               | _ => None
               end in
    (None, MkStore (<[key := (value, expiryOf now ttl old)]> (kv st))
                   (cacheHitsTotal st) (cacheMissesTotal st)).

(** What the successive calls of [SCAN] answer in one iteration of the
    keyspace: pages with a cursor that is not zero, and then either the
    last page, whose cursor is zero, or an error. *)
Inductive lastReply :=
| LastPage (foundKeys : list string)
| ScanError.

Record Iteration := MkIteration {
  pages : list (list string);
  final : lastReply
}.

(** The loop of [getAllKeys]: the pages are appended until the cursor
    is zero. *)
Fixpoint scanLoop (pages : list (list string)) (final : lastReply)
    (keys : list string) : result (list string) :=
  match pages with
  | foundKeys :: rest => scanLoop rest final (keys ++ foundKeys)
  | [] =>
    match final with
    | ScanError => Err RedisError
    | LastPage foundKeys => Ok (keys ++ foundKeys)
    end
  end.

(** [getAllKeys(ctx, prefix)]: every call asks for the keys that match
    [prefix*]; what the server answers is [it]. *)
Definition getAllKeys (it : Iteration) (prefix : string) : result (list string) :=
  scanLoop (pages it) (final it) [].

(** The loop of [InvalidateByPrefix] over the keys: [n] counts the calls
    of [Del] made before, [delFails] says which of the calls fail. *)
Fixpoint delAll (delFails : nat -> bool) (prefix endpoint instance : string)
    (keys : list string) (n : nat) (invalidatedCount : Z)
    (kvs : gmap string (text * option Z)) (log : list Zap.entry)
    : Z * gmap string (text * option Z) * list Zap.entry :=
  match keys with
  | [] => (invalidatedCount, kvs, log)
  | key :: rest =>
    if delFails n
    then delAll delFails prefix endpoint instance rest (S n) invalidatedCount kvs
           (log ++ [Zap.Entry Zap.WarnLevel "Failed to invalidate cache key"
                      [Zap.String "key" key; Zap.String "prefix" prefix;
                       Zap.String "endpoint" endpoint;
                       Zap.String "instance" instance; Zap.Error RedisError]])
    else delAll delFails prefix endpoint instance rest (S n) (invalidatedCount + 1)
           (delete key kvs) log
  end.

(** [InvalidateByPrefix(ctx, prefix, endpoint, instance)] *)
Definition InvalidateByPrefix (it : Iteration) (delFails : nat -> bool)
    (prefix endpoint instance : string) (st : Store) (log : list Zap.entry)
    : Store * list Zap.entry :=
  match getAllKeys it prefix with
  | Err e =>
    (st, log ++ [Zap.Entry Zap.ErrorLevel "Failed to get cache keys for invalidation"
                   [Zap.String "prefix" prefix; Zap.String "endpoint" endpoint;
                    Zap.String "instance" instance; Zap.Error e]])
  | Ok keys =>
    let '(invalidatedCount, kvs, log) :=
      delAll delFails prefix endpoint instance keys 0 0 (kv st) log in
    (MkStore kvs (cacheHitsTotal st) (cacheMissesTotal st),
     log ++ [Zap.Entry Zap.InfoLevel "Cache invalidation completed"
               [Zap.String "prefix" prefix; Zap.String "endpoint" endpoint;
                Zap.String "instance" instance;
                Zap.Int "invalidated_keys" invalidatedCount]])
  end.

End CacheStore.

(* ===================================================================== *)
(** ** internal/handlers/alerts.go: the alerts API *)
(* ===================================================================== *)

Module Api.

Import Models.

(** [Response]; [Data] holds nothing, one alert or a slice of alerts,
    which is nil when it is empty. *)
Inductive data :=
| NoData
| OneAlert (alert : Alert)
| ManyAlerts (alerts : list Alert).

Record Response := MkResponse {
  Message : string;
  Data : data
}.

Record CreateAlertRequest := MkCreateAlertRequest {
  CUserID : string;                  (* [UserID] *)
  CSymbol : string;                  (* [Symbol] *)
  CUpperThreshold : option float;    (* [UpperThreshold] *)
  CLowerThreshold : option float     (* [LowerThreshold] *)
}.

Record UpdateAlertRequest := MkUpdateAlertRequest {
  USymbol : string;                  (* [Symbol] *)
  UUpperThreshold : option float;    (* [UpperThreshold] *)
  ULowerThreshold : option float     (* [LowerThreshold] *)
}.

Inductive createField := CFUserID | CFSymbol | CFUpperThreshold | CFLowerThreshold.

Definition createTag (f : createField) : string :=
  match f with
  | CFUserID => "user_id"
  | CFSymbol => "symbol"
  | CFUpperThreshold => "upper_threshold"
  | CFLowerThreshold => "lower_threshold"
  end.

Definition createFields : list createField :=
  [CFUserID; CFSymbol; CFUpperThreshold; CFLowerThreshold].

Definition setCreateField (f : createField) (v : Json.value)
    (r : CreateAlertRequest) : CreateAlertRequest * option error :=
  match f with
  | CFUserID =>
    let '(s, e) := JsonStruct.storeString (createTag f) v (CUserID r) in
    (MkCreateAlertRequest s (CSymbol r) (CUpperThreshold r) (CLowerThreshold r), e)
  | CFSymbol =>
    let '(s, e) := JsonStruct.storeString (createTag f) v (CSymbol r) in
    (MkCreateAlertRequest (CUserID r) s (CUpperThreshold r) (CLowerThreshold r), e)
  | CFUpperThreshold =>
    let '(p, e) := JsonStruct.storeFloat64Ptr (createTag f) v (CUpperThreshold r) in
    (MkCreateAlertRequest (CUserID r) (CSymbol r) p (CLowerThreshold r), e)
  | CFLowerThreshold =>
    let '(p, e) := JsonStruct.storeFloat64Ptr (createTag f) v (CLowerThreshold r) in
    (MkCreateAlertRequest (CUserID r) (CSymbol r) (CUpperThreshold r) p, e)
  end.

Definition zeroCreate : CreateAlertRequest :=
  MkCreateAlertRequest EmptyString EmptyString None None.

Inductive updateField := UFSymbol | UFUpperThreshold | UFLowerThreshold.

Definition updateTag (f : updateField) : string :=
  match f with
  | UFSymbol => "symbol"
  | UFUpperThreshold => "upper_threshold"
  | UFLowerThreshold => "lower_threshold"
  end.

Definition updateFields : list updateField :=
  [UFSymbol; UFUpperThreshold; UFLowerThreshold].

Definition setUpdateField (f : updateField) (v : Json.value)
    (r : UpdateAlertRequest) : UpdateAlertRequest * option error :=
  match f with
  | UFSymbol =>
    let '(s, e) := JsonStruct.storeString (updateTag f) v (USymbol r) in
    (MkUpdateAlertRequest s (UUpperThreshold r) (ULowerThreshold r), e)
  | UFUpperThreshold =>
    let '(p, e) := JsonStruct.storeFloat64Ptr (updateTag f) v (UUpperThreshold r) in
    (MkUpdateAlertRequest (USymbol r) p (ULowerThreshold r), e)
  | UFLowerThreshold =>
    let '(p, e) := JsonStruct.storeFloat64Ptr (updateTag f) v (ULowerThreshold r) in
    (MkUpdateAlertRequest (USymbol r) (UUpperThreshold r) p, e)
  end.

Definition zeroUpdate : UpdateAlertRequest :=
  MkUpdateAlertRequest EmptyString None None.

(** A request as the handlers read it: the method, [r.URL.Path],
    [r.URL.Query()], and the first JSON value of the body, if the body
    starts with one. *)
Record Request := MkRequest {
  Method : string;
  Path : string;
  Query : gmap string (list string);
  Body : option Json.value
}.

(** What a handler leaves in the [http.ResponseWriter]: the reply
    [http.Error] writes, or a status with the Content-Type the handler
    set and the body it wrote. *)
Inductive reply :=
| HttpError (error : string) (code : nat)
| Written (code : nat) (contentType : string) (body : CacheStore.text).

Definition StatusOK : nat := 200.
Definition StatusCreated : nat := 201.
Definition StatusBadRequest : nat := 400.
Definition StatusNotFound : nat := 404.
Definition StatusMethodNotAllowed : nat := 405.
Definition StatusInternalServerError : nat := 500.

(** The serving process: the alerts table, Redis, and the zap log. *)
Record World := MkWorld {
  table : Crud.Table;
  store : CacheStore.Store;
  zlog : list Zap.entry
}.

(** What the environment does during one request: the trace id of the
    span, the clock and the fresh UUID the handler reads, the clock of the
    Redis server, and which of the calls to Redis and to the database
    fail. *)
Record Env := MkEnv {
  traceID : string;
  now : Z;
  uuid : string;
  redisNow : Z;
  getFails : bool;
  setFails : bool;
  scan : CacheStore.Iteration;
  delFails : nat -> bool;
  queryFault : Crud.fault;
  selectFails : bool;
  execFails : bool;
  rowsAffectedFails : bool
}.

Definition logged (e : Zap.entry) (w : World) : World :=
  MkWorld (table w) (store w) (zlog w ++ [e]).

(** [zap.Error(err)]: the field "error" with the error's text. *)
Definition zapFailure (f : Crud.failure) : Zap.field :=
  match f with
  | Crud.AlertNotFound => Zap.String "error" "alert not found"
  | Crud.Driver e => Zap.Error e
  end.

(** [strings.Split(s, "/")] *)
Fixpoint splitSlash (s : string) : list string :=
  match s with
  | EmptyString => [EmptyString]
  | String c r =>
    if Ascii.eqb c "/" then EmptyString :: splitSlash r
    else
      match splitSlash r with
      | part :: parts => String c part :: parts
      | [] => [String c EmptyString]
      end
  end.

(** [strings.Join(elems, sep)] *)
Fixpoint join (elems : list string) (sep : string) : string :=
  match elems with
  | [] => EmptyString
  | [e] => e
  | e :: rest => e +:+ sep +:+ join rest sep
  end.

(** [hex.EncodeToString] *)
Definition hexDigit (n : N) : ascii :=
  ascii_of_N (if (n <? 10)%N then 48 + n else 87 + n).

Fixpoint hexEncode (s : string) : string :=
  match s with
  | EmptyString => EmptyString
  | String c r =>
    let n := N_of_ascii c in
    String (hexDigit (n / 16)) (String (hexDigit (n mod 16)) (hexEncode r))
  end.

(** [sort.Strings]: ascending, by bytes. *)
Fixpoint insertSorted (s : string) (l : list string) : list string :=
  match l with
  | [] => [s]
  | t :: l' => if String.leb s t then s :: l else t :: insertSorted s l'
  end.

Fixpoint sortStrings (l : list string) : list string :=
  match l with
  | [] => []
  | s :: l' => insertSorted s (sortStrings l')
  end.

(** [r.URL.Query().Get(key)]: the first value, or the empty string. *)
Definition queryGet (key : string) (q : gmap string (list string)) : string :=
  match q !! key with
  | Some (v :: _) => v
  | _ => EmptyString
  end.

Section Handlers.

(** [sha256.Sum256], from the bytes of a string to the 32 bytes of the
    digest. *)
Variable Sum256 : string -> string.

(** [MarshalJSON] of a [time.Time]. *)
Variable timeJSON : Z -> result Json.value.

(** The instance id the server was started with. *)
Variable instance : string.

(** [generateCacheKey(r, prefix)] *)
Definition generateCacheKey (r : Request) (prefix : string) : string :=
  let keys := sortStrings (map fst (map_to_list (Query r))) in
  let queryString :=
    map (fun k => k +:+ "=" +:+ join (default [] (Query r !! k)) ",") keys in
  let joinedParams := join queryString "&" in
  let hash := Sum256 joinedParams in
  prefix +:+ hexEncode (String.substring 0 8 hash).

(** [json.Marshal] of an alert: a threshold that is nil is left out. *)
Definition encodeThreshold (name : string) (p : option float)
    : result (list (string * Json.value)) :=
  match p with
  | None => Ok []
  | Some x =>
    match Json.encodeFloat x with
    | Ok n => Ok [(name, n)]
    | Err e => Err e
    end
  end.

Definition encodeAlert (a : Alert) : result Json.value :=
  match encodeThreshold "upper_threshold" (UpperThreshold a) with
  | Err e => Err e
  | Ok upper =>
    match encodeThreshold "lower_threshold" (LowerThreshold a) with
    | Err e => Err e
    | Ok lower =>
      match timeJSON (CreatedAt a) with
      | Err e => Err e
      | Ok created =>
        match timeJSON (UpdatedAt a) with
        | Err e => Err e
        | Ok updated =>
          Ok (Json.Object
                ([ ("id", Json.encodeString (ID a));
                   ("user_id", Json.encodeString (UserID a));
                   ("symbol", Json.encodeString (Symbol a)) ]
                 ++ upper ++ lower
                 ++ [ ("created_at", created); ("updated_at", updated) ]))
        end
      end
    end
  end.

Fixpoint encodeAlerts (l : list Alert) : result (list Json.value) :=
  match l with
  | [] => Ok []
  | a :: rest =>
    match encodeAlert a with
    | Err e => Err e
    | Ok d =>
      match encodeAlerts rest with
      | Err e => Err e
      | Ok ds => Ok (d :: ds)
      end
    end
  end.

(** [json.Marshal(response)]: [data] is left out when [Data] is nil, and
    is [null] for a nil slice. *)
Definition encodeResponse (r : Response) : result Json.value :=
  let message := ("message", Json.encodeString (Message r)) in
  match Data r with
  | NoData => Ok (Json.Object [message])
  | OneAlert a =>
    match encodeAlert a with
    | Err e => Err e
    | Ok d => Ok (Json.Object [message; ("data", d)])
    end
  | ManyAlerts [] => Ok (Json.Object [message; ("data", Json.Null)])
  | ManyAlerts l =>
    match encodeAlerts l with
    | Err e => Err e
    | Ok ds => Ok (Json.Object [message; ("data", Json.Array ds)])
    end
  end.

(** [json.NewEncoder(w).Encode(response)] after the header is set: the
    error is not looked at, and nothing is written when there is one. *)
Definition encodeTo (code : nat) (r : Response) : reply :=
  match encodeResponse r with
  | Ok d => Written code "application/json" (CacheStore.Rendered d)
  | Err _ => Written code "application/json" (CacheStore.Raw EmptyString)
  end.

(** [cache.InvalidateByPrefix(ctx, "browse_alerts_", "/alerts", instance)] *)
Definition invalidateBrowse (env : Env) (w : World) : World :=
  let '(st, lg) :=
    CacheStore.InvalidateByPrefix (scan env) (delFails env) "browse_alerts_"
                                  "/alerts" instance (store w) (zlog w) in
  MkWorld (table w) st lg.

(** [BrowseAlertsHandler(w, r, instance)] *)
Definition BrowseAlertsHandler (env : Env) (r : Request) (w : World)
    : reply * World :=
  let cacheKey := generateCacheKey r "browse_alerts_" in
  let '((cached, err), st) :=
    CacheStore.GetCache (getFails env) (redisNow env) cacheKey "/alerts" instance
                        (store w) in
  let w := MkWorld (table w) st (zlog w) in
  if match err with None => negb (CacheStore.isEmpty cached) | Some _ => false end
  then
    (Written StatusOK "application/json" cached,
     logged (Zap.Entry Zap.InfoLevel "Cache hit for /alerts"
               [Zap.String "trace_id" (traceID env);
                Zap.String "cache_key" cacheKey]) w)
  else
    let w := logged (Zap.Entry Zap.InfoLevel
                       "Cache miss for /alerts, processing request"
                       [Zap.String "trace_id" (traceID env);
                        Zap.String "cache_key" cacheKey]) w in
    let userID := queryGet "user_id" (Query r) in
    let symbol := queryGet "symbol" (Query r) in
    let '(alerts, lg) :=
      if negb (String.eqb userID EmptyString)
      then Crud.GetAlertsByUserID (queryFault env) userID (table w) (zlog w)
      else if negb (String.eqb symbol EmptyString)
      then Crud.GetAlertsBySymbol (queryFault env) symbol (table w) (zlog w)
      else Crud.GetAllAlerts (queryFault env) (table w) (zlog w) in
    let w := MkWorld (table w) (store w) lg in
    match alerts with
    | Err dbErr =>
      (HttpError "Failed to fetch alerts" StatusInternalServerError,
       logged (Zap.Entry Zap.ErrorLevel "Failed to fetch alerts"
                 [Zap.String "trace_id" (traceID env); Zap.Error dbErr]) w)
    | Ok alerts =>
      let response := MkResponse "Alerts retrieved successfully" (ManyAlerts alerts) in
      match encodeResponse response with
      | Err e =>
        (HttpError "Failed to encode JSON response" StatusInternalServerError,
         logged (Zap.Entry Zap.ErrorLevel "Failed to encode JSON response"
                   [Zap.String "trace_id" (traceID env); Zap.Error e]) w)
      | Ok respBytes =>
        let '(cacheErr, st) :=
          CacheStore.SetCache (setFails env) (redisNow env) cacheKey
                              (CacheStore.Rendered respBytes) (30 * GoTime.Second)
                              "/alerts" instance (store w) in
        let w := MkWorld (table w) st (zlog w) in
        let w :=
          match cacheErr with
          | Some e =>
            logged (Zap.Entry Zap.WarnLevel "Failed to store response in cache"
                      [Zap.String "trace_id" (traceID env);
                       Zap.String "cache_key" cacheKey; Zap.Error e]) w
          | None => w
          end in
        (Written StatusOK "application/json" (CacheStore.Rendered respBytes), w)
      end
    end.

(** [CreateAlertHandler(w, r, instance)] *)
Definition CreateAlertHandler (env : Env) (r : Request) (w : World)
    : reply * World :=
  match JsonStruct.Unmarshal createFields createTag setCreateField (Body r)
                             zeroCreate with
  | (_, Some err) =>
    (HttpError "Invalid request body" StatusBadRequest,
     logged (Zap.Entry Zap.ErrorLevel "Failed to parse request body"
               [Zap.String "trace_id" (traceID env); Zap.Error err]) w)
  | (req, None) =>
    if String.eqb (CUserID req) EmptyString || String.eqb (CSymbol req) EmptyString
    then
      (HttpError "Missing required fields: user_id, symbol" StatusBadRequest,
       logged (Zap.Entry Zap.ErrorLevel "Missing required fields"
                 [Zap.String "trace_id" (traceID env)]) w)
    else
      match CUpperThreshold req, CLowerThreshold req with
      | None, None =>
        (HttpError "At least one threshold (upper or lower) must be specified"
                   StatusBadRequest,
         logged (Zap.Entry Zap.ErrorLevel "At least one threshold must be specified"
                   [Zap.String "trace_id" (traceID env)]) w)
      | _, _ =>
        let alert := MkAlert (uuid env) (CUserID req) (CSymbol req)
                             (CUpperThreshold req) (CLowerThreshold req)
                             (now env) (now env) in
        let '(err, tbl, lg) :=
          Crud.CreateAlert (execFails env) alert (table w) (zlog w) in
        let w := MkWorld tbl (store w) lg in
        match err with
        | Some f =>
          (HttpError "Failed to create alert" StatusInternalServerError,
           logged (Zap.Entry Zap.ErrorLevel "Failed to create alert"
                     [Zap.String "trace_id" (traceID env); zapFailure f]) w)
        | None =>
          (encodeTo StatusCreated (MkResponse "Alert created successfully"
                                              (OneAlert alert)),
           invalidateBrowse env w)
        end
      end
  end.

(** [GetAlertHandler(w, r, alertID, instance)] *)
Definition GetAlertHandler (env : Env) (r : Request) (alertID : string)
    (w : World) : reply * World :=
  let '(alert, lg) :=
    Crud.GetAlertByID (selectFails env) alertID (table w) (zlog w) in
  let w := MkWorld (table w) (store w) lg in
  match alert with
  | Crud.Failed f =>
    (HttpError "Alert not found" StatusNotFound,
     logged (Zap.Entry Zap.ErrorLevel "Failed to fetch alert"
               [Zap.String "trace_id" (traceID env);
                Zap.String "alert_id" alertID; zapFailure f]) w)
  | Crud.Got alert =>
    (encodeTo StatusOK (MkResponse "Alert retrieved successfully" (OneAlert alert)),
     w)
  end.

(** [UpdateAlertHandler(w, r, alertID, instance)] *)
Definition UpdateAlertHandler (env : Env) (r : Request) (alertID : string)
    (w : World) : reply * World :=
  let '(existing, lg) :=
    Crud.GetAlertByID (selectFails env) alertID (table w) (zlog w) in
  let w := MkWorld (table w) (store w) lg in
  match existing with
  | Crud.Failed f =>
    (HttpError "Alert not found" StatusNotFound,
     logged (Zap.Entry Zap.ErrorLevel "Failed to fetch alert for update"
               [Zap.String "trace_id" (traceID env);
                Zap.String "alert_id" alertID; zapFailure f]) w)
  | Crud.Got existingAlert =>
    match JsonStruct.Unmarshal updateFields updateTag setUpdateField (Body r)
                               zeroUpdate with
    | (_, Some err) =>
      (HttpError "Invalid request body" StatusBadRequest,
       logged (Zap.Entry Zap.ErrorLevel "Failed to parse request body"
                 [Zap.String "trace_id" (traceID env); Zap.Error err]) w)
    | (req, None) =>
      let symbol := if negb (String.eqb (USymbol req) EmptyString)
                    then USymbol req else Symbol existingAlert in
      let upper := match UUpperThreshold req with
                   | Some x => Some x
                   | None => UpperThreshold existingAlert
                   end in
      let lower := match ULowerThreshold req with
                   | Some x => Some x
                   | None => LowerThreshold existingAlert
                   end in
      match upper, lower with
      | None, None =>
        (HttpError "At least one threshold (upper or lower) must be specified"
                   StatusBadRequest,
         logged (Zap.Entry Zap.ErrorLevel "At least one threshold must be specified"
                   [Zap.String "trace_id" (traceID env)]) w)
      | _, _ =>
        let existingAlert :=
          MkAlert (ID existingAlert) (UserID existingAlert) symbol upper lower
                  (CreatedAt existingAlert) (now env) in
        let '(err, tbl, lg) :=
          Crud.UpdateAlert (execFails env) existingAlert (table w) (zlog w) in
        let w := MkWorld tbl (store w) lg in
        match err with
        | Some f =>
          (HttpError "Failed to update alert" StatusInternalServerError,
           logged (Zap.Entry Zap.ErrorLevel "Failed to update alert"
                     [Zap.String "trace_id" (traceID env);
                      Zap.String "alert_id" alertID; zapFailure f]) w)
        | None =>
          (encodeTo StatusOK (MkResponse "Alert updated successfully"
                                         (OneAlert existingAlert)),
           invalidateBrowse env w)
        end
      end
    end
  end.

(** [DeleteAlertHandler(w, r, alertID, instance)] *)
Definition DeleteAlertHandler (env : Env) (r : Request) (alertID : string)
    (w : World) : reply * World :=
  let '(err, tbl, lg) :=
    Crud.DeleteAlert (execFails env) (rowsAffectedFails env) alertID
                     (table w) (zlog w) in
  let w := MkWorld tbl (store w) lg in
  match err with
  | Some f =>
    (HttpError "Failed to delete alert" StatusInternalServerError,
     logged (Zap.Entry Zap.ErrorLevel "Failed to delete alert"
               [Zap.String "trace_id" (traceID env);
                Zap.String "alert_id" alertID; zapFailure f]) w)
  | None =>
    (encodeTo StatusOK (MkResponse "Alert deleted successfully" NoData),
     invalidateBrowse env w)
  end.

(** [AlertsHandler(w, r, instance)] *)
Definition AlertsHandler (env : Env) (r : Request) (w : World) : reply * World :=
  let pathParts := splitSlash (Path r) in
  if (length pathParts <=? 2)%nat
     || String.eqb (nth 2 pathParts EmptyString) EmptyString
  then
    if String.eqb (Method r) "GET" then BrowseAlertsHandler env r w
    else if String.eqb (Method r) "POST" then CreateAlertHandler env r w
    else (HttpError "Method not allowed" StatusMethodNotAllowed, w)
  else
    let alertID := nth 2 pathParts EmptyString in
    if String.eqb (Method r) "GET" then GetAlertHandler env r alertID w
    else if String.eqb (Method r) "PUT" || String.eqb (Method r) "PATCH"
    then UpdateAlertHandler env r alertID w
    else if String.eqb (Method r) "DELETE" then DeleteAlertHandler env r alertID w
    else (HttpError "Method not allowed" StatusMethodNotAllowed, w).

End Handlers.

End Api.

(* ===================================================================== *)
(** ** Words to state the properties of the alerts API with *)
(* ===================================================================== *)

Module ApiSpec.

Import Models Api.

(** A string without the byte "/". *)
Fixpoint slashFree (s : string) : bool :=
  match s with
  | EmptyString => true
  | String c r => negb (Ascii.eqb c "/") && slashFree r
  end.

(** What the API lets into the table: an alert with a user, a symbol and
    at least one threshold. *)
Definition wellFormed (a : Alert) : Prop :=
  UserID a <> EmptyString /\ Symbol a <> EmptyString
  /\ (is_Some (UpperThreshold a) \/ is_Some (LowerThreshold a)).

(** The alert [UpdateAlertHandler] writes for the stored alert [existing]
    and the decoded request [req] at the instant [t]. *)
Definition merged (existing : Alert) (req : UpdateAlertRequest) (t : Z) : Alert :=
  MkAlert (ID existing) (UserID existing)
          (if String.eqb (USymbol req) EmptyString then Symbol existing
           else USymbol req)
          (match UUpperThreshold req with
           | Some x => Some x
           | None => UpperThreshold existing
           end)
          (match ULowerThreshold req with
           | Some x => Some x
           | None => LowerThreshold existing
           end)
          (CreatedAt existing) t.

(** The rows a browse selects: by user when [user_id] is given, else by
    symbol when [symbol] is given, else all. *)
Definition selected (q : gmap string (list string)) (table : Crud.Table)
    : list Alert :=
  if negb (String.eqb (queryGet "user_id" q) EmptyString)
  then List.filter (fun a => String.eqb (UserID a) (queryGet "user_id" q)) table
  else if negb (String.eqb (queryGet "symbol" q) EmptyString)
  then List.filter (fun a => String.eqb (Symbol a) (queryGet "symbol" q)) table
  else table.



End ApiSpec.

(* ===================================================================== *)
(** ** Concrete runs *)
(* ===================================================================== *)

Module Scenarios.

Import Sse.

(** A clock that prints every instant the same way. *)
Definition plainFormat (t : Z) : string := "2024-05-01T10:00:00Z".

Definition btcBelow : AlertMessage :=
  MkAlertMessage "U1" "BTC-USD" 90000%float "below" "2024-05-01T10:00:00Z".

Definition btcPayload : Json.value :=
  Json.Object [ ("user_id", Json.Str "U1"); ("symbol", Json.Str "BTC-USD");
                ("threshold", Json.Number 90000%float);
                ("triggered", Json.Str "below");
                ("timestamp", Json.Str "2024-05-01T10:00:00Z") ].

(** One client connects and never reads; ten alerts fill its buffer. *)
Definition oneSaturated : list event :=
  Request true :: repeat (Received (Message (Some btcPayload))) 10.

(** Three connected sinks, the first with a full buffer. *)
Definition threeSinks : Server :=
  run plainFormat (oneSaturated ++ [Request true; Request true]) init.

(** The client's buffer is full at a heartbeat tick; the client then reads
    all ten alerts, and the ticker fires again. *)
Definition missedHeartbeat : Server :=
  run plainFormat (oneSaturated ++ [HeartbeatTick 0 15] ++ repeat (Serve 0) 10) init.

(** The cooldown scenario: the clock reads 0 s at the first tick (read
    for the alert's timestamp and for the entry), 10 s at the second tick
    and 31 s from the third tick on. *)
Definition specClock (n : nat) : Z :=
  match n with
  | 0%nat | 1%nat => 0
  | 2%nat => 10 * GoTime.Second
  | _ => 31 * GoTime.Second
  end.

Definition specEnv : Processor.Env :=
  Processor.MkEnv specClock plainFormat (fun _ => false).

Definition btcAlert : Models.Alert :=
  Models.MkAlert "1" "U1" "BTC-USD" None (Some 90000%float) 0 0.

Definition ethAlert : Models.Alert :=
  Models.MkAlert "2" "U1" "ETH-USD" (Some 4000%float) (Some 3000%float) 0 0.

Definition alertsDB : Database.DB := Database.MkDB [btcAlert; ethAlert] false.

Definition btcTick (price : float) : Processor.PriceUpdate :=
  Processor.MkPriceUpdate "coinbase" "BTC-USD" price "2024-05-01T10:00:00Z".

Definition ethTick : Processor.PriceUpdate :=
  Processor.MkPriceUpdate "coinbase" "ETH-USD" 4500%float "2024-05-01T10:00:00Z".

(** Two alerts of different users on different symbols with one key. *)
Definition abAlert : Models.Alert :=
  Models.MkAlert "3" "a_b" "c" None (Some 10%float) 0 0.

Definition aAlert : Models.Alert :=
  Models.MkAlert "4" "a" "b_c" None (Some 10%float) 0 0.

Definition cTick : Processor.PriceUpdate :=
  Processor.MkPriceUpdate "coinbase" "c" 5%float "2024-05-01T10:00:00Z".

Definition bcTick : Processor.PriceUpdate :=
  Processor.MkPriceUpdate "coinbase" "b_c" 5%float "2024-05-01T10:00:10Z".

(** An alert whose threshold cannot be marshalled. *)
Definition nanAlert : AlertMessage :=
  MkAlertMessage "U1" "BTC-USD" PrimFloat.nan "below" "2024-05-01T10:00:00Z".

Definition freshPublisher : Publisher := MkPublisher [] (Cache.MkRedis [] 0).

End Scenarios.

(* ===================================================================== *)
(** ** Further concrete runs *)
(* ===================================================================== *)

Module Examples.




(** The alerts API with a stand-in for SHA-256, one rendering for every
    instant, and an environment in which nothing fails and Redis holds no
    key to report. *)
Definition digest (s : string) : string := s.

Definition stamp (t : Z) : result Json.value :=
  Ok (Json.Str "2024-05-01T10:00:00Z").

Definition quiet : Api.Env :=
  Api.MkEnv "trace-1" 100 "id-1" 0 false false
            (CacheStore.MkIteration [] (CacheStore.LastPage [])) (fun _ => false)
            Crud.NoFault false false false.

Definition noCache : CacheStore.Store := CacheStore.MkStore ∅ ∅ ∅.

Definition emptyApi : Api.World := Api.MkWorld [] noCache [].

Definition post : Api.Request :=
  Api.MkRequest "POST" "/alerts" ∅
    (Some (Json.Object [ ("user_id", Json.Str "U1"); ("symbol", Json.Str "BTC-USD");
                         ("lower_threshold", Json.Number 90000%float) ])).

Definition stored : Models.Alert :=
  Models.MkAlert "id-1" "U1" "BTC-USD" None (Some 90000%float) 100 100.

Definition oneAlert : Api.World := Api.MkWorld [stored] noCache [].

Definition patch : Api.Request :=
  Api.MkRequest "PATCH" "/alerts/id-1" ∅
    (Some (Json.Object [ ("upper_threshold", Json.Number 99000%float) ])).

Definition browse : Api.Request := Api.MkRequest "GET" "/alerts" ∅ None.

End Examples.

(* ===================================================================== *)
(** * Properties *)
(* ===================================================================== *)

(** ** Strings, UTF-8 and the JSON round trip *)

Section Utf8Facts.

Import Utf8.

Lemma append_cons (c : ascii) (r s : string) :
  String c r +:+ s = String c (r +:+ s).
Proof. reflexivity. Qed.

Lemma append_empty_l (s : string) : EmptyString +:+ s = s.
Proof. reflexivity. Qed.

Lemma takeS_dropS (n : nat) (s : string) : takeS n s +:+ dropS n s = s.
Proof.
  revert s; induction n as [|n IH]; intros [|c r]; try reflexivity.
  cbn [takeS dropS]. rewrite append_cons, IH. reflexivity.
Qed.

Lemma dropS_length (n : nat) (s : string) :
  String.length (dropS n s) = (String.length s - n)%nat.
Proof.
  revert s; induction n as [|n IH]; intros [|c r]; cbn [dropS String.length];
    try reflexivity.
  apply IH.
Qed.

(** A decoded rune takes at least one byte and no more than there are. *)
Lemma runeLen_bounds (s : string) (n : nat) :
  runeLen s = Some n -> (1 <= n <= String.length s)%nat.
Proof.
  unfold runeLen.
  destruct s as [|c0 r0]; [discriminate|].
  destruct (first (N_of_ascii c0)) as [| |sz lo hi].
  - intros [= <-]. cbn. lia.
  - discriminate.
  - destruct r0 as [|c1 r1]; [discriminate|].
    destruct (negb (between lo hi c1)); [discriminate|].
    destruct (sz <=? 2)%nat; [intros [= <-]; cbn; lia|].
    destruct r1 as [|c2 r2]; [discriminate|].
    destruct (negb (cont c2)); [discriminate|].
    destruct (sz <=? 3)%nat; [intros [= <-]; cbn; lia|].
    destruct r2 as [|c3 r3]; [discriminate|].
    destruct (cont c3); [intros [= <-]; cbn; lia|discriminate].
Qed.

Lemma coerceLoop_valid (fuel : nat) :
  forall s, (String.length s <= fuel)%nat ->
            validLoop fuel s = true -> coerceLoop fuel s = s.
Proof.
  induction fuel as [|fuel IH]; intros s Hlen Hv.
  - destruct s; [reflexivity|cbn in Hlen; lia].
  - destruct s as [|c r]; [reflexivity|].
    cbn [validLoop coerceLoop] in *.
    destruct (runeLen (String c r)) as [n|] eqn:Hn; [|discriminate].
    apply runeLen_bounds in Hn as Hb.
    rewrite IH; [apply takeS_dropS| |exact Hv].
    rewrite dropS_length. cbn [String.length] in *. lia.
Qed.

(** A valid string goes through the JSON encoder unchanged. *)
Lemma ToValidUTF8_valid (s : string) :
  ValidString s = true -> ToValidUTF8 s = s.
Proof.
  unfold ValidString, ToValidUTF8. intros H.
  apply coerceLoop_valid; [lia|exact H].
Qed.

End Utf8Facts.

Section RoundTrip.

Import Sse.

Lemma Marshal_valid (a : AlertMessage) :
  PrimFloat.is_finite (Threshold a) = true ->
  validStrings a = true ->
  Marshal a =
  Ok (Json.Object
        [ ("user_id", Json.Str (UserID a)); ("symbol", Json.Str (Symbol a));
          ("threshold", Json.Number (Threshold a));
          ("triggered", Json.Str (Triggered a));
          ("timestamp", Json.Str (Timestamp a)) ]).
Proof.
  intros Hfin Hv. unfold validStrings in Hv.
  repeat (apply andb_prop in Hv as [Hv ?]).
  unfold Marshal, Json.encodeFloat, Json.encodeString. rewrite Hfin.
  rewrite !ToValidUTF8_valid by assumption. reflexivity.
Qed.

(** An object that names the five fields once each, with values of the
    right kinds, decodes to exactly those values. *)
Lemma Unmarshal_five (u s tr ts : string) (x : float) (a0 : AlertMessage) :
  Unmarshal
    (Some (Json.Object
             [ ("user_id", Json.Str u); ("symbol", Json.Str s);
               ("threshold", Json.Number x); ("triggered", Json.Str tr);
               ("timestamp", Json.Str ts) ])) a0
  = (MkAlertMessage (Utf8.ToValidUTF8 u) (Utf8.ToValidUTF8 s) x
                    (Utf8.ToValidUTF8 tr) (Utf8.ToValidUTF8 ts), None).
Proof. destruct a0. reflexivity. Qed.

(** C8, as amended: an alert whose threshold is finite and whose strings
    are valid UTF-8 is marshalled to a payload that unmarshals, into the
    zero value the subscriber starts from, to the same five fields. On
    the publish side [BroadcastAlert] hands that payload to Redis (when
    the call succeeds), and on the subscribe side one turn of
    [listenForAlerts] on that payload broadcasts the original alert. *)
Theorem roundtrip_valid_alert (a : AlertMessage) :
  PrimFloat.is_finite (Threshold a) = true ->
  validStrings a = true ->
  exists payload,
    Marshal a = Ok payload
    /\ Unmarshal (Some payload) zeroAlert = (a, None)
    /\ (forall fails p,
          fails (Cache.calls (redis p)) = false ->
          Cache.accepted (redis (snd (BroadcastAlert fails a p)))
          = Cache.accepted (redis p) ++ [(alertsChannel, payload)])
    /\ (forall s,
          listenForAlerts (Message (Some payload)) s
          = broadcastToClients a
              (logged (Zap.Entry Zap.InfoLevel "Received alert from Redis"
                         [Zap.String "symbol" (Symbol a);
                          Zap.String "triggered" (Triggered a)]) s)).
Proof.
  intros Hfin Hv. eexists. split; [apply Marshal_valid; assumption|].
  assert (Hu : Unmarshal
                 (Some (Json.Object
                    [ ("user_id", Json.Str (UserID a)); ("symbol", Json.Str (Symbol a));
                      ("threshold", Json.Number (Threshold a));
                      ("triggered", Json.Str (Triggered a));
                      ("timestamp", Json.Str (Timestamp a)) ])) zeroAlert
               = (a, None)).
  { rewrite Unmarshal_five. unfold validStrings in Hv.
    repeat (apply andb_prop in Hv as [Hv ?]).
    rewrite !ToValidUTF8_valid by assumption. destruct a; reflexivity. }
  split; [exact Hu|]. split.
  - intros fails p Hok. unfold BroadcastAlert.
    rewrite Marshal_valid by assumption.
    unfold Cache.PublishMessage. cbn [plogged redis]. rewrite Hok.
    reflexivity.
  - intros s. unfold listenForAlerts. rewrite Hu. reflexivity.
Qed.

(** A concrete alert for the round trip. *)
Lemma roundtrip_valid_alert_witness :
  exists payload,
    Marshal (MkAlertMessage "U1" "BTC-USD" 90000%float "below"
                            "2024-05-01T10:00:00Z") = Ok payload
    /\ Unmarshal (Some payload) zeroAlert
       = (MkAlertMessage "U1" "BTC-USD" 90000%float "below"
                         "2024-05-01T10:00:00Z", None).
Proof.
  destruct (roundtrip_valid_alert
              (MkAlertMessage "U1" "BTC-USD" 90000%float "below"
                              "2024-05-01T10:00:00Z"))
    as (payload & Hm & Hu & _); [reflexivity|reflexivity|].
  exists payload. split; assumption.
Defined.

(** C8 as stated fails: a user id that is not valid UTF-8 (the single
    byte 0xFF) is marshalled, and comes back as U+FFFD. *)
Lemma roundtrip_invalid_utf8 :
  exists payload back,
    Marshal (MkAlertMessage (String (ascii_of_N 255) EmptyString) "BTC-USD"
                            90000%float "below" "2024-05-01T10:00:00Z")
    = Ok payload
    /\ Unmarshal (Some payload) zeroAlert = (back, None)
    /\ UserID back = Utf8.replacement
    /\ UserID back <> String (ascii_of_N 255) EmptyString.
Proof.
  eexists. eexists. split; [reflexivity|]. split; [reflexivity|].
  split; [reflexivity|]. discriminate.
Qed.

End RoundTrip.

(** ** The broadcast *)

Section BroadcastFacts.

Import Sse.

Variable alert : AlertMessage.

Lemma sendTo_open_free (s : Server) (c : nat) (ch : Chan) :
  crashed s = false -> heap s !! c = Some ch -> closed ch = false ->
  isFull ch = false ->
  sendTo alert s c = withHeap (<[c := deliver alert ch]> (heap s)) s.
Proof.
  intros Hc Hh Ho Hf. unfold sendTo, trySend, deliver. rewrite Hc, Hh, Ho, Hf.
  unfold isFull in Hf. apply negb_false_iff in Hf. rewrite Hf. reflexivity.
Qed.

Lemma sendTo_open_full (s : Server) (c : nat) (ch : Chan) :
  crashed s = false -> heap s !! c = Some ch -> closed ch = false ->
  isFull ch = true ->
  sendTo alert s c = logged dropEntry s.
Proof.
  intros Hc Hh Ho Hf. unfold sendTo, trySend. rewrite Hc, Hh, Ho.
  unfold isFull in Hf. apply negb_true_iff in Hf. rewrite Hf. reflexivity.
Qed.

Lemma deliver_full (ch : Chan) : isFull ch = true -> deliver alert ch = ch.
Proof. unfold deliver. intros ->. reflexivity. Qed.

Lemma deliver_closed (ch : Chan) :
  closed ch = false -> closed (deliver alert ch) = false.
Proof. unfold deliver. destruct (isFull ch); auto. Qed.

(** The loop of the broadcast over open channels, each named once. *)
Lemma sendAll_spec (order : list nat) :
  forall s,
    NoDup order -> crashed s = false ->
    (forall c, c ∈ order -> exists ch, heap s !! c = Some ch /\ closed ch = false) ->
    let s' := sendAll alert order s in
    (forall c, heap s' !! c
               = if decide (c ∈ order) then deliver alert <$> heap s !! c
                 else heap s !! c)
    /\ zlog s' = zlog s ++ replicate
         (length (List.filter (fun c => match heap s !! c with
                                        | Some ch => isFull ch
                                        | None => true
                                        end) order)) dropEntry
    /\ nextChan s' = nextChan s /\ clients s' = clients s
    /\ heartbeats s' = heartbeats s /\ written s' = written s
    /\ crashed s' = false.
Proof.
  induction order as [|c order IH]; intros s Hnd Hcr Hopen; cbn zeta.
  - cbn. rewrite app_nil_r. repeat split; try reflexivity; assumption.
  - apply NoDup_cons in Hnd as [Hnotin Hnd].
    destruct (Hopen c) as (ch & Hh & Ho); [left|].
    unfold sendAll. cbn [fold_left]. fold (sendAll alert order (sendTo alert s c)).
    destruct (isFull ch) eqn:Hf.
    + rewrite (sendTo_open_full s c ch) by assumption.
      destruct (IH (logged dropEntry s)) as (H1 & H2 & H3 & H4 & H5 & H6 & H7);
        [assumption|exact Hcr|intros c' Hc'; apply Hopen; right; exact Hc'|].
      cbn [logged heap zlog nextChan clients heartbeats written crashed] in *.
      split; [|split; [|repeat split; assumption]].
      * intros c'. rewrite H1.
        destruct (decide (c' ∈ order)) as [Hin|Hin].
        -- rewrite decide_True by (right; exact Hin). reflexivity.
        -- destruct (decide (c' = c)) as [->|Hne].
           ++ rewrite decide_True by left. rewrite Hh. cbn.
              rewrite deliver_full by assumption. reflexivity.
           ++ rewrite decide_False; [reflexivity|].
              intros Hx. apply elem_of_cons in Hx as [?|?]; contradiction.
      * rewrite H2. cbn [List.filter]. rewrite Hh, Hf. cbn [length replicate].
        rewrite <- app_assoc. reflexivity.
    + rewrite (sendTo_open_free s c ch) by assumption.
      destruct (IH (withHeap (<[c := deliver alert ch]> (heap s)) s))
        as (H1 & H2 & H3 & H4 & H5 & H6 & H7);
        [assumption|exact Hcr| |].
      { intros c' Hc'. cbn [withHeap heap].
        rewrite lookup_insert_ne by (intros ->; contradiction).
        apply Hopen; right; exact Hc'. }
      cbn [withHeap heap zlog nextChan clients heartbeats written crashed] in *.
      split; [|split; [|repeat split; assumption]].
      * intros c'. rewrite H1.
        destruct (decide (c' ∈ order)) as [Hin|Hin].
        -- rewrite decide_True by (right; exact Hin).
           rewrite lookup_insert_ne by (intros ->; contradiction). reflexivity.
        -- destruct (decide (c' = c)) as [->|Hne].
           ++ rewrite decide_True by left. rewrite lookup_insert_eq, Hh. reflexivity.
           ++ rewrite lookup_insert_ne by congruence.
              rewrite decide_False; [reflexivity|].
              intros Hx. apply elem_of_cons in Hx as [?|?]; contradiction.
      * rewrite H2. cbn [List.filter]. rewrite Hh, Hf. f_equal. f_equal. f_equal.
        apply filter_ext_in_iff. intros c' Hc'.
        rewrite lookup_insert_ne; [reflexivity|].
        intros ->. apply Hnotin. apply list_elem_of_In. exact Hc'.
Qed.

Lemma Server_eq (s t : Server) :
  heap s = heap t -> nextChan s = nextChan t -> clients s = clients t ->
  heartbeats s = heartbeats t -> written s = written t -> zlog s = zlog t ->
  crashed s = crashed t -> s = t.
Proof. destruct s, t; cbn; intros; subst; reflexivity. Qed.

Lemma registered_elem (s : Server) (c : nat) :
  c ∈ registered s <-> is_Some (clients s !! c).
Proof.
  unfold registered. rewrite list_elem_of_fmap. split.
  - intros ([c' b] & -> & Hin). apply elem_of_map_to_list in Hin. eauto.
  - intros [b Hb]. exists (c, b). split; [reflexivity|].
    apply elem_of_map_to_list. exact Hb.
Qed.

Lemma registered_NoDup (s : Server) : NoDup (registered s).
Proof. apply NoDup_fst_map_to_list. Qed.

Lemma filter_length_Permutation {A} (f : A -> bool) (l1 l2 : list A) :
  l1 ≡ₚ l2 -> length (List.filter f l1) = length (List.filter f l2).
Proof.
  induction 1 as [|x l1 l2 _ IH|x y l|l1 l2 l3 _ IH1 _ IH2]; cbn.
  - reflexivity.
  - destruct (f x); cbn; congruence.
  - destruct (f x), (f y); reflexivity.
  - congruence.
Qed.

(** Go does not fix the order in which [range] visits a map: over open
    channels the loop of the broadcast ends in the same state whatever
    the order. *)
Lemma sendAll_order (l1 l2 : list nat) (s : Server) :
  l1 ≡ₚ l2 -> NoDup l1 -> crashed s = false ->
  (forall c, c ∈ l1 -> exists ch, heap s !! c = Some ch /\ closed ch = false) ->
  sendAll alert l1 s = sendAll alert l2 s.
Proof.
  intros Hp Hnd Hcr Hopen.
  destruct (sendAll_spec l1 s Hnd Hcr Hopen) as (A1 & A2 & A3 & A4 & A5 & A6 & A7).
  destruct (sendAll_spec l2 s) as (B1 & B2 & B3 & B4 & B5 & B6 & B7).
  { rewrite <- Hp. exact Hnd. }
  { exact Hcr. }
  { intros c Hc. apply Hopen. rewrite Hp. exact Hc. }
  apply Server_eq; try congruence.
  - apply map_eq. intros c. rewrite A1, B1.
    destruct (decide (c ∈ l1)) as [H1|H1].
    + rewrite decide_True by (rewrite <- Hp; exact H1). reflexivity.
    + rewrite decide_False by (rewrite <- Hp; exact H1). reflexivity.
  - rewrite A2, B2. f_equal. f_equal. apply filter_length_Permutation. exact Hp.
Qed.

Lemma filter_replicate_drop (n : nat) :
  List.filter isDrop (replicate n dropEntry) = replicate n dropEntry.
Proof. induction n as [|n IH]; cbn; [reflexivity|]. rewrite IH. reflexivity. Qed.

(** [broadcastToClients] on a live process whose registered channels are
    open. *)
Lemma broadcastToClients_spec (s : Server) :
  crashed s = false ->
  (forall c, is_Some (clients s !! c) ->
             exists ch, heap s !! c = Some ch /\ closed ch = false) ->
  let s' := broadcastToClients alert s in
  (forall c, heap s' !! c
             = if decide (is_Some (clients s !! c))
               then deliver alert <$> heap s !! c
               else heap s !! c)
  /\ dropCount s' = (dropCount s + length (fullSinks s))%nat
  /\ nextChan s' = nextChan s /\ clients s' = clients s
  /\ heartbeats s' = heartbeats s /\ written s' = written s
  /\ crashed s' = false.
Proof.
  intros Hcr Hopen. cbn zeta. unfold broadcastToClients.
  set (s0 := logged _ s).
  assert (Hreg : registered s0 = registered s) by reflexivity.
  cbn [s0 logged clients].
  destruct (size (clients s) =? 0)%nat eqn:Hsz.
  - apply Nat.eqb_eq in Hsz. apply map_size_empty_inv in Hsz.
    unfold dropCount, fullSinks, registered. rewrite Hsz.
    cbn [logged heap zlog nextChan clients heartbeats written crashed s0].
    rewrite map_to_list_empty. cbn.
    rewrite !List.filter_app. cbn. rewrite !app_nil_r, Nat.add_0_r.
    repeat split; try assumption; reflexivity.
  - destruct (sendAll_spec (registered s0) s0) as (A1 & A2 & A3 & A4 & A5 & A6 & A7).
    { apply registered_NoDup. }
    { exact Hcr. }
    { intros c Hc. apply Hopen. apply registered_elem. exact Hc. }
    rewrite Hreg in *.
    cbn [s0 logged heap zlog nextChan clients heartbeats written crashed] in *.
    repeat split; try assumption.
    + intros c. rewrite A1.
      destruct (decide (c ∈ registered s)) as [H1|H1].
      * rewrite decide_True by (apply registered_elem; exact H1). reflexivity.
      * rewrite decide_False by (rewrite <- registered_elem; exact H1). reflexivity.
    + unfold dropCount. rewrite A2. rewrite !List.filter_app.
      rewrite filter_replicate_drop. cbn [List.filter isDrop Zap.isWarn Zap.lvl].
      cbn. rewrite !length_app, length_replicate. cbn.
      unfold fullSinks. lia.
Qed.

End BroadcastFacts.

(** ** The invariant of the registry *)

Section RegistryInvariant.

Import Sse.

Lemma registry_ok_init : registry_ok init.
Proof.
  split.
  - intros c [b Hb]. cbn in Hb. rewrite lookup_empty in Hb. discriminate.
  - intros c [[b Hb]|[[b Hb]|Hb]]; cbn in Hb.
    + rewrite lookup_empty in Hb. discriminate.
    + rewrite lookup_empty in Hb. discriminate.
    + apply not_elem_of_empty in Hb. contradiction.
Qed.

Lemma registry_ok_logged (e : Zap.entry) (s : Server) :
  registry_ok s -> registry_ok (logged e s).
Proof. intros H. exact H. Qed.

Lemma registry_ok_panicked (s : Server) :
  registry_ok s -> registry_ok (panicked s).
Proof. intros H. exact H. Qed.

(** A change of the heap that keeps the channels there are, and keeps the
    open ones open. *)
Lemma registry_ok_withHeap (h : gmap nat Chan) (s : Server) :
  registry_ok s ->
  (forall c, is_Some (h !! c) <-> is_Some (heap s !! c)) ->
  (forall c ch, heap s !! c = Some ch -> closed ch = false ->
                exists ch', h !! c = Some ch' /\ closed ch' = false) ->
  registry_ok (withHeap h s).
Proof.
  intros [HA HB] Hdom Hopen. split; cbn [withHeap heap clients heartbeats nextChan].
  - intros c Hc. destruct (HA c Hc) as (ch & Hh & Ho). eauto.
  - intros c [Hc|[Hc|Hc]]; apply HB; [left|right; left; apply Hdom|right; right];
      assumption.
Qed.

Lemma registry_ok_withHeartbeats (hb : gset nat) (s : Server) :
  registry_ok s -> hb ⊆ heartbeats s -> registry_ok (withHeartbeats hb s).
Proof.
  intros [HA HB] Hsub. split; cbn [withHeartbeats heap clients heartbeats nextChan].
  - exact HA.
  - intros c [Hc|[Hc|Hc]]; apply HB; [left|right; left|right; right; apply Hsub];
      assumption.
Qed.

Lemma difference_subseteq (hb : gset nat) (c : nat) : hb ∖ {[c]} ⊆ hb.
Proof. intros x Hx. apply elem_of_difference in Hx as [Hx _]. exact Hx. Qed.

Lemma trySend_Sent (a : AlertMessage) (c : nat) (h h' : gmap nat Chan) :
  trySend a c h = Sent h' ->
  exists ch, h !! c = Some ch /\ closed ch = false /\ isFull ch = false
             /\ h' = <[c := MkChan (buf ch ++ [a]) false]> h.
Proof.
  unfold trySend, isFull. destruct (h !! c) as [ch|]; [|discriminate].
  destruct (closed ch) eqn:Ho; [discriminate|].
  destruct (length (buf ch) <? chanCap)%nat eqn:Hf; [|discriminate].
  intros [= <-]. exists ch. rewrite Hf. repeat split; auto.
Qed.

Lemma trySend_WouldBlock (a : AlertMessage) (c : nat) (h : gmap nat Chan) :
  trySend a c h = WouldBlock ->
  h !! c = None \/ exists ch, h !! c = Some ch /\ closed ch = false
                              /\ isFull ch = true.
Proof.
  unfold trySend, isFull. destruct (h !! c) as [ch|]; [|auto].
  destruct (closed ch) eqn:Ho; [discriminate|].
  destruct (length (buf ch) <? chanCap)%nat eqn:Hf; [discriminate|].
  intros _. right. exists ch. rewrite Hf. repeat split; auto.
Qed.

(** Replacing the buffer of a channel that is there, [closed] kept. *)
Lemma registry_ok_rebuffer (s : Server) (c : nat) (ch : Chan) (b : list AlertMessage) :
  registry_ok s -> heap s !! c = Some ch ->
  registry_ok (withHeap (<[c := MkChan b (closed ch)]> (heap s)) s).
Proof.
  intros Hok Hh. apply registry_ok_withHeap; [exact Hok| |].
  - intros c'. destruct (decide (c' = c)) as [->|Hne].
    + rewrite lookup_insert_eq, Hh. split; eauto.
    + rewrite lookup_insert_ne by congruence. reflexivity.
  - intros c' ch' Hh' Ho. destruct (decide (c' = c)) as [->|Hne].
    + rewrite lookup_insert_eq. rewrite Hh in Hh'. injection Hh' as ->.
      eexists; split; [reflexivity|exact Ho].
    + rewrite lookup_insert_ne by congruence. eauto.
Qed.

Lemma registry_ok_connect (s : Server) : registry_ok s -> registry_ok (connect s).
Proof.
  intros [HA HB]. unfold connect. apply registry_ok_logged.
  split; cbn [heap clients heartbeats nextChan].
  - intros c Hc. destruct (decide (c = nextChan s)) as [->|Hne].
    + rewrite lookup_insert_eq. eauto.
    + rewrite lookup_insert_ne in Hc by congruence.
      rewrite lookup_insert_ne by congruence. apply HA. exact Hc.
  - intros c Hc. destruct (decide (c = nextChan s)) as [->|Hne]; [lia|].
    rewrite !lookup_insert_ne in Hc by congruence.
    assert (c < nextChan s)%nat; [|lia].
    apply HB. destruct Hc as [Hc|[Hc|Hc]]; auto.
    right; right. apply elem_of_union in Hc as [Hc|Hc]; [|exact Hc].
    apply elem_of_singleton in Hc. congruence.
Qed.

Lemma registry_ok_disconnect (c : nat) (s : Server) :
  registry_ok s -> registry_ok (disconnect c s).
Proof.
  intros [HA HB]. unfold disconnect.
  assert (Hdel : registry_ok
            (MkServer (heap s) (nextChan s) (delete c (clients s))
                      (heartbeats s) (written s) (zlog s) (crashed s))).
  { split; cbn [heap clients heartbeats nextChan].
    - intros c' Hc'. apply HA. destruct (decide (c' = c)) as [->|Hne].
      + rewrite lookup_delete_eq in Hc'. destruct Hc'; discriminate.
      + rewrite lookup_delete_ne in Hc' by congruence. exact Hc'.
    - intros c' Hc'. apply HB. destruct Hc' as [Hc'|Hc']; [|auto].
      left. destruct (decide (c' = c)) as [->|Hne].
      + rewrite lookup_delete_eq in Hc'. destruct Hc'; discriminate.
      + rewrite lookup_delete_ne in Hc' by congruence. exact Hc'. }
  destruct (heap s !! c) as [ch|] eqn:Hh; [|exact Hdel].
  destruct (closed ch) eqn:Ho; [exact Hdel|].
  apply registry_ok_logged.
  destruct Hdel as [DA DB]. split; cbn [withHeap heap clients heartbeats nextChan] in *.
  - intros c' Hc'. destruct (decide (c' = c)) as [->|Hne].
    + rewrite lookup_delete_eq in Hc'. destruct Hc'; discriminate.
    + rewrite lookup_insert_ne by congruence. apply DA. exact Hc'.
  - intros c' Hc'. apply DB. destruct Hc' as [Hc'|[Hc'|Hc']]; auto.
    right; left. destruct (decide (c' = c)) as [->|Hne].
    + rewrite Hh. eauto.
    + rewrite lookup_insert_ne in Hc' by congruence. exact Hc'.
Qed.

Lemma registry_ok_deliver (a : AlertMessage) (s : Server) (c : nat) (ch : Chan) :
  registry_ok s -> heap s !! c = Some ch -> closed ch = false ->
  registry_ok (withHeap (<[c := MkChan (buf ch ++ [a]) false]> (heap s)) s).
Proof.
  intros Hok Hh Ho. rewrite <- Ho. apply registry_ok_rebuffer; assumption.
Qed.

Lemma registry_ok_heartbeat (fmt : Z -> string) (c : nat) (now : Z) (s : Server) :
  registry_ok s -> registry_ok (heartbeat fmt c now s).
Proof.
  intros Hok. unfold heartbeat. destruct (decide (c ∈ heartbeats s)); [|exact Hok].
  destruct (trySend _ c (heap s)) as [h| |] eqn:Hs.
  - apply trySend_Sent in Hs as (ch & Hh & Ho & _ & ->).
    apply registry_ok_deliver; assumption.
  - apply registry_ok_withHeartbeats; [exact Hok|apply difference_subseteq].
  - apply registry_ok_panicked. exact Hok.
Qed.

Lemma registry_ok_contextDone (c : nat) (s : Server) :
  registry_ok s -> registry_ok (contextDone c s).
Proof.
  intros Hok. apply registry_ok_withHeartbeats; [exact Hok|apply difference_subseteq].
Qed.

Lemma registry_ok_serve (c : nat) (s : Server) :
  registry_ok s -> registry_ok (serve c s).
Proof.
  intros Hok. unfold serve.
  destruct (heap s !! c) as [[[|a rest] cl]|] eqn:Hh; try exact Hok.
  pose proof (registry_ok_rebuffer s c (MkChan (a :: rest) cl) rest Hok Hh) as H.
  cbn [closed] in H.
  destruct (Marshal a); [|apply registry_ok_logged; exact H].
  exact H.
Qed.

Lemma registry_ok_broadcast (a : AlertMessage) (s : Server) :
  crashed s = false -> registry_ok s -> registry_ok (broadcastToClients a s).
Proof.
  intros Hcr [HA HB].
  destruct (broadcastToClients_spec a s Hcr HA) as (B1 & _ & B3 & B4 & B5 & _ & _).
  split.
  - intros c Hc. rewrite B4 in Hc. rewrite B1, decide_True by exact Hc.
    destruct (HA c Hc) as (ch & Hh & Ho). rewrite Hh. cbn.
    eexists; split; [reflexivity|]. apply deliver_closed. exact Ho.
  - intros c Hc. rewrite B3. apply HB. rewrite B4, B5 in Hc.
    destruct Hc as [Hc|[Hc|Hc]]; auto.
    right; left. rewrite B1 in Hc.
    destruct (decide (is_Some (clients s !! c))); [|exact Hc].
    destruct (heap s !! c); [eauto|]. destruct Hc; discriminate.
Qed.

Lemma registry_ok_listen (r : received) (s : Server) :
  crashed s = false -> registry_ok s -> registry_ok (listenForAlerts r s).
Proof.
  intros Hcr Hok. unfold listenForAlerts. destruct r as [e|payload].
  - apply registry_ok_logged. exact Hok.
  - destruct (Unmarshal payload zeroAlert) as [a [e|]].
    + apply registry_ok_logged. exact Hok.
    + apply registry_ok_broadcast; [exact Hcr|]. apply registry_ok_logged. exact Hok.
Qed.

Variable RFC3339 : Z -> string.

Lemma registry_ok_step (s : Server) (e : event) :
  registry_ok s -> registry_ok (step RFC3339 s e).
Proof.
  intros Hok. unfold step. destruct (crashed s) eqn:Hcr; [exact Hok|].
  destruct e as [[|]|c|c now|c|c|r]; cbn [StreamAlertsHandler].
  - apply registry_ok_connect; exact Hok.
  - exact Hok.
  - apply registry_ok_disconnect; exact Hok.
  - apply registry_ok_heartbeat; exact Hok.
  - apply registry_ok_contextDone; exact Hok.
  - apply registry_ok_serve; exact Hok.
  - apply registry_ok_listen; assumption.
Qed.

Lemma registry_ok_run (es : list event) :
  forall s, registry_ok s -> registry_ok (run RFC3339 es s).
Proof.
  induction es as [|e es IH]; intros s Hok; [exact Hok|].
  cbn. apply IH. apply registry_ok_step. exact Hok.
Qed.

Lemma reachable_registry_ok (s : Server) :
  reachable RFC3339 s -> registry_ok s.
Proof. intros [es ->]. apply registry_ok_run. apply registry_ok_init. Qed.

End RegistryInvariant.

Section FanoutClaims.

Import Sse.

Variable RFC3339 : Z -> string.

(** C4: a broadcast on a live, reachable server queues the alert on every
    registered sink with room, leaves every full sink as it is and logs one
    drop for each; a sink's outcome depends on its own buffer only, the
    registry is unchanged, and the order in which the map is ranged over
    makes no difference. *)
Theorem broadcast_delivers_or_drops (s : Server) (alert : AlertMessage) :
  reachable RFC3339 s -> crashed s = false ->
  (forall c, is_Some (clients s !! c) ->
     exists ch, heap s !! c = Some ch /\ closed ch = false
       /\ heap (broadcastToClients alert s) !! c
          = Some (if isFull ch then ch else MkChan (buf ch ++ [alert]) false))
  /\ (forall c, clients s !! c = None ->
        heap (broadcastToClients alert s) !! c = heap s !! c)
  /\ dropCount (broadcastToClients alert s)
     = (dropCount s + length (fullSinks s))%nat
  /\ clients (broadcastToClients alert s) = clients s
  /\ crashed (broadcastToClients alert s) = false
  /\ (forall order s0, order ≡ₚ registered s ->
        s0 = logged (Zap.Entry Zap.InfoLevel "Broadcasting alert to clients"
                       [Zap.Int "client_count" (Z.of_nat (size (clients s)));
                        Zap.String "symbol" (Symbol alert)]) s ->
        sendAll alert order s0 = sendAll alert (registered s) s0).
Proof.
  intros Hr Hcr. apply reachable_registry_ok in Hr as [HA HB].
  destruct (broadcastToClients_spec alert s Hcr HA) as (B1 & B2 & _ & B4 & _ & _ & B7).
  split; [|split; [|split; [|split; [|split]]]]; try assumption.
  - intros c Hc. destruct (HA c Hc) as (ch & Hh & Ho). exists ch.
    split; [exact Hh|]. split; [exact Ho|].
    rewrite B1, decide_True by exact Hc. rewrite Hh. reflexivity.
  - intros c Hc. rewrite B1, decide_False; [reflexivity|].
    rewrite Hc. intros [? ?]; discriminate.
  - intros order s0 Hp ->. symmetry. apply sendAll_order.
    + symmetry. exact Hp.
    + apply registered_NoDup.
    + exact Hcr.
    + intros c Hc. apply HA. apply registered_elem. exact Hc.
Qed.

End FanoutClaims.

(** The scenario of C4: of three connected sinks the first is full; one
    broadcast reaches the other two and records exactly one drop. *)
Lemma broadcast_three_sinks :
  Sse.reachable Scenarios.plainFormat Scenarios.threeSinks
  /\ Sse.registered Scenarios.threeSinks = [2; 1; 0]%nat
  /\ Sse.heap (Sse.broadcastToClients Scenarios.btcBelow Scenarios.threeSinks) !! 1%nat
     = Some (Sse.MkChan [Scenarios.btcBelow] false)
  /\ Sse.heap (Sse.broadcastToClients Scenarios.btcBelow Scenarios.threeSinks) !! 2%nat
     = Some (Sse.MkChan [Scenarios.btcBelow] false)
  /\ Sse.heap (Sse.broadcastToClients Scenarios.btcBelow Scenarios.threeSinks) !! 0%nat
     = Sse.heap Scenarios.threeSinks !! 0%nat
  /\ Sse.dropCount (Sse.broadcastToClients Scenarios.btcBelow Scenarios.threeSinks)
     = (Sse.dropCount Scenarios.threeSinks + 1)%nat.
Proof.
  assert (Hr : Sse.reachable Scenarios.plainFormat Scenarios.threeSinks)
    by (eexists; reflexivity).
  destruct (broadcast_delivers_or_drops Scenarios.plainFormat Scenarios.threeSinks
              Scenarios.btcBelow Hr eq_refl) as (H1 & _ & H3 & _).
  split; [exact Hr|]. split; [vm_compute; reflexivity|].
  destruct (H1 1%nat) as (ch1 & E1 & _ & D1); [vm_compute; eauto|].
  destruct (H1 2%nat) as (ch2 & E2 & _ & D2); [vm_compute; eauto|].
  destruct (H1 0%nat) as (ch0 & E0 & _ & D0); [vm_compute; eauto|].
  vm_compute in E1. injection E1 as <-.
  vm_compute in E2. injection E2 as <-.
  split; [exact D1|]. split; [exact D2|]. split.
  - rewrite D0. assert (E0' := E0). vm_compute in E0'. injection E0' as <-.
    rewrite E0. reflexivity.
  - rewrite H3. reflexivity.
Defined.

(** ** Heartbeats *)

Section HeartbeatFacts.

Import Sse.

Lemma sendTo_frame (a : AlertMessage) (s : Server) (c : nat) :
  nextChan (sendTo a s c) = nextChan s
  /\ heartbeats (sendTo a s c) = heartbeats s.
Proof.
  unfold sendTo. destruct (crashed s); [auto|].
  destruct (trySend a c (heap s)); auto.
Qed.

Lemma sendAll_frame (a : AlertMessage) (order : list nat) :
  forall s, nextChan (sendAll a order s) = nextChan s
            /\ heartbeats (sendAll a order s) = heartbeats s.
Proof.
  induction order as [|c order IH]; intros s; [auto|].
  unfold sendAll. cbn [fold_left]. fold (sendAll a order (sendTo a s c)).
  destruct (IH (sendTo a s c)) as [-> ->]. apply sendTo_frame.
Qed.

Lemma broadcastToClients_frame (a : AlertMessage) (s : Server) :
  nextChan (broadcastToClients a s) = nextChan s
  /\ heartbeats (broadcastToClients a s) = heartbeats s.
Proof.
  unfold broadcastToClients. cbn [logged clients].
  destruct (size (clients s) =? 0)%nat; [auto|].
  destruct (sendAll_frame a (registered (logged
     (Zap.Entry Zap.InfoLevel "Broadcasting alert to clients"
        [Zap.Int "client_count" (Z.of_nat (size (clients s)));
         Zap.String "symbol" (Symbol a)]) s)) (logged
     (Zap.Entry Zap.InfoLevel "Broadcasting alert to clients"
        [Zap.Int "client_count" (Z.of_nat (size (clients s)));
         Zap.String "symbol" (Symbol a)]) s)) as [-> ->].
  auto.
Qed.

Variable RFC3339 : Z -> string.

(** A heartbeat goroutine that has returned is not started again: the
    only goroutine a later step starts belongs to a fresh channel. *)
Lemma step_heartbeat_gone (c : nat) (s : Server) (e : event) :
  (c < nextChan s)%nat -> c ∉ heartbeats s ->
  (c < nextChan (step RFC3339 s e))%nat /\ c ∉ heartbeats (step RFC3339 s e).
Proof.
  intros Hlt Hnot. unfold step. destruct (crashed s); [auto|].
  destruct e as [[|]|c'|c' now|c'|c'|r]; cbn [StreamAlertsHandler]; auto.
  - unfold connect. cbn [logged nextChan heartbeats]. split; [lia|].
    intros Hin. apply elem_of_union in Hin as [Hin|Hin]; [|contradiction].
    apply elem_of_singleton in Hin. lia.
  - unfold disconnect. destruct (heap s !! c') as [ch|]; [|auto].
    destruct (closed ch); auto.
  - unfold heartbeat. destruct (decide (c' ∈ heartbeats s)); [|auto].
    destruct (trySend _ c' (heap s)); cbn; auto.
    split; [exact Hlt|]. intros Hin. apply elem_of_difference in Hin as [Hin _].
    contradiction.
  - cbn. split; [exact Hlt|]. intros Hin.
    apply elem_of_difference in Hin as [Hin _]. contradiction.
  - unfold serve. destruct (heap s !! c') as [[[|a rest] cl]|]; auto.
    destruct (Marshal a); auto.
  - unfold listenForAlerts. destruct r as [e|payload]; [auto|].
    destruct (Unmarshal payload zeroAlert) as [a [e|]]; [auto|].
    destruct (broadcastToClients_frame a (logged
      (Zap.Entry Zap.InfoLevel "Received alert from Redis"
         [Zap.String "symbol" (Symbol a); Zap.String "triggered" (Triggered a)]) s))
      as [-> ->]. auto.
Qed.

Lemma run_heartbeat_gone (c : nat) (es : list event) :
  forall s, (c < nextChan s)%nat -> c ∉ heartbeats s ->
            c ∉ heartbeats (run RFC3339 es s).
Proof.
  induction es as [|e es IH]; intros s Hlt Hnot; [exact Hnot|].
  cbn. destruct (step_heartbeat_gone c s e Hlt Hnot) as [H1 H2].
  apply IH; assumption.
Qed.

(** C5, as amended: when a heartbeat tick finds the buffer full, nothing
    is queued and nothing is logged, the connection stays registered and
    the process runs on; the heartbeat goroutine of that connection returns,
    so that whatever happens next, no later tick of that connection sends
    anything. *)
Theorem heartbeat_full_buffer (s : Server) (c : nat) (now : Z) (ch : Chan) :
  reachable RFC3339 s -> crashed s = false ->
  c ∈ heartbeats s ->
  heap s !! c = Some ch -> closed ch = false -> isFull ch = true ->
  heap (heartbeat RFC3339 c now s) = heap s
  /\ clients (heartbeat RFC3339 c now s) = clients s
  /\ zlog (heartbeat RFC3339 c now s) = zlog s
  /\ crashed (heartbeat RFC3339 c now s) = false
  /\ heartbeats (heartbeat RFC3339 c now s) = heartbeats s ∖ {[c]}
  /\ (forall es now',
        heartbeat RFC3339 c now' (run RFC3339 es (heartbeat RFC3339 c now s))
        = run RFC3339 es (heartbeat RFC3339 c now s)).
Proof.
  intros Hr Hcr Hin Hh Ho Hf.
  apply reachable_registry_ok in Hr as [_ HB].
  assert (Hhb : heartbeat RFC3339 c now s
                = withHeartbeats (heartbeats s ∖ {[c]}) s).
  { unfold heartbeat, trySend. rewrite decide_True by exact Hin.
    rewrite Hh, Ho. unfold isFull in Hf. apply negb_true_iff in Hf.
    rewrite Hf. reflexivity. }
  rewrite Hhb. cbn [withHeartbeats heap clients zlog crashed heartbeats].
  repeat split; try assumption; try reflexivity.
  intros es now'.
  assert (Hgone : c ∉ heartbeats (run RFC3339 es
                    (withHeartbeats (heartbeats s ∖ {[c]}) s))).
  { apply run_heartbeat_gone.
    - cbn. apply HB. right; right. exact Hin.
    - cbn. intros Hx. apply elem_of_difference in Hx as [_ Hx].
      apply Hx. apply elem_of_singleton. reflexivity. }
  unfold heartbeat at 1. rewrite decide_False by exact Hgone. reflexivity.
Qed.

End HeartbeatFacts.

(** A saturated client, for C5: its buffer holds ten alerts when the
    heartbeat ticker fires. *)
Lemma heartbeat_full_buffer_witness :
  Sse.heap (Sse.heartbeat Scenarios.plainFormat 0 15
              (Sse.run Scenarios.plainFormat Scenarios.oneSaturated Sse.init))
  = Sse.heap (Sse.run Scenarios.plainFormat Scenarios.oneSaturated Sse.init)
  /\ Sse.heartbeats (Sse.heartbeat Scenarios.plainFormat 0 15
              (Sse.run Scenarios.plainFormat Scenarios.oneSaturated Sse.init))
     = ({[0%nat]} : gset nat) ∖ {[0%nat]}.
Proof.
  destruct (heartbeat_full_buffer Scenarios.plainFormat
              (Sse.run Scenarios.plainFormat Scenarios.oneSaturated Sse.init)
              0%nat 15 (Sse.MkChan (repeat Scenarios.btcBelow 10) false))
    as (H1 & _ & _ & _ & H5 & _).
  - eexists; reflexivity.
  - reflexivity.
  - vm_compute. reflexivity.
  - vm_compute. reflexivity.
  - reflexivity.
  - reflexivity.
  - split; [exact H1|]. rewrite H5. reflexivity.
Defined.

(** C5 as stated fails: after one heartbeat met a full buffer, the client
    read its ten alerts; the buffer is empty and the client is still
    registered, yet the next tick of the ticker queues no heartbeat. *)
Lemma heartbeat_not_attempted_again :
  Sse.heap Scenarios.missedHeartbeat !! 0%nat = Some (Sse.MkChan [] false)
  /\ Sse.clients Scenarios.missedHeartbeat !! 0%nat = Some true
  /\ Sse.crashed Scenarios.missedHeartbeat = false
  /\ Sse.heap (Sse.heartbeat Scenarios.plainFormat 0 30 Scenarios.missedHeartbeat)
       !! 0%nat = Some (Sse.MkChan [] false).
Proof. vm_compute. repeat split; reflexivity. Qed.

(** ** The connected count, and what a heartbeat looks like on the wire *)

Section RegistryCount.

Import Sse.

Lemma connect_fields (s : Server) :
  nextChan (connect s) = S (nextChan s)
  /\ clients (connect s) = <[nextChan s := true]> (clients s).
Proof. split; reflexivity. Qed.

Lemma disconnect_fields (c : nat) (s : Server) :
  nextChan (disconnect c s) = nextChan s
  /\ clients (disconnect c s) = delete c (clients s).
Proof.
  unfold disconnect. destruct (heap s !! c) as [ch|]; [|split; reflexivity].
  destruct (closed ch); split; reflexivity.
Qed.

(** The registry after a sequence of operations started in [s]: the sinks
    registered are those of [s] and those the sequence connects, less the
    ones it disconnects. *)
Lemma applyOps_registered (ops : list registryOp) :
  forall s,
    previouslyConnected (nextChan s) ops ->
    (forall k, is_Some (clients s !! k) -> (k < nextChan s)%nat) ->
    nextChan (fold_left applyOp ops s) = (nextChan s + connects ops)%nat
    /\ forall k,
         is_Some (clients (fold_left applyOp ops s) !! k)
         <-> (is_Some (clients s !! k)
              \/ (nextChan s <= k < nextChan s + connects ops)%nat)
             /\ existsb (names k) ops = false.
Proof.
  induction ops as [|[|c] ops IH]; intros s Hprev Hlt.
  - cbn. split; [lia|]. intros k. split; [intros Hk; split; auto|].
    intros [[Hk|Hk] _]; [exact Hk|lia].
  - cbn [fold_left applyOp StreamAlertsHandler].
    destruct (connect_fields s) as [Hn Hc].
    destruct (IH (connect s)) as [IH1 IH2].
    + rewrite Hn. exact Hprev.
    + intros k Hk. rewrite Hn. rewrite Hc in Hk.
      destruct (decide (k = nextChan s)) as [->|Hne]; [lia|].
      rewrite lookup_insert_ne in Hk by congruence. apply Hlt in Hk. lia.
    + unfold connects in *. cbn [List.filter isConnect length].
      rewrite Hn in IH1, IH2. split; [lia|].
      intros k. rewrite IH2, Hc. cbn [existsb names orb].
      destruct (decide (k = nextChan s)) as [->|Hne].
      * rewrite lookup_insert_eq. split; intros [_ He]; (split; [|exact He]).
        -- right. lia.
        -- left. eauto.
      * rewrite lookup_insert_ne by congruence.
        split; intros [[Hk|Hk] He]; (split; [|exact He]); auto; right; lia.
  - cbn [fold_left applyOp]. destruct Hprev as [Hc Hprev].
    destruct (disconnect_fields c s) as [Hn Hcl].
    destruct (IH (disconnect c s)) as [IH1 IH2].
    + rewrite Hn. exact Hprev.
    + intros k Hk. rewrite Hn. rewrite Hcl in Hk.
      destruct (decide (k = c)) as [->|Hne]; [exact Hc|].
      rewrite lookup_delete_ne in Hk by congruence. apply Hlt. exact Hk.
    + unfold connects in *. cbn [List.filter isConnect length].
      rewrite Hn in IH1, IH2. split; [exact IH1|].
      intros k. rewrite IH2, Hcl. cbn [existsb names].
      destruct (decide (k = c)) as [->|Hne].
      * rewrite lookup_delete_eq, Nat.eqb_refl. cbn [orb].
        split; [|intros [_ ?]; discriminate].
        intros [[[? ?]|?] _]; [discriminate|lia].
      * rewrite lookup_delete_ne by congruence.
        apply Nat.eqb_neq in Hne. rewrite Hne. cbn [orb]. reflexivity.
Qed.

(** The size of a map whose keys are the members of a duplicate-free
    list. *)
Lemma size_keys {A} (m : gmap nat A) (l : list nat) :
  NoDup l -> (forall k, k ∈ l <-> is_Some (m !! k)) -> size m = length l.
Proof.
  intros Hnd Hl. rewrite <- length_map_to_list.
  rewrite <- (length_fmap fst (map_to_list m)).
  apply Permutation_length. apply NoDup_Permutation.
  - apply NoDup_fst_map_to_list.
  - exact Hnd.
  - intros k. rewrite Hl. rewrite list_elem_of_fmap. split.
    + intros ([k' a] & -> & Hin). apply elem_of_map_to_list in Hin. eauto.
    + intros [a Ha]. exists (k, a). split; [reflexivity|].
      apply elem_of_map_to_list. exact Ha.
Qed.

(** The sinks a sequence disconnects, in order. *)
Lemma previouslyConnected_bound (ops : list registryOp) :
  forall made c,
    previouslyConnected made ops -> existsb (names c) ops = true ->
    (c < made + connects ops)%nat.
Proof.
  induction ops as [|[|c'] ops IH]; intros made c Hprev Hex; cbn in *.
  - discriminate.
  - unfold connects. cbn. specialize (IH (S made) c Hprev Hex).
    unfold connects in IH. lia.
  - destruct Hprev as [Hc Hprev]. unfold connects in *. cbn.
    destruct (c =? c')%nat eqn:E.
    + apply Nat.eqb_eq in E. subst. lia.
    + cbn in Hex. apply IH; assumption.
Qed.

Lemma names_disconnected (k : nat) (ops : list registryOp) :
  existsb (names k) ops = true <-> k ∈ disconnected ops.
Proof.
  induction ops as [|[|c] ops IH]; cbn.
  - split; [discriminate|]. intros H. apply elem_of_nil in H. contradiction.
  - exact IH.
  - rewrite orb_true_iff, elem_of_cons, Nat.eqb_eq, IH. reflexivity.
Qed.

Lemma disconnected_length (ops : list registryOp) :
  length (disconnected ops) = disconnects ops.
Proof.
  unfold disconnects. induction ops as [|[|c] ops IH]; cbn; [reflexivity|exact IH|].
  rewrite IH. reflexivity.
Qed.

(** C9: after every sequence of [Connect] and [Disconnect] operations in
    which each [Disconnect] names a sink connected before it, the count the
    registry shows is the number of [Connect] calls that no [Disconnect] has
    matched; when no sink is disconnected twice (each handler unwinds once),
    that is the number of [Connect] calls less the number of [Disconnect]
    calls. *)
Theorem connected_count_unmatched (ops : list registryOp) :
  previouslyConnected 0 ops ->
  clientCount (applyOps ops) = unmatched ops
  /\ (NoDup (disconnected ops) ->
      clientCount (applyOps ops) = (connects ops - disconnects ops)%nat).
Proof.
  intros Hprev.
  assert (Hcount : clientCount (applyOps ops) = unmatched ops).
  { unfold clientCount, applyOps, unmatched.
    destruct (applyOps_registered ops init) as [_ H2].
    - exact Hprev.
    - intros k [b Hb]. cbn in Hb. rewrite lookup_empty in Hb. discriminate.
    - apply size_keys.
      + apply NoDup_ListNoDup, List.NoDup_filter, NoDup_ListNoDup, NoDup_seq.
      + intros k. rewrite H2. rewrite list_elem_of_In, List.filter_In, in_seq.
        cbn [init clients nextChan]. rewrite lookup_empty, negb_true_iff.
        split.
        * intros [Hk He]. split; [right; lia|exact He].
        * intros [[[? ?]|Hk] He]; [discriminate|]. split; [lia|exact He]. }
  split; [exact Hcount|].
  intros Hnd. rewrite Hcount. unfold unmatched.
  pose proof (List.filter_length (fun k => existsb (names k) ops)
                (seq 0 (connects ops))) as Hlen.
  rewrite length_seq in Hlen.
  assert (Hd : length (List.filter (fun k => existsb (names k) ops)
                         (seq 0 (connects ops))) = disconnects ops).
  { rewrite <- disconnected_length. apply Permutation_length.
    apply NoDup_Permutation.
    - apply NoDup_ListNoDup, List.NoDup_filter, NoDup_ListNoDup, NoDup_seq.
    - exact Hnd.
    - intros k. rewrite list_elem_of_In, List.filter_In, in_seq.
      rewrite names_disconnected. split; [intros [_ H]; exact H|].
      intros Hk. split; [|exact Hk].
      apply names_disconnected in Hk.
      pose proof (previouslyConnected_bound ops 0 k Hprev Hk). lia. }
  lia.
Qed.

End RegistryCount.

(** Five operations, the last a second [Disconnect] of sink 0: two of the
    three connected sinks remain. *)
Lemma connected_count_unmatched_witness :
  Sse.clientCount
    (Sse.applyOps [Sse.Connect; Sse.Connect; Sse.Disconnect 0; Sse.Connect;
                   Sse.Disconnect 0]) = 2%nat.
Proof.
  destruct (connected_count_unmatched
              [Sse.Connect; Sse.Connect; Sse.Disconnect 0; Sse.Connect;
               Sse.Disconnect 0]) as [H _].
  - cbn. repeat split; lia.
  - rewrite H. reflexivity.
Defined.

Section HeartbeatPayload.

Import Sse.

Variable RFC3339 : Z -> string.

(** C7 on the code: the heartbeat has empty alert fields, and it is
    written to the client with all five members, which the frontend's
    test for a heartbeat (one key, [timestamp]) rejects. *)
Theorem heartbeat_written_with_five_members (now : Z) :
  UserID (heartbeatMessage RFC3339 now) = EmptyString
  /\ Symbol (heartbeatMessage RFC3339 now) = EmptyString
  /\ Threshold (heartbeatMessage RFC3339 now) = PrimFloat.zero
  /\ Triggered (heartbeatMessage RFC3339 now) = EmptyString
  /\ Marshal (heartbeatMessage RFC3339 now)
     = Ok (Json.Object
             [ ("user_id", Json.Str EmptyString); ("symbol", Json.Str EmptyString);
               ("threshold", Json.Number PrimFloat.zero);
               ("triggered", Json.Str EmptyString);
               ("timestamp", Json.Str (Utf8.ToValidUTF8 (RFC3339 now))) ])
  /\ (forall doc, Marshal (heartbeatMessage RFC3339 now) = Ok doc ->
                  frontendIsHeartbeat doc = false).
Proof.
  repeat split; try reflexivity.
  intros doc [= <-]. reflexivity.
Qed.

End HeartbeatPayload.

(** ** The evaluation of one alert *)

Section ProcessorFacts.

Import Processor.

Variable env : Env.

Lemma bind_run {A B} (m : M A) (k : A -> M B) (w : World) :
  bind m k w = k (fst (m w)) (snd (m w)).
Proof. unfold bind. destruct (m w). reflexivity. Qed.

(** The saturation of [time.Since] cannot be seen through the comparison
    with the cooldown. *)
Lemma Since_cooldown (t lastTime : Z) :
  (GoTime.Since t lastTime <? cooldown) = (t - lastTime <? cooldown).
Proof.
  unfold GoTime.Since, GoTime.Sub.
  assert (Hmin : GoTime.minDuration = -9223372036854775808) by reflexivity.
  assert (Hmax : GoTime.maxDuration = 9223372036854775807) by reflexivity.
  assert (Hc : cooldown = 30000000000) by reflexivity.
  rewrite Hmin, Hmax, Hc.
  destruct (Z.ltb_spec (t - lastTime) (-9223372036854775808));
    destruct (Z.ltb_spec 9223372036854775807 (t - lastTime));
    destruct (Z.ltb_spec (t - lastTime) 30000000000); try lia; try reflexivity;
    symmetry; apply Z.ltb_ge; lia.
Qed.

Lemma sendSSEAlert_run (userID symbol : string) (threshold : float)
    (triggered : string) (w : World) :
  sendSSEAlert env userID symbol threshold triggered w
  = (tt, MkWorld (lastAlertTime w) (S (clockReads w))
           (console w ++ [Triggering
              (Sse.MkAlertMessage userID symbol threshold triggered
                 (RFC3339 env (clock env (clockReads w))))])
           (snd (Sse.BroadcastAlert (publishFails env)
                   (Sse.MkAlertMessage userID symbol threshold triggered
                      (RFC3339 env (clock env (clockReads w)))) (pub w)))).
Proof.
  unfold sendSSEAlert, bind, now, print, BroadcastAlert. cbn.
  destruct (Sse.BroadcastAlert _ _ _) as [[] p]. reflexivity.
Qed.

Lemma cooldownActive_run (key : string) (w : World) :
  cooldownActive env key w
  = match lastAlertTime w !! key with
    | Some lastTime =>
      (clock env (clockReads w) - lastTime <? cooldown, afterRead w)
    | None => (false, w)
    end.
Proof.
  unfold cooldownActive, bind, lookupLast, now, ret.
  destruct (lastAlertTime w !! key); [|reflexivity].
  rewrite Since_cooldown. reflexivity.
Qed.

Lemma evalAlert_suppressed (priceUpdate : PriceUpdate) (alert : Models.Alert)
    (w : World) (lastTime : Z) :
  lastAlertTime w !! alertKey alert = Some lastTime ->
  clock env (clockReads w) - lastTime < cooldown ->
  evalAlert env priceUpdate alert w
  = (tt, MkWorld (lastAlertTime w) (S (clockReads w))
           (console w ++ [Suppressed (alertKey alert)]) (pub w)).
Proof.
  intros Hl Hlt. unfold evalAlert. rewrite bind_run, cooldownActive_run, Hl.
  cbn [fst snd]. apply Z.ltb_lt in Hlt. rewrite Hlt. reflexivity.
Qed.

(** The loop body when the cooldown does not stop it. *)
Lemma evalAlert_evaluated (priceUpdate : PriceUpdate) (alert : Models.Alert)
    (w : World) :
  windowElapsed env (alertKey alert) w = true ->
  forall n0 lows ups,
    n0 = clockReads (match lastAlertTime w !! alertKey alert with
                     | Some _ => afterRead w
                     | None => w
                     end) ->
    lows = match lowerCrossing priceUpdate alert with
           | Some lower => [crossingEvent env priceUpdate alert "below" n0 lower]
           | None => []
           end ->
    ups = match upperCrossing priceUpdate alert with
          | Some upper =>
            [crossingEvent env priceUpdate alert "above" (n0 + length lows) upper]
          | None => []
          end ->
    console (exec (evalAlert env priceUpdate alert) w)
    = console w ++ map Triggering (lows ++ ups)
        ++ match lows ++ ups with [] => [] | _ => [NotificationToBeSent] end
    /\ lastAlertTime (exec (evalAlert env priceUpdate alert) w)
       = match lows ++ ups with
         | [] => lastAlertTime w
         | _ => <[alertKey alert := clock env (n0 + length (lows ++ ups))]>
                  (lastAlertTime w)
         end
    /\ clockReads (exec (evalAlert env priceUpdate alert) w)
       = (n0 + length (lows ++ ups)
          + match lows ++ ups with [] => 0 | _ => 1 end)%nat.
Proof.
  intros Hel n0 lows ups -> -> ->.
  unfold exec, evalAlert. rewrite bind_run, cooldownActive_run.
  unfold windowElapsed in Hel.
  unfold lowerCrossing, upperCrossing, checkLower, checkUpper, crossingEvent.
  destruct (lastAlertTime w !! alertKey alert) as [lastTime|];
    [apply negb_true_iff in Hel; rewrite Hel|];
    cbn [fst snd];
    (destruct (Models.LowerThreshold alert) as [lower|];
     [destruct (PrimFloat.leb (Price priceUpdate) lower)|]);
    (destruct (Models.UpperThreshold alert) as [upper|];
     [destruct (PrimFloat.leb upper (Price priceUpdate))|]);
    repeat (rewrite ?bind_run, ?sendSSEAlert_run; cbn [fst snd ret orb]);
    unfold now, storeLast, print;
    cbn [fst snd afterRead lastAlertTime clockReads console pub app map length];
    rewrite ?app_nil_r, <- ?app_assoc; cbn [app Nat.add];
    rewrite ?Nat.add_succ_r, ?Nat.add_0_r;
    repeat split; reflexivity.
Qed.

Lemma sentAlerts_app (l1 l2 : list line) :
  sentAlerts (l1 ++ l2) = sentAlerts l1 ++ sentAlerts l2.
Proof.
  induction l1 as [|[] l1 IH]; cbn; rewrite ?IH; reflexivity.
Qed.

Lemma sentAlerts_Triggering (evs : list Sse.AlertMessage) :
  sentAlerts (map Triggering evs) = evs.
Proof. induction evs as [|e evs IH]; cbn; [reflexivity|]. rewrite IH. reflexivity. Qed.

Lemma recordings_app (l1 l2 : list line) :
  recordings (l1 ++ l2) = (recordings l1 + recordings l2)%nat.
Proof.
  induction l1 as [|[] l1 IH]; cbn; rewrite ?IH; reflexivity.
Qed.

Lemma recordings_Triggering (evs : list Sse.AlertMessage) :
  recordings (map Triggering evs) = 0%nat.
Proof. induction evs as [|e evs IH]; cbn; [reflexivity|exact IH]. Qed.

Lemma lowerCrossing_Some (priceUpdate : PriceUpdate) (alert : Models.Alert)
    (thr : float) :
  lowerCrossing priceUpdate alert = Some thr
  <-> Models.LowerThreshold alert = Some thr
      /\ PrimFloat.leb (Price priceUpdate) thr = true.
Proof.
  unfold lowerCrossing. destruct (Models.LowerThreshold alert) as [lower|].
  - destruct (PrimFloat.leb (Price priceUpdate) lower) eqn:E.
    + split; [intros [= <-]; auto|intros [[= <-] _]; reflexivity].
    + split; [discriminate|intros [[= <-] H]; congruence].
  - split; [discriminate|intros [? _]; discriminate].
Qed.

Lemma upperCrossing_Some (priceUpdate : PriceUpdate) (alert : Models.Alert)
    (thr : float) :
  upperCrossing priceUpdate alert = Some thr
  <-> Models.UpperThreshold alert = Some thr
      /\ PrimFloat.leb thr (Price priceUpdate) = true.
Proof.
  unfold upperCrossing. destruct (Models.UpperThreshold alert) as [upper|].
  - destruct (PrimFloat.leb upper (Price priceUpdate)) eqn:E.
    + split; [intros [= <-]; auto|intros [[= <-] _]; reflexivity].
    + split; [discriminate|intros [[= <-] H]; congruence].
  - split; [discriminate|intros [? _]; discriminate].
Qed.

(** C1: when the cooldown of the alert's key has elapsed, the evaluation
    of the alert against a tick sends a below alert carrying the lower
    threshold exactly when that threshold is set and the price is at or
    below it, and an above alert carrying the upper threshold exactly when
    that one is set and the price is at or above it; every alert sent is
    one of these; and when both conditions hold, two alerts are sent, one
    per direction. *)
Theorem fires_iff_threshold_crossed (priceUpdate : PriceUpdate)
    (alert : Models.Alert) (w : World) :
  windowElapsed env (alertKey alert) w = true ->
  exists evs,
    sentAlerts (console (exec (evalAlert env priceUpdate alert) w))
    = sentAlerts (console w) ++ evs
    /\ (forall thr,
          (exists ts, Sse.MkAlertMessage (Models.UserID alert) (Symbol priceUpdate)
                        thr "below" ts ∈ evs)
          <-> Models.LowerThreshold alert = Some thr
              /\ PrimFloat.leb (Price priceUpdate) thr = true)
    /\ (forall thr,
          (exists ts, Sse.MkAlertMessage (Models.UserID alert) (Symbol priceUpdate)
                        thr "above" ts ∈ evs)
          <-> Models.UpperThreshold alert = Some thr
              /\ PrimFloat.leb thr (Price priceUpdate) = true)
    /\ (forall e, e ∈ evs ->
          Sse.UserID e = Models.UserID alert
          /\ Sse.Symbol e = Symbol priceUpdate
          /\ (Sse.Triggered e = "below" \/ Sse.Triggered e = "above"))
    /\ (forall lower upper,
          Models.LowerThreshold alert = Some lower ->
          PrimFloat.leb (Price priceUpdate) lower = true ->
          Models.UpperThreshold alert = Some upper ->
          PrimFloat.leb upper (Price priceUpdate) = true ->
          exists ts1 ts2,
            evs = [ Sse.MkAlertMessage (Models.UserID alert) (Symbol priceUpdate)
                      lower "below" ts1;
                    Sse.MkAlertMessage (Models.UserID alert) (Symbol priceUpdate)
                      upper "above" ts2 ]).
Proof.
  intros Hel.
  destruct (evalAlert_evaluated priceUpdate alert w Hel _ _ _ eq_refl eq_refl eq_refl)
    as (Hc & _ & _).
  set (n0 := clockReads _) in Hc.
  set (lows := match lowerCrossing priceUpdate alert with
               | Some lower => [crossingEvent env priceUpdate alert "below" n0 lower]
               | None => []
               end) in Hc.
  set (ups := match upperCrossing priceUpdate alert with
              | Some upper =>
                [crossingEvent env priceUpdate alert "above" (n0 + length lows) upper]
              | None => []
              end) in Hc.
  assert (Hlows : forall e, e ∈ lows <->
            exists lo, lowerCrossing priceUpdate alert = Some lo
                       /\ e = crossingEvent env priceUpdate alert "below" n0 lo).
  { intros e. unfold lows. destruct (lowerCrossing priceUpdate alert) as [lo|].
    - rewrite list_elem_of_singleton. split; [intros ->; eauto|].
      intros (lo' & [= <-] & ->). reflexivity.
    - split; [intros H; apply elem_of_nil in H; contradiction|].
      intros (lo' & ? & _). discriminate. }
  assert (Hups : forall e, e ∈ ups <->
            exists up, upperCrossing priceUpdate alert = Some up
                       /\ e = crossingEvent env priceUpdate alert "above"
                                (n0 + length lows) up).
  { intros e. unfold ups. destruct (upperCrossing priceUpdate alert) as [up|].
    - rewrite list_elem_of_singleton. split; [intros ->; eauto|].
      intros (up' & [= <-] & ->). reflexivity.
    - split; [intros H; apply elem_of_nil in H; contradiction|].
      intros (up' & ? & _). discriminate. }
  exists (lows ++ ups). split; [|split; [|split; [|split]]].
  - rewrite Hc, !sentAlerts_app, sentAlerts_Triggering.
    destruct (lows ++ ups); cbn; rewrite app_nil_r; reflexivity.
  - intros thr. rewrite <- lowerCrossing_Some. split.
    + intros (ts & Hin). apply elem_of_app in Hin as [Hin|Hin].
      * apply Hlows in Hin as (lo & Hlo & [= -> _]). exact Hlo.
      * apply Hups in Hin as (up & _ & [=]).
    + intros Hlo. eexists. apply elem_of_app. left. apply Hlows.
      exists thr. split; [exact Hlo|reflexivity].
  - intros thr. rewrite <- upperCrossing_Some. split.
    + intros (ts & Hin). apply elem_of_app in Hin as [Hin|Hin].
      * apply Hlows in Hin as (lo & _ & [=]).
      * apply Hups in Hin as (up & Hup & [= -> _]). exact Hup.
    + intros Hup. eexists. apply elem_of_app. right. apply Hups.
      exists thr. split; [exact Hup|reflexivity].
  - intros e Hin. apply elem_of_app in Hin as [Hin|Hin].
    + apply Hlows in Hin as (lo & _ & ->). cbn. auto.
    + apply Hups in Hin as (up & _ & ->). cbn. auto.
  - intros lower upper Hl Hlb Hu Hub.
    assert (H1 : lowerCrossing priceUpdate alert = Some lower)
      by (apply lowerCrossing_Some; auto).
    assert (H2 : upperCrossing priceUpdate alert = Some upper)
      by (apply upperCrossing_Some; auto).
    unfold lows, ups. rewrite H1, H2. cbn. eauto.
Qed.

End ProcessorFacts.

Section CooldownFacts.

Import Processor.

Variable env : Env.

Lemma windowElapsed_cases (key : string) (w : World) :
  windowElapsed env key w = true
  \/ exists lastFired, lastAlertTime w !! key = Some lastFired
                       /\ clock env (clockReads w) - lastFired < cooldown.
Proof.
  unfold windowElapsed. destruct (lastAlertTime w !! key) as [lastFired|]; [|auto].
  destruct (Z.ltb_spec (clock env (clockReads w) - lastFired) cooldown); [|auto].
  right. eauto.
Qed.

Lemma windowElapsed_false (key : string) (w : World) (lastFired : Z) :
  lastAlertTime w !! key = Some lastFired ->
  clock env (clockReads w) - lastFired < cooldown ->
  windowElapsed env key w = false.
Proof.
  intros Hl Hlt. unfold windowElapsed. rewrite Hl.
  apply Z.ltb_lt in Hlt. rewrite Hlt. reflexivity.
Qed.

(** C2: the evaluation of an alert is skipped (the line that reports the
    suppression is the only thing printed) exactly when the cooldown map
    has an entry for the alert's key and the clock reading less the entry
    is below the cooldown; a skipped alert sends nothing in either
    direction, writes nothing to the map and publishes nothing. *)
Theorem suppressed_iff_within_cooldown (priceUpdate : PriceUpdate)
    (alert : Models.Alert) (w : World) :
  (console (exec (evalAlert env priceUpdate alert) w)
   = console w ++ [Suppressed (alertKey alert)]
   <-> exists lastFired,
         lastAlertTime w !! alertKey alert = Some lastFired
         /\ clock env (clockReads w) - lastFired < cooldown)
  /\ ((exists lastFired,
         lastAlertTime w !! alertKey alert = Some lastFired
         /\ clock env (clockReads w) - lastFired < cooldown) ->
      sentAlerts (console (exec (evalAlert env priceUpdate alert) w))
      = sentAlerts (console w)
      /\ lastAlertTime (exec (evalAlert env priceUpdate alert) w) = lastAlertTime w
      /\ pub (exec (evalAlert env priceUpdate alert) w) = pub w).
Proof.
  assert (Hsupp : forall lastFired,
            lastAlertTime w !! alertKey alert = Some lastFired ->
            clock env (clockReads w) - lastFired < cooldown ->
            exec (evalAlert env priceUpdate alert) w
            = MkWorld (lastAlertTime w) (S (clockReads w))
                      (console w ++ [Suppressed (alertKey alert)]) (pub w)).
  { intros lastFired Hl Hlt. unfold exec.
    rewrite (evalAlert_suppressed env priceUpdate alert w lastFired Hl Hlt).
    reflexivity. }
  split; [split|].
  - intros Hc. destruct (windowElapsed_cases (alertKey alert) w) as [Hel|Hin];
      [exfalso|exact Hin].
    destruct (evalAlert_evaluated env priceUpdate alert w Hel _ _ _
                eq_refl eq_refl eq_refl) as (Hc' & _ & _).
    rewrite Hc in Hc'. apply app_inv_head in Hc'.
    match type of Hc' with context [map Triggering ?l] => destruct l end;
      discriminate.
  - intros (lastFired & Hl & Hlt). rewrite (Hsupp lastFired Hl Hlt). reflexivity.
  - intros (lastFired & Hl & Hlt). rewrite (Hsupp lastFired Hl Hlt).
    cbn [console lastAlertTime pub]. rewrite sentAlerts_app. cbn.
    rewrite app_nil_r. auto.
Qed.

End CooldownFacts.

(** The tick at 10 s of the cooldown scenario: the alert fired at 0 s, so
    the entry is 10 s old and the alert is skipped. *)
Lemma suppressed_iff_within_cooldown_witness :
  Processor.sentAlerts
    (Processor.console
       (Processor.exec
          (Processor.evalAlert Scenarios.specEnv (Scenarios.btcTick 88000%float)
             Scenarios.btcAlert)
          (Processor.exec
             (Processor.evalAlert Scenarios.specEnv (Scenarios.btcTick 89000%float)
                Scenarios.btcAlert) Processor.start)))
  = Processor.sentAlerts
      (Processor.console
         (Processor.exec
            (Processor.evalAlert Scenarios.specEnv (Scenarios.btcTick 89000%float)
               Scenarios.btcAlert) Processor.start)).
Proof.
  destruct (suppressed_iff_within_cooldown Scenarios.specEnv
              (Scenarios.btcTick 88000%float) Scenarios.btcAlert
              (Processor.exec
                 (Processor.evalAlert Scenarios.specEnv
                    (Scenarios.btcTick 89000%float) Scenarios.btcAlert)
                 Processor.start)) as [_ H].
  destruct H as (H1 & _); [|exact H1].
  exists 0. split; vm_compute; reflexivity.
Defined.

(** ** Silence within the cooldown *)

Section SilenceFacts.

Import Processor.

Variable env : Env.

Lemma exec_bind {A B} (m : M A) (k : A -> M B) (w : World) :
  exec (bind m k) w = exec (k (fst (m w))) (exec m w).
Proof. unfold exec. rewrite bind_run. reflexivity. Qed.

(** What one evaluation of an alert does, suppressed or not. *)
Lemma evalAlert_effect (priceUpdate : PriceUpdate) (alert : Models.Alert)
    (w : World) :
  exists evs,
    sentAlerts (console (exec (evalAlert env priceUpdate alert) w))
    = sentAlerts (console w) ++ evs
    /\ Forall (fun e => Sse.UserID e = Models.UserID alert
                        /\ Sse.Symbol e = Symbol priceUpdate) evs
    /\ (clockReads w <= clockReads (exec (evalAlert env priceUpdate alert) w))%nat
    /\ (evs = [] ->
        lastAlertTime (exec (evalAlert env priceUpdate alert) w) = lastAlertTime w
        /\ recordings (console (exec (evalAlert env priceUpdate alert) w))
           = recordings (console w))
    /\ (evs <> [] ->
        windowElapsed env (alertKey alert) w = true
        /\ (clockReads w < clockReads (exec (evalAlert env priceUpdate alert) w))%nat
        /\ lastAlertTime (exec (evalAlert env priceUpdate alert) w)
           = <[alertKey alert :=
                 clock env (clockReads (exec (evalAlert env priceUpdate alert) w) - 1)]>
               (lastAlertTime w)
        /\ recordings (console (exec (evalAlert env priceUpdate alert) w))
           = S (recordings (console w)))
    /\ (is_Some (lastAlertTime w !! alertKey alert) ->
        (clockReads w < clockReads (exec (evalAlert env priceUpdate alert) w))%nat).
Proof.
  destruct (windowElapsed_cases env (alertKey alert) w)
    as [Hel|(lastFired & Hl & Hlt)].
  - destruct (evalAlert_evaluated env priceUpdate alert w Hel _ _ _
                eq_refl eq_refl eq_refl) as (Hc & Hm & Hr).
    set (n0 := clockReads _) in *.
    set (lows := match lowerCrossing priceUpdate alert with
                 | Some lower => [crossingEvent env priceUpdate alert "below" n0 lower]
                 | None => []
                 end) in *.
    set (ups := match upperCrossing priceUpdate alert with
                | Some upper =>
                  [crossingEvent env priceUpdate alert "above" (n0 + length lows) upper]
                | None => []
                end) in *.
    assert (Hn0 : (clockReads w <= n0)%nat
                  /\ (is_Some (lastAlertTime w !! alertKey alert) ->
                      (clockReads w < n0)%nat)).
    { unfold n0. destruct (lastAlertTime w !! alertKey alert); cbn.
      - split; [lia|intros _; lia].
      - split; [lia|intros [? ?]; discriminate]. }
    exists (lows ++ ups). split; [|split; [|split; [|split; [|split]]]].
    + rewrite Hc, !sentAlerts_app, sentAlerts_Triggering.
      destruct (lows ++ ups); cbn; rewrite app_nil_r; reflexivity.
    + apply Forall_app. unfold lows, ups. split.
      * destruct (lowerCrossing priceUpdate alert); repeat constructor.
      * destruct (upperCrossing priceUpdate alert); repeat constructor.
    + rewrite Hr. lia.
    + intros He. rewrite Hm, Hc, He. cbn. rewrite !app_nil_r. auto.
    + intros He. split; [exact Hel|]. rewrite Hr, Hm, Hc.
      rewrite !recordings_app, recordings_Triggering.
      destruct (lows ++ ups) as [|e evs]; [contradiction|].
      cbn [length recordings]. split; [lia|]. split; [|lia].
      f_equal. f_equal. lia.
    + intros Hs. rewrite Hr. destruct Hn0 as [_ Hn0]. specialize (Hn0 Hs). lia.
  - unfold exec.
    rewrite (evalAlert_suppressed env priceUpdate alert w lastFired Hl Hlt).
    cbn [snd console lastAlertTime clockReads].
    exists []. rewrite sentAlerts_app, recordings_app. cbn. rewrite !app_nil_r.
    repeat split; auto; try lia; try contradiction.
Qed.

Lemma silentFor_refl (key : string) (t : Z) (w : World) :
  silentFor env key t w w.
Proof.
  split; [lia|]. intros _ Hl. split; [exact Hl|].
  exists []. rewrite app_nil_r. split; [reflexivity|constructor].
Qed.

Lemma silentFor_trans (key : string) (t : Z) (w1 w2 w3 : World) :
  silentFor env key t w1 w2 -> silentFor env key t w2 w3 ->
  silentFor env key t w1 w3.
Proof.
  intros [Hm1 H1] [Hm2 H2]. split; [lia|]. intros Hw Hl.
  destruct H1 as (Hl2 & evs1 & He1 & Hf1); [intros n Hn; apply Hw; lia|exact Hl|].
  destruct H2 as (Hl3 & evs2 & He2 & Hf2); [intros n Hn; apply Hw; lia|exact Hl2|].
  split; [exact Hl3|]. exists (evs1 ++ evs2). split.
  - rewrite He2, He1, app_assoc. reflexivity.
  - apply Forall_app. auto.
Qed.

(** An alert of the tick's symbol: within the cooldown of [key] its
    evaluation sends nothing for [key] and keeps the entry. *)
Lemma evalAlert_silent (key : string) (t : Z) (priceUpdate : PriceUpdate)
    (alert : Models.Alert) (w : World) :
  Models.Symbol alert = Symbol priceUpdate ->
  silentFor env key t w (exec (evalAlert env priceUpdate alert) w).
Proof.
  intros Hsym.
  destruct (evalAlert_effect priceUpdate alert w)
    as (evs & He & Hf & Hmono & Hnil & Hcons & Hlt).
  split; [exact Hmono|]. intros Hw Hl.
  destruct (decide (alertKey alert = key)) as [Hk|Hk].
  - assert (Hevs : evs = []).
    { destruct evs as [|e evs]; [reflexivity|exfalso].
      destruct Hcons as (Hel & Hr & _); [discriminate|].
      unfold windowElapsed in Hel. rewrite Hk, Hl in Hel.
      apply negb_true_iff, Z.ltb_ge in Hel.
      specialize (Hw (clockReads w)). lia. }
    destruct (Hnil Hevs) as [-> _]. split; [exact Hl|].
    exists []. subst evs. split; [exact He|constructor].
  - split.
    + destruct evs as [|e evs].
      * destruct Hnil as [-> _]; [reflexivity|exact Hl].
      * destruct Hcons as (_ & _ & -> & _); [discriminate|].
        rewrite lookup_insert_ne by exact Hk. exact Hl.
    + exists evs. split; [exact He|].
      eapply Forall_impl; [exact Hf|]. intros e [Hu Hs] Hkey. apply Hk.
      rewrite <- Hkey. unfold alertKey, eventKey. rewrite Hu, Hs, Hsym. reflexivity.
Qed.

Lemma evalAlerts_silent (key : string) (t : Z) (priceUpdate : PriceUpdate)
    (alerts : list Models.Alert) :
  Forall (fun a => Models.Symbol a = Symbol priceUpdate) alerts ->
  forall w, silentFor env key t w (exec (evalAlerts env priceUpdate alerts) w).
Proof.
  induction 1 as [|alert alerts Hsym _ IH]; intros w.
  - apply silentFor_refl.
  - cbn [evalAlerts]. rewrite exec_bind.
    eapply silentFor_trans; [apply evalAlert_silent; exact Hsym|apply IH].
Qed.

Lemma insertDesc_Forall (P : Models.Alert -> Prop) (a : Models.Alert)
    (l : list Models.Alert) :
  P a -> Forall P l -> Forall P (Database.insertDesc a l).
Proof.
  intros Ha. induction 1 as [|b l Hb Hl IH]; cbn.
  - repeat constructor. exact Ha.
  - destruct (_ <? _); repeat constructor; assumption.
Qed.

Lemma orderByCreatedAtDesc_Forall (P : Models.Alert -> Prop)
    (l : list Models.Alert) :
  Forall P l -> Forall P (Database.orderByCreatedAtDesc l).
Proof.
  induction 1 as [|a l Ha Hl IH]; cbn; [constructor|].
  apply insertDesc_Forall; assumption.
Qed.

(** The alerts a query returns are alerts of the symbol asked for. *)
Lemma GetAlertsBySymbol_symbol (db : Database.DB) (symbol : string)
    (lg : list Zap.entry) (alerts : list Models.Alert) :
  fst (Database.GetAlertsBySymbol db symbol lg) = Ok alerts ->
  Forall (fun a => Models.Symbol a = symbol) alerts.
Proof.
  unfold Database.GetAlertsBySymbol. destruct (Database.failing db); [discriminate|].
  cbn. intros [= <-]. apply orderByCreatedAtDesc_Forall.
  apply List.Forall_forall. intros a Ha. apply List.filter_In in Ha as [_ Ha].
  apply String.eqb_eq in Ha. exact Ha.
Qed.

Lemma processPriceUpdate_silent (key : string) (t : Z) (db : Database.DB)
    (priceUpdate : PriceUpdate) (w : World) :
  silentFor env key t w (exec (processPriceUpdate env db priceUpdate) w).
Proof.
  unfold exec, processPriceUpdate.
  destruct (Database.GetAlertsBySymbol db (Symbol priceUpdate) (Sse.plog (pub w)))
    as [r lg] eqn:Hq.
  destruct r as [alerts|e].
  - pose proof (GetAlertsBySymbol_symbol db (Symbol priceUpdate)
                  (Sse.plog (pub w)) alerts) as Hsym.
    rewrite Hq in Hsym. specialize (Hsym eq_refl).
    pose proof (evalAlerts_silent key t priceUpdate alerts Hsym
                  (MkWorld (lastAlertTime w) (clockReads w) (console w)
                     (Sse.MkPublisher lg (Sse.redis (pub w))))) as H.
    exact H.
  - cbn. split; [cbn; lia|]. intros _ Hl. split; [exact Hl|].
    exists []. cbn. rewrite sentAlerts_app. cbn. rewrite !app_nil_r.
    split; [reflexivity|constructor].
Qed.

Lemma processAll_silent (key : string) (t : Z)
    (ticks : list (Database.DB * PriceUpdate)) :
  forall w, silentFor env key t w (exec (processAll env ticks) w).
Proof.
  induction ticks as [|[db priceUpdate] ticks IH]; intros w.
  - apply silentFor_refl.
  - cbn [processAll]. rewrite exec_bind.
    eapply silentFor_trans; [apply processPriceUpdate_silent|apply IH].
Qed.

End SilenceFacts.

Section CooldownClaims.

Import Processor.

Variable env : Env.

Lemma sentAlerts_grew (l evs : list Sse.AlertMessage) :
  l ++ evs <> l -> evs <> [].
Proof. intros H ->. apply H. apply app_nil_r. Qed.

(** C3: an evaluation that sends at least one alert writes the cooldown
    map exactly once, under the alert's key, with the clock reading it
    takes after the sends; from then on, through the rest of the tick's
    alerts and all later ticks, as long as every clock reading is within
    the cooldown of that entry, the entry stays and no alert with that key
    is sent, whatever its direction and whichever alert it comes from. *)
Theorem fire_records_once_then_silence (priceUpdate : PriceUpdate)
    (alert : Models.Alert) (w : World) (rest : list Models.Alert)
    (ticks : list (Database.DB * PriceUpdate)) (w1 w2 : World) (t : Z) :
  w1 = exec (evalAlert env priceUpdate alert) w ->
  t = clock env (clockReads w1 - 1) ->
  w2 = exec (processAll env ticks) (exec (evalAlerts env priceUpdate rest) w1) ->
  sentAlerts (console w1) <> sentAlerts (console w) ->
  Forall (fun a => Models.Symbol a = Symbol priceUpdate) rest ->
  (forall n, (clockReads w1 <= n < clockReads w2)%nat ->
             clock env n - t < cooldown) ->
  lastAlertTime w1 = <[alertKey alert := t]> (lastAlertTime w)
  /\ recordings (console w1) = S (recordings (console w))
  /\ lastAlertTime w2 !! alertKey alert = Some t
  /\ exists evs,
       sentAlerts (console w2) = sentAlerts (console w1) ++ evs
       /\ Forall (fun e => eventKey e <> alertKey alert) evs.
Proof.
  intros -> -> -> Hfired Hrest Hwin.
  destruct (evalAlert_effect env priceUpdate alert w)
    as (evs & He & _ & _ & _ & Hcons & _).
  rewrite He in Hfired. apply sentAlerts_grew in Hfired.
  destruct (Hcons Hfired) as (_ & _ & Hm & Hrec).
  split; [exact Hm|]. split; [exact Hrec|].
  pose proof (silentFor_trans env (alertKey alert) _ _ _ _
                (evalAlerts_silent env (alertKey alert)
                   (clock env (clockReads (exec (evalAlert env priceUpdate alert) w) - 1))
                   priceUpdate rest Hrest (exec (evalAlert env priceUpdate alert) w))
                (processAll_silent env (alertKey alert) _ ticks _)) as [_ Hs].
  apply Hs; [exact Hwin|].
  rewrite Hm. apply lookup_insert_eq.
Qed.

(** C10: the key is the user id, an underscore and the symbol, so the pair
    (a_b, c) and the pair (a, b_c) have one key; and when an alert of one
    pair has fired, an alert of any pair with the same key is suppressed
    for as long as the clock readings stay within the cooldown of that
    fire, whatever ticks are processed in between. *)
Theorem colliding_keys_share_cooldown :
  (alertKey Scenarios.abAlert = alertKey Scenarios.aAlert
   /\ Models.UserID Scenarios.abAlert <> Models.UserID Scenarios.aAlert
   /\ Models.Symbol Scenarios.abAlert <> Models.Symbol Scenarios.aAlert)
  /\ (forall alert, alertKey alert
                    = Models.UserID alert +:+ "_" +:+ Models.Symbol alert)
  /\ (forall (priceUpdate1 priceUpdate2 : PriceUpdate)
             (alert1 alert2 : Models.Alert) (w : World)
             (ticks : list (Database.DB * PriceUpdate)) (w1 w2 : World) (t : Z),
        alertKey alert1 = alertKey alert2 ->
        w1 = exec (evalAlert env priceUpdate1 alert1) w ->
        t = clock env (clockReads w1 - 1) ->
        w2 = exec (processAll env ticks) w1 ->
        sentAlerts (console w1) <> sentAlerts (console w) ->
        (forall n, (clockReads w1 <= n <= clockReads w2)%nat ->
                   clock env n - t < cooldown) ->
        console (exec (evalAlert env priceUpdate2 alert2) w2)
        = console w2 ++ [Suppressed (alertKey alert2)]
        /\ sentAlerts (console (exec (evalAlert env priceUpdate2 alert2) w2))
           = sentAlerts (console w2)
        /\ lastAlertTime (exec (evalAlert env priceUpdate2 alert2) w2)
           = lastAlertTime w2).
Proof.
  split; [|split].
  - split; [reflexivity|]. split; discriminate.
  - reflexivity.
  - intros priceUpdate1 priceUpdate2 alert1 alert2 w ticks w1 w2 t
           Hkey -> -> -> Hfired Hwin.
    destruct (evalAlert_effect env priceUpdate1 alert1 w)
      as (evs & He & _ & _ & _ & Hcons & _).
    rewrite He in Hfired. apply sentAlerts_grew in Hfired.
    destruct (Hcons Hfired) as (_ & _ & Hm & _).
    destruct (processAll_silent env (alertKey alert1)
                (clock env (clockReads (exec (evalAlert env priceUpdate1 alert1) w) - 1))
                ticks (exec (evalAlert env priceUpdate1 alert1) w)) as [Hmono Hs].
    destruct Hs as [Hl _].
    { intros n Hn. apply Hwin. lia. }
    { rewrite Hm. apply lookup_insert_eq. }
    rewrite Hkey in Hl.
    set (w2 := exec (processAll env ticks) _) in *.
    assert (Hx : exec (evalAlert env priceUpdate2 alert2) w2
                 = MkWorld (lastAlertTime w2) (S (clockReads w2))
                     (console w2 ++ [Suppressed (alertKey alert2)]) (pub w2)).
    { unfold exec. rewrite (evalAlert_suppressed env priceUpdate2 alert2 _ _ Hl);
        [reflexivity|]. apply Hwin. lia. }
    rewrite Hx. cbn [console lastAlertTime]. rewrite sentAlerts_app. cbn.
    rewrite app_nil_r. auto.
Qed.

End CooldownClaims.

(** ** Publishing *)

Section PublishFacts.

Import Processor.

Lemma evalAlert_same (clk : nat -> Z) (fmt : Z -> string)
    (fails1 fails2 : nat -> bool) (priceUpdate : PriceUpdate)
    (alert : Models.Alert) (w w' : World) :
  sameEvaluation w w' ->
  sameEvaluation (exec (evalAlert (MkEnv clk fmt fails1) priceUpdate alert) w)
                 (exec (evalAlert (MkEnv clk fmt fails2) priceUpdate alert) w').
Proof.
  intros (Hl & Hr & Hc). unfold sameEvaluation.
  destruct (windowElapsed_cases (MkEnv clk fmt fails1) (alertKey alert) w)
    as [Hel|(lastFired & Hlast & Hlt)].
  - assert (Hel' : windowElapsed (MkEnv clk fmt fails2) (alertKey alert) w' = true).
    { unfold windowElapsed in *. cbn [clock] in *. rewrite <- Hl, <- Hr. exact Hel. }
    destruct (evalAlert_evaluated _ priceUpdate alert w Hel _ _ _
                eq_refl eq_refl eq_refl) as (A1 & A2 & A3).
    destruct (evalAlert_evaluated _ priceUpdate alert w' Hel' _ _ _
                eq_refl eq_refl eq_refl) as (B1 & B2 & B3).
    rewrite A1, A2, A3, B1, B2, B3. unfold crossingEvent. cbn [clock RFC3339].
    rewrite <- Hl, <- Hc.
    assert (Hn : clockReads (match lastAlertTime w !! alertKey alert with
                             | Some _ => afterRead w' | None => w' end)
                 = clockReads (match lastAlertTime w !! alertKey alert with
                               | Some _ => afterRead w | None => w end)).
    { destruct (lastAlertTime w !! alertKey alert); cbn; congruence. }
    rewrite Hn. auto.
  - unfold exec.
    rewrite (evalAlert_suppressed _ priceUpdate alert w lastFired Hlast Hlt).
    rewrite (evalAlert_suppressed (MkEnv clk fmt fails2) priceUpdate alert w' lastFired).
    + cbn. rewrite Hl, Hr, Hc. auto.
    + rewrite <- Hl. exact Hlast.
    + cbn [clock] in *. rewrite <- Hr. exact Hlt.
Qed.

Lemma evalAlerts_same (clk : nat -> Z) (fmt : Z -> string)
    (fails1 fails2 : nat -> bool) (priceUpdate : PriceUpdate)
    (alerts : list Models.Alert) :
  forall w w',
    sameEvaluation w w' ->
    sameEvaluation (exec (evalAlerts (MkEnv clk fmt fails1) priceUpdate alerts) w)
                   (exec (evalAlerts (MkEnv clk fmt fails2) priceUpdate alerts) w').
Proof.
  induction alerts as [|alert alerts IH]; intros w w' H; [exact H|].
  cbn [evalAlerts]. rewrite !exec_bind. apply IH. apply evalAlert_same. exact H.
Qed.

Lemma processPriceUpdate_same (clk : nat -> Z) (fmt : Z -> string)
    (fails1 fails2 : nat -> bool) (db : Database.DB) (priceUpdate : PriceUpdate)
    (w w' : World) :
  sameEvaluation w w' ->
  sameEvaluation
    (exec (processPriceUpdate (MkEnv clk fmt fails1) db priceUpdate) w)
    (exec (processPriceUpdate (MkEnv clk fmt fails2) db priceUpdate) w').
Proof.
  intros H. unfold exec, processPriceUpdate, Database.GetAlertsBySymbol.
  destruct (Database.failing db).
  - destruct H as (Hl & Hr & Hc). cbn. unfold sameEvaluation. cbn.
    rewrite Hl, Hr, Hc. auto.
  - apply evalAlerts_same. exact H.
Qed.

Lemma processAll_same (clk : nat -> Z) (fmt : Z -> string)
    (fails1 fails2 : nat -> bool) (ticks : list (Database.DB * PriceUpdate)) :
  forall w w',
    sameEvaluation w w' ->
    sameEvaluation (exec (processAll (MkEnv clk fmt fails1) ticks) w)
                   (exec (processAll (MkEnv clk fmt fails2) ticks) w').
Proof.
  induction ticks as [|[db priceUpdate] ticks IH]; intros w w' H; [exact H|].
  cbn [processAll]. rewrite !exec_bind. apply IH.
  apply processPriceUpdate_same. exact H.
Qed.

(** C6, as amended: [BroadcastAlert] returns nothing to its caller. When
    the marshalling or the call to Redis fails, Redis has accepted nothing
    more and the failure is the one error entry added to the log; when both
    succeed, the payload is the one message Redis accepted more. The
    failure stops nothing: whatever calls fail, the processing of any
    sequence of ticks prints the same lines, reads the clock as often and
    ends with the same cooldown map. *)
Theorem publish_failure_logged_and_dropped :
  (forall (fails : nat -> bool) (alert : Sse.AlertMessage) (p : Sse.Publisher),
     fst (Sse.BroadcastAlert fails alert p) = tt
     /\ ((exists e, Sse.Marshal alert = Err e)
         \/ fails (Cache.calls (Sse.redis p)) = true ->
         Cache.accepted (Sse.redis (snd (Sse.BroadcastAlert fails alert p)))
         = Cache.accepted (Sse.redis p)
         /\ exists info err,
              Sse.plog (snd (Sse.BroadcastAlert fails alert p))
              = Sse.plog p ++ [info; err]
              /\ Zap.isError info = false /\ Zap.isError err = true)
     /\ (forall payload,
           Sse.Marshal alert = Ok payload ->
           fails (Cache.calls (Sse.redis p)) = false ->
           Cache.accepted (Sse.redis (snd (Sse.BroadcastAlert fails alert p)))
           = Cache.accepted (Sse.redis p) ++ [(Sse.alertsChannel, payload)]
           /\ exists info done,
                Sse.plog (snd (Sse.BroadcastAlert fails alert p))
                = Sse.plog p ++ [info; done]
                /\ Zap.isError info = false /\ Zap.isError done = false))
  /\ (forall (clk : nat -> Z) (fmt : Z -> string) (fails1 fails2 : nat -> bool)
             (ticks : list (Database.DB * PriceUpdate)) (w : World),
        sameEvaluation (exec (processAll (MkEnv clk fmt fails1) ticks) w)
                       (exec (processAll (MkEnv clk fmt fails2) ticks) w)).
Proof.
  split.
  - intros fails alert p. split; [destruct (fst _); reflexivity|].
    unfold Sse.BroadcastAlert, Cache.PublishMessage.
    cbn [Sse.plogged Sse.redis Sse.plog].
    destruct (Sse.Marshal alert) as [payload|e] eqn:Hm.
    + destruct (fails (Cache.calls (Sse.redis p))) eqn:Hf;
        cbn [snd Sse.plogged Sse.redis Sse.plog Cache.accepted]; split.
      * intros _. split; [reflexivity|].
        do 2 eexists. rewrite <- app_assoc. split; [reflexivity|]. split; reflexivity.
      * intros payload' _ [=].
      * intros [[e He]|H]; discriminate.
      * intros payload' [= <-] _. split; [reflexivity|].
        do 2 eexists. rewrite <- app_assoc. split; [reflexivity|]. split; reflexivity.
    + cbn [snd Sse.plogged Sse.redis Sse.plog]. split.
      * intros _. split; [reflexivity|].
        do 2 eexists. rewrite <- app_assoc. split; [reflexivity|]. split; reflexivity.
      * intros payload' [=].
  - intros clk fmt fails1 fails2 ticks w. apply processAll_same.
    unfold sameEvaluation. auto.
Qed.

End PublishFacts.

(** A publish that Redis refuses: nothing more is accepted. *)
Lemma publish_failure_logged_and_dropped_witness :
  Cache.accepted
    (Sse.redis (snd (Sse.BroadcastAlert (fun _ => true) Scenarios.btcBelow
                       Scenarios.freshPublisher)))
  = Cache.accepted (Sse.redis Scenarios.freshPublisher).
Proof.
  destruct publish_failure_logged_and_dropped as [H _].
  destruct (H (fun _ => true) Scenarios.btcBelow Scenarios.freshPublisher)
    as (_ & Hfail & _).
  destruct Hfail as [Hacc _]; [right; reflexivity|exact Hacc].
Defined.

(** C6 as stated fails: a publish that Redis refuses, one whose alert
    cannot be marshalled and one that succeeds all return the same to the
    caller, who cannot tell them apart; only the log and Redis differ. *)
Lemma publish_failure_not_returned :
  fst (Sse.BroadcastAlert (fun _ => true) Scenarios.btcBelow Scenarios.freshPublisher)
  = fst (Sse.BroadcastAlert (fun _ => false) Scenarios.btcBelow Scenarios.freshPublisher)
  /\ fst (Sse.BroadcastAlert (fun _ => false) Scenarios.nanAlert Scenarios.freshPublisher)
     = fst (Sse.BroadcastAlert (fun _ => false) Scenarios.btcBelow Scenarios.freshPublisher)
  /\ Cache.accepted (Sse.redis (snd (Sse.BroadcastAlert (fun _ => true)
                       Scenarios.btcBelow Scenarios.freshPublisher))) = []
  /\ Cache.accepted (Sse.redis (snd (Sse.BroadcastAlert (fun _ => false)
                       Scenarios.nanAlert Scenarios.freshPublisher))) = []
  /\ Cache.accepted (Sse.redis (snd (Sse.BroadcastAlert (fun _ => false)
                       Scenarios.btcBelow Scenarios.freshPublisher)))
     = [(Sse.alertsChannel, Scenarios.btcPayload)].
Proof. repeat split; reflexivity. Qed.

(** The second scenario of the specification: upper 4000, lower 3000,
    price 4500, no entry in the cooldown map. *)
Lemma fires_iff_threshold_crossed_witness :
  exists evs,
    Processor.sentAlerts
      (Processor.console
         (Processor.exec
            (Processor.evalAlert Scenarios.specEnv Scenarios.ethTick Scenarios.ethAlert)
            Processor.start)) = evs
    /\ exists ts, Sse.MkAlertMessage "U1" "ETH-USD" 4000%float "above" ts ∈ evs.
Proof.
  destruct (fires_iff_threshold_crossed Scenarios.specEnv Scenarios.ethTick
              Scenarios.ethAlert Processor.start) as (evs & H1 & _ & H3 & _);
    [reflexivity|].
  exists evs. split; [exact H1|]. apply H3. split; reflexivity.
Defined.

(** The first scenario of the specification: the alert fires at 0 s; the
    tick at 10 s sends nothing and the entry stays. *)
Lemma fire_records_once_then_silence_witness :
  Processor.lastAlertTime
    (Processor.exec
       (Processor.processAll Scenarios.specEnv
          [(Scenarios.alertsDB, Scenarios.btcTick 88000%float)])
       (Processor.exec
          (Processor.evalAlert Scenarios.specEnv (Scenarios.btcTick 89000%float)
             Scenarios.btcAlert) Processor.start))
    !! Processor.alertKey Scenarios.btcAlert = Some 0.
Proof.
  destruct (fire_records_once_then_silence Scenarios.specEnv
              (Scenarios.btcTick 89000%float) Scenarios.btcAlert Processor.start []
              [(Scenarios.alertsDB, Scenarios.btcTick 88000%float)] _ _ _
              eq_refl eq_refl eq_refl) as (_ & _ & H & _).
  - vm_compute. discriminate.
  - constructor.
  - intros n Hn. vm_compute in Hn. assert (n = 2%nat) as -> by lia. reflexivity.
  - exact H.
Defined.

(** The colliding pairs of C10: after the alert of (a_b, c) fired at 0 s,
    the alert of (a, b_c) is suppressed at 10 s. *)
Lemma colliding_keys_share_cooldown_witness :
  Processor.console
    (Processor.exec
       (Processor.evalAlert Scenarios.specEnv Scenarios.bcTick Scenarios.aAlert)
       (Processor.exec
          (Processor.evalAlert Scenarios.specEnv Scenarios.cTick Scenarios.abAlert)
          Processor.start))
  = Processor.console
      (Processor.exec
         (Processor.evalAlert Scenarios.specEnv Scenarios.cTick Scenarios.abAlert)
         Processor.start)
    ++ [Processor.Suppressed "a_b_c"].
Proof.
  destruct (colliding_keys_share_cooldown Scenarios.specEnv) as (_ & _ & H).
  destruct (H Scenarios.cTick Scenarios.bcTick Scenarios.abAlert Scenarios.aAlert
              Processor.start [] _ _ _ eq_refl eq_refl eq_refl eq_refl)
    as (Hc & _).
  - vm_compute. discriminate.
  - intros n Hn. vm_compute in Hn. assert (n = 2%nat) as -> by lia. reflexivity.
  - exact Hc.
Defined.

(** ** The cooldown scenario, end to end *)

(** Alert (U1, BTC-USD, lower 90000), cooldown 30 s: the tick at 0 s with
    price 89000 fires below 90000 and records the fire, the tick at 10 s
    is suppressed, the tick at 31 s fires again; Redis accepts the two
    alerts. *)
Example cooldown_scenario :
  Processor.console
    (Processor.exec
       (Processor.processAll Scenarios.specEnv
          [ (Scenarios.alertsDB, Scenarios.btcTick 89000%float);
            (Scenarios.alertsDB, Scenarios.btcTick 88000%float);
            (Scenarios.alertsDB, Scenarios.btcTick 88000%float) ])
       Processor.start)
  = [ Processor.Triggering Scenarios.btcBelow;
      Processor.NotificationToBeSent;
      Processor.Suppressed "U1_BTC-USD";
      Processor.Triggering Scenarios.btcBelow;
      Processor.NotificationToBeSent ]
  /\ Cache.accepted
       (Sse.redis
          (Processor.pub
             (Processor.exec
                (Processor.processAll Scenarios.specEnv
                   [ (Scenarios.alertsDB, Scenarios.btcTick 89000%float);
                     (Scenarios.alertsDB, Scenarios.btcTick 88000%float);
                     (Scenarios.alertsDB, Scenarios.btcTick 88000%float) ])
                Processor.start)))
     = [ (Sse.alertsChannel, Scenarios.btcPayload);
         (Sse.alertsChannel, Scenarios.btcPayload) ].
Proof. split; vm_compute; reflexivity. Qed.

(* ===================================================================== *)
(** * Further properties of the code *)
(* ===================================================================== *)

(** ** What the encoder writes is valid UTF-8 *)

Section Utf8Coercion.

Import Utf8.

Lemma validLoop_fuel (f1 : nat) :
  forall f2 s, (String.length s <= f1)%nat -> (String.length s <= f2)%nat ->
               validLoop f1 s = validLoop f2 s.
Proof.
  induction f1 as [|f1 IH]; intros f2 s H1 H2.
  - destruct s; [|cbn in H1; lia]. by destruct f2.
  - destruct f2 as [|f2].
    + destruct s; [done|cbn in H2; lia].
    + destruct s as [|c r]; [done|].
      cbn [validLoop]. destruct (runeLen (String c r)) as [n|] eqn:Hn; [|done].
      apply runeLen_bounds in Hn as Hb.
      apply IH; rewrite dropS_length; cbn in *; lia.
Qed.

Lemma length_append (s t : string) :
  String.length (s +:+ t) = (String.length s + String.length t)%nat.
Proof.
  induction s as [|c s IH]; [by rewrite append_empty_l|].
  rewrite append_cons. cbn. by rewrite IH.
Qed.

Lemma dropS_append (s t : string) : dropS (String.length s) (s +:+ t) = t.
Proof.
  induction s as [|c s IH]; [rewrite append_empty_l; by destruct t|].
  rewrite append_cons. cbn. exact IH.
Qed.

Lemma takeS_length (n : nat) (s : string) :
  (n <= String.length s)%nat -> String.length (takeS n s) = n.
Proof.
  revert s. induction n as [|n IH]; intros [|c r] H; cbn in *; try done; try lia.
  rewrite IH; [done|lia].
Qed.

(** The bytes of one rune decode as that rune whatever follows them. *)
Lemma runeLen_takeS (s t : string) (n : nat) :
  runeLen s = Some n -> runeLen (takeS n s +:+ t) = Some n.
Proof.
  unfold runeLen.
  destruct s as [|c0 r0]; [done|].
  destruct (first (N_of_ascii c0)) as [| |sz lo hi] eqn:Hf; [| done |].
  { intros [= <-]. cbn [takeS]. rewrite !append_cons, ?append_empty_l.
    by rewrite Hf. }
  destruct r0 as [|c1 r1]; [done|].
  destruct (between lo hi c1) eqn:H1; cbn [negb]; [|done].
  destruct (sz <=? 2)%nat eqn:E2.
  { intros [= <-]. cbn [takeS]. rewrite !append_cons, ?append_empty_l.
    by rewrite Hf, H1, E2. }
  destruct r1 as [|c2 r2]; [done|].
  destruct (cont c2) eqn:H2; cbn [negb]; [|done].
  destruct (sz <=? 3)%nat eqn:E3.
  { intros [= <-]. cbn [takeS]. rewrite !append_cons, ?append_empty_l.
    by rewrite Hf, H1, E2, H2, E3. }
  destruct r2 as [|c3 r3]; [done|].
  destruct (cont c3) eqn:H3; [|done].
  intros [= <-]. cbn [takeS]. rewrite !append_cons, ?append_empty_l.
  by rewrite Hf, H1, E2, H2, E3, H3.
Qed.

Lemma validLoop_rune (s t : string) (n : nat) :
  runeLen s = Some n -> ValidString t = true ->
  ValidString (takeS n s +:+ t) = true.
Proof.
  intros Hn Ht. unfold ValidString.
  apply runeLen_bounds in Hn as Hb.
  pose proof (runeLen_takeS s t n Hn) as Hr.
  pose proof (takeS_length n s ltac:(lia)) as Hl.
  rewrite length_append, Hl.
  destruct n as [|n]; [lia|]. cbn [Nat.add validLoop].
  destruct (takeS (S n) s +:+ t) as [|c r] eqn:Hs.
  - done.
  - rewrite Hr, <- Hs. rewrite <- Hl at 1. rewrite dropS_append.
    rewrite <- Ht. apply validLoop_fuel; lia.
Qed.

Lemma runeLen_replacement : runeLen replacement = Some 3%nat.
Proof. reflexivity. Qed.

Lemma coerceLoop_ValidString (fuel : nat) :
  forall s, ValidString (coerceLoop fuel s) = true.
Proof.
  induction fuel as [|fuel IH]; intros s; [done|].
  destruct s as [|c r]; [done|]. cbn [coerceLoop].
  destruct (runeLen (String c r)) as [n|] eqn:Hn.
  - by apply validLoop_rune.
  - apply (validLoop_rune replacement _ 3 runeLen_replacement (IH r)).
Qed.

(** What [json.Marshal] writes for a string is valid UTF-8, so writing
    it again changes nothing. *)
Lemma ToValidUTF8_idemp (s : string) :
  ToValidUTF8 (ToValidUTF8 s) = ToValidUTF8 s.
Proof. apply ToValidUTF8_valid. apply coerceLoop_ValidString. Qed.

End Utf8Coercion.

(** ** Channel buffers stay within their capacity *)

Section BufferBound.

Import Sse SseObs.

Lemma bounded_heap (s t : Server) : heap t = heap s -> bounded s -> bounded t.
Proof. intros He Hb c ch Hc. rewrite He in Hc. eauto. Qed.

Lemma bounded_insert (s : Server) (c : nat) (ch : Chan) :
  bounded s -> (length (buf ch) <= chanCap)%nat ->
  bounded (withHeap (<[c := ch]> (heap s)) s).
Proof.
  intros Hb Hl c' ch' Hc'. cbn in Hc'.
  destruct (decide (c = c')) as [->|Hne].
  - rewrite lookup_insert_eq in Hc'. congruence.
  - rewrite lookup_insert_ne in Hc' by done. eauto.
Qed.

Lemma bounded_trySend (a : AlertMessage) (c : nat) (s : Server) (h : gmap nat Chan) :
  bounded s -> trySend a c (heap s) = Sent h -> bounded (withHeap h s).
Proof.
  intros Hb Hs. apply trySend_Sent in Hs as (ch & Hc & _ & Hf & ->).
  apply bounded_insert; [done|]. cbn.
  unfold isFull in Hf. apply negb_false_iff, Nat.ltb_lt in Hf.
  rewrite length_app. cbn. lia.
Qed.

Lemma bounded_sendTo (a : AlertMessage) (s : Server) (c : nat) :
  bounded s -> bounded (sendTo a s c).
Proof.
  intros Hb. unfold sendTo. destruct (crashed s); [done|].
  destruct (trySend a c (heap s)) eqn:Hs.
  - by eapply bounded_trySend.
  - by eapply bounded_heap.
  - by eapply bounded_heap.
Qed.

Lemma bounded_sendAll (a : AlertMessage) (order : list nat) :
  forall s, bounded s -> bounded (sendAll a order s).
Proof.
  induction order as [|c order IH]; intros s Hb; [done|].
  cbn. apply IH. by apply bounded_sendTo.
Qed.

Lemma bounded_broadcast (a : AlertMessage) (s : Server) :
  bounded s -> bounded (broadcastToClients a s).
Proof.
  intros Hb. unfold broadcastToClients.
  destruct (_ =? _)%nat.
  - by eapply bounded_heap.
  - apply bounded_sendAll. by eapply bounded_heap.
Qed.

Lemma bounded_listen (r : received) (s : Server) :
  bounded s -> bounded (listenForAlerts r s).
Proof.
  intros Hb. unfold listenForAlerts. destruct r as [e|payload].
  - by eapply bounded_heap.
  - destruct (Unmarshal payload zeroAlert) as [alert [e|]].
    + by eapply bounded_heap.
    + apply bounded_broadcast. by eapply bounded_heap.
Qed.

Lemma bounded_connect (s : Server) : bounded s -> bounded (connect s).
Proof.
  intros Hb c ch. unfold connect. cbn.
  destruct (decide (nextChan s = c)) as [->|Hne].
  - rewrite lookup_insert_eq. intros [= <-]. cbn. unfold chanCap. lia.
  - rewrite lookup_insert_ne by done. apply Hb.
Qed.

Lemma bounded_disconnect (c : nat) (s : Server) : bounded s -> bounded (disconnect c s).
Proof.
  intros Hb. unfold disconnect.
  destruct (heap s !! c) as [ch|] eqn:Hc; [|by eapply bounded_heap].
  destruct (closed ch); [by eapply bounded_heap|].
  intros c' ch'. cbn.
  destruct (decide (c = c')) as [->|Hne].
  - rewrite lookup_insert_eq. intros [= <-]. cbn. eauto.
  - rewrite lookup_insert_ne by done. apply Hb.
Qed.

Lemma bounded_serve (c : nat) (s : Server) : bounded s -> bounded (serve c s).
Proof.
  intros Hb. unfold serve.
  destruct (heap s !! c) as [[[|alert rest] cl]|] eqn:Hc; try done.
  assert (bounded (withHeap (<[c := MkChan rest cl]> (heap s)) s)) as Hb'.
  { apply bounded_insert; [done|]. apply Hb in Hc. cbn in *. lia. }
  destruct (Marshal alert); by eapply bounded_heap.
Qed.

Variable RFC3339 : Z -> string.

Lemma bounded_step (s : Server) (e : event) :
  bounded s -> bounded (step RFC3339 s e).
Proof.
  intros Hb. unfold step. destruct (crashed s); [done|].
  destruct e as [ok|c|c now|c|c|r].
  - destruct ok; [by apply bounded_connect|done].
  - by apply bounded_disconnect.
  - unfold heartbeat. destruct (decide _); [|done].
    destruct (trySend _ _ _) eqn:Hs.
    + by eapply bounded_trySend.
    + by eapply bounded_heap.
    + by eapply bounded_heap.
  - by eapply bounded_heap.
  - by apply bounded_serve.
  - by apply bounded_listen.
Qed.

Lemma bounded_run (es : list event) :
  forall s, bounded s -> bounded (run RFC3339 es s).
Proof.
  induction es as [|e es IH]; intros s Hb; [done|].
  cbn. apply IH. by apply bounded_step.
Qed.

(** X1: in every state the serving process can reach, no client channel
    holds more than [chanCap] = 10 undelivered messages. *)
Theorem buffers_never_exceed_capacity (s : Server) (c : nat) (ch : Chan) :
  reachable RFC3339 s -> heap s !! c = Some ch ->
  (length (buf ch) <= 10)%nat.
Proof.
  intros [es ->] Hc.
  assert (bounded (run RFC3339 es init)) as Hb.
  { apply bounded_run. intros c' ch'. cbn. by rewrite lookup_empty. }
  apply (Hb c ch Hc).
Qed.

End BufferBound.

Lemma buffers_never_exceed_capacity_witness :
  exists ch, Sse.heap Scenarios.threeSinks !! 0%nat = Some ch
             /\ (length (Sse.buf ch) <= 10)%nat.
Proof.
  assert (Sse.heap Scenarios.threeSinks !! 0%nat
          = Some (Sse.MkChan (repeat Scenarios.btcBelow 10) false)) as H
    by (vm_compute; reflexivity).
  eexists. split; [exact H|].
  apply (buffers_never_exceed_capacity Scenarios.plainFormat Scenarios.threeSinks 0 _).
  - exists (Scenarios.oneSaturated ++ [Sse.Request true; Sse.Request true]).
    reflexivity.
  - exact H.
Defined.

(** ** The streaming loop, and an alert's way to the browser *)

Section StreamingLoop.

Import Sse SseObs.

Lemma serve_one (c : nat) (s : Server) (a : AlertMessage) (b : list AlertMessage)
    (cl : bool) :
  heap s !! c = Some (MkChan (a :: b) cl) ->
  heap (serve c s) = <[c := MkChan b cl]> (heap s)
  /\ writtenTo c (serve c s) = writtenTo c s ++ eventsOf [a]
  /\ (forall c', c' <> c -> written (serve c s) !! c' = written s !! c')
  /\ length (zlog (serve c s)) = (length (zlog s) + length (refused [a]))%nat
  /\ clients (serve c s) = clients s /\ heartbeats (serve c s) = heartbeats s
  /\ nextChan (serve c s) = nextChan s /\ crashed (serve c s) = crashed s.
Proof.
  intros Hc. unfold serve, writtenTo, refused. rewrite Hc. cbn [eventsOf List.filter].
  destruct (Marshal a) as [alertData|e]; cbn.
  - rewrite lookup_insert_eq. cbn. repeat split; try done; try lia.
    intros c' Hne. by rewrite lookup_insert_ne.
  - rewrite app_nil_r, length_app. cbn. repeat split; done.
Qed.

Lemma serve_empty (c : nat) (s : Server) (cl : bool) :
  heap s !! c = Some (MkChan [] cl) -> serve c s = s.
Proof. intros Hc. unfold serve. by rewrite Hc. Qed.

Lemma eventsOf_cons (a : AlertMessage) (b : list AlertMessage) :
  eventsOf (a :: b) = eventsOf [a] ++ eventsOf b.
Proof. cbn. by destruct (Marshal a). Qed.

Lemma eventsOf_app (b1 b2 : list AlertMessage) :
  eventsOf (b1 ++ b2) = eventsOf b1 ++ eventsOf b2.
Proof.
  induction b1 as [|a b1 IH]; [done|].
  cbn. destruct (Marshal a); cbn; by rewrite IH.
Qed.

Lemma refused_cons (a : AlertMessage) (b : list AlertMessage) :
  length (refused (a :: b)) = (length (refused [a]) + length (refused b))%nat.
Proof. unfold refused. cbn. by destruct (Marshal a). Qed.

Lemma serve_iter (b : list AlertMessage) :
  forall (c : nat) (s : Server) (cl : bool),
    heap s !! c = Some (MkChan b cl) ->
    heap (Nat.iter (length b) (serve c) s) = <[c := MkChan [] cl]> (heap s)
    /\ writtenTo c (Nat.iter (length b) (serve c) s) = writtenTo c s ++ eventsOf b
    /\ (forall c', c' <> c ->
          written (Nat.iter (length b) (serve c) s) !! c' = written s !! c')
    /\ length (zlog (Nat.iter (length b) (serve c) s))
       = (length (zlog s) + length (refused b))%nat
    /\ clients (Nat.iter (length b) (serve c) s) = clients s
    /\ crashed (Nat.iter (length b) (serve c) s) = crashed s.
Proof.
  induction b as [|a b IH]; intros c s cl Hc.
  - cbn. rewrite app_nil_r, insert_id by done.
    repeat split; try done; try lia.
  - cbn [length]. rewrite Nat.iter_succ_r.
    destruct (serve_one c s a b cl Hc) as (Hh & Hw & Ho & Hl & Hcl & _ & _ & Hcr).
    assert (heap (serve c s) !! c = Some (MkChan b cl)) as Hc'
      by (by rewrite Hh, lookup_insert_eq).
    destruct (IH c (serve c s) cl Hc') as (Hh' & Hw' & Ho' & Hl' & Hcl' & Hcr').
    rewrite Hh', Hw', Hl', Hcl', Hcr', Hh, Hw, Hl, Hcl, Hcr, insert_insert_eq.
    rewrite (eventsOf_cons a b), (refused_cons a b), <- app_assoc.
    repeat split; try done; try lia.
    intros c' Hne. rewrite Ho' by done. by apply Ho.
Qed.

Variable RFC3339 : Z -> string.

Lemma run_Serve (c : nat) (n : nat) :
  forall s, crashed s = false ->
            run RFC3339 (repeat (Serve c) n) s = Nat.iter n (serve c) s.
Proof.
  induction n as [|n IH]; intros s Hs; [done|].
  rewrite Nat.iter_succ_r. cbn [repeat run fold_left]. unfold step at 2.
  rewrite Hs. apply IH. unfold serve.
  destruct (heap s !! c) as [[[|alert rest] cl]|]; try done.
  by destruct (Marshal alert).
Qed.

(** X2: the streaming loop of a connection writes the queued messages in
    the order they were queued, each once. After as many turns of the loop
    as there are messages in the buffer, the buffer is empty, the response
    has grown by the documents of the messages that marshal, one error is
    logged for each that does not, no other response and no registration
    has changed, and at a further turn the loop waits. *)
Theorem serve_drains_in_order (c : nat) (s : Server) (b : list AlertMessage)
    (cl : bool) :
  crashed s = false ->
  heap s !! c = Some (MkChan b cl) ->
  heap (run RFC3339 (repeat (Serve c) (length b)) s)
  = <[c := MkChan [] cl]> (heap s)
  /\ writtenTo c (run RFC3339 (repeat (Serve c) (length b)) s)
     = writtenTo c s ++ eventsOf b
  /\ (forall c', c' <> c ->
        written (run RFC3339 (repeat (Serve c) (length b)) s) !! c'
        = written s !! c')
  /\ length (zlog (run RFC3339 (repeat (Serve c) (length b)) s))
     = (length (zlog s) + length (refused b))%nat
  /\ clients (run RFC3339 (repeat (Serve c) (length b)) s) = clients s
  /\ step RFC3339 (run RFC3339 (repeat (Serve c) (length b)) s) (Serve c)
     = run RFC3339 (repeat (Serve c) (length b)) s.
Proof.
  intros Hlive Hc. rewrite run_Serve by done.
  destruct (serve_iter b c s cl Hc) as (Hh & Hw & Ho & Hl & Hcl & Hcr).
  repeat split; try done.
  unfold step. rewrite Hcr, Hlive. eapply serve_empty.
  by rewrite Hh, lookup_insert_eq.
Qed.

End StreamingLoop.

Lemma serve_drains_in_order_witness :
  SseObs.writtenTo 0 (Sse.run Scenarios.plainFormat (repeat (Sse.Serve 0) 10)
                        Scenarios.threeSinks)
  = repeat Scenarios.btcPayload 10.
Proof.
  assert (Sse.heap Scenarios.threeSinks !! 0%nat
          = Some (Sse.MkChan (repeat Scenarios.btcBelow 10) false)) as H
    by (vm_compute; reflexivity).
  destruct (serve_drains_in_order Scenarios.plainFormat 0 Scenarios.threeSinks
              (repeat Scenarios.btcBelow 10) false) as (_ & Hw & _).
  - vm_compute; reflexivity.
  - exact H.
  - cbn [length repeat] in Hw. cbn [repeat]. rewrite Hw. vm_compute. reflexivity.
Defined.

Section Relay.

Import Sse SseObs.

Variable RFC3339 : Z -> string.

Lemma Marshal_finite (a : AlertMessage) :
  PrimFloat.is_finite (Threshold a) = true ->
  Marshal a =
  Ok (Json.Object
        [ ("user_id", Json.Str (Utf8.ToValidUTF8 (UserID a)));
          ("symbol", Json.Str (Utf8.ToValidUTF8 (Symbol a)));
          ("threshold", Json.Number (Threshold a));
          ("triggered", Json.Str (Utf8.ToValidUTF8 (Triggered a)));
          ("timestamp", Json.Str (Utf8.ToValidUTF8 (Timestamp a))) ]).
Proof. intros Hf. unfold Marshal, Json.encodeFloat. by rewrite Hf. Qed.

(** X3: an alert with a finite threshold that the processor publishes
    reaches the browsers as the document that was published: the
    publisher hands Redis one document; the subscriber decodes it and
    queues the decoded alert on every registered channel with room; and
    the streaming loop of such a connection, once it has written what
    was queued before, writes that same document. *)
Theorem published_alert_is_streamed (fails : nat -> bool) (a : AlertMessage)
    (p : Publisher) (s : Server) :
  PrimFloat.is_finite (Threshold a) = true ->
  fails (Cache.calls (redis p)) = false ->
  reachable RFC3339 s -> crashed s = false ->
  exists doc a',
    Cache.accepted (redis (snd (BroadcastAlert fails a p)))
    = Cache.accepted (redis p) ++ [(alertsChannel, doc)]
    /\ Unmarshal (Some doc) zeroAlert = (a', None)
    /\ forall c ch,
         is_Some (clients s !! c) -> heap s !! c = Some ch -> isFull ch = false ->
         heap (listenForAlerts (Message (Some doc)) s) !! c
         = Some (MkChan (buf ch ++ [a']) false)
         /\ writtenTo c (Nat.iter (length (buf ch ++ [a'])) (serve c)
                           (listenForAlerts (Message (Some doc)) s))
            = writtenTo c s ++ eventsOf (buf ch) ++ [doc].
Proof.
  intros Hfin Hok Hr Hlive.
  pose proof (Marshal_finite a Hfin) as Hm.
  set (doc := Json.Object _) in Hm.
  set (a' := MkAlertMessage (Utf8.ToValidUTF8 (UserID a)) (Utf8.ToValidUTF8 (Symbol a))
                            (Threshold a) (Utf8.ToValidUTF8 (Triggered a))
                            (Utf8.ToValidUTF8 (Timestamp a))).
  assert (Unmarshal (Some doc) zeroAlert = (a', None)) as Hu.
  { unfold doc. rewrite Unmarshal_five. unfold a'.
    by rewrite !ToValidUTF8_idemp. }
  assert (Marshal a' = Ok doc) as Hm'.
  { rewrite (Marshal_finite a') by exact Hfin. unfold a', doc.
    cbn [UserID Symbol Threshold Triggered Timestamp].
    by rewrite !ToValidUTF8_idemp. }
  exists doc, a'. split; [|split; [exact Hu|]].
  - unfold BroadcastAlert. rewrite Hm. unfold Cache.PublishMessage. cbn.
    by rewrite Hok.
  - intros c ch Hreg Hc Hfull.
    unfold listenForAlerts. rewrite Hu.
    set (s0 := logged _ s).
    apply reachable_registry_ok in Hr as [Hopen _].
    destruct (Hopen c Hreg) as (ch0 & Hc0 & Hcl). rewrite Hc in Hc0.
    injection Hc0 as <-.
    destruct (broadcastToClients_spec a' s0 Hlive Hopen)
      as (Hheap & _ & _ & _ & _ & Hwr & _).
    assert (heap (broadcastToClients a' s0) !! c
            = Some (MkChan (buf ch ++ [a']) false)) as Hq.
    { rewrite Hheap. cbn. rewrite decide_True by done. rewrite Hc. cbn.
      unfold deliver. by rewrite Hfull. }
    split; [exact Hq|].
    destruct (serve_iter _ c _ false Hq) as (_ & Hw & _).
    rewrite Hw. unfold writtenTo at 1. rewrite Hwr. cbn.
    rewrite eventsOf_app. cbn [eventsOf]. by rewrite Hm'.
Qed.

End Relay.

Lemma published_alert_is_streamed_witness :
  exists doc a',
    Cache.accepted (Sse.redis (snd (Sse.BroadcastAlert (fun _ => false)
                                      Scenarios.btcBelow Scenarios.freshPublisher)))
    = [(Sse.alertsChannel, doc)]
    /\ Sse.Unmarshal (Some doc) Sse.zeroAlert = (a', None)
    /\ Sse.heap (Sse.listenForAlerts (Sse.Message (Some doc)) Scenarios.threeSinks)
         !! 1%nat = Some (Sse.MkChan [a'] false).
Proof.
  destruct (published_alert_is_streamed Scenarios.plainFormat (fun _ => false)
              Scenarios.btcBelow Scenarios.freshPublisher Scenarios.threeSinks)
    as (doc & a' & Hacc & Hu & Hall).
  - vm_compute; reflexivity.
  - reflexivity.
  - exists (Scenarios.oneSaturated ++ [Sse.Request true; Sse.Request true]).
    reflexivity.
  - vm_compute; reflexivity.
  - exists doc, a'. split; [exact Hacc|]. split; [exact Hu|].
    destruct (Hall 1%nat (Sse.MkChan [] false)) as [Hq _].
    + vm_compute. eexists; reflexivity.
    + vm_compute; reflexivity.
    + vm_compute; reflexivity.
    + exact Hq.
Defined.

(** ** The registry without deferred functions *)

Section RegistryGrowth.

Import Sse SseObs.

Lemma allRegistered_open (s : Server) :
  allRegistered s ->
  forall c, is_Some (clients s !! c) ->
            exists ch, heap s !! c = Some ch /\ closed ch = false.
Proof.
  intros (_ & Hcl & Hop & Hex) c Hc. rewrite Hcl in Hc.
  destruct (c <? nextChan s)%nat eqn:E; [|by destruct Hc].
  apply Nat.ltb_lt in E. destruct (Hex c E) as [ch Hch]. eauto.
Qed.

Lemma allRegistered_logged (e : Zap.entry) (s : Server) :
  allRegistered s -> allRegistered (logged e s).
Proof. done. Qed.

Lemma allRegistered_insert (s : Server) (c : nat) (ch : Chan) :
  allRegistered s -> is_Some (heap s !! c) -> closed ch = false ->
  allRegistered (withHeap (<[c := ch]> (heap s)) s).
Proof.
  intros (Hcr & Hcl & Hop & Hex) Hc Hch. repeat split; cbn; try done.
  - intros c' ch'. destruct (decide (c = c')) as [->|Hne].
    + rewrite lookup_insert_eq. by intros [= <-].
    + rewrite lookup_insert_ne by done. apply Hop.
  - intros c' Hlt. destruct (decide (c = c')) as [->|Hne].
    + by rewrite lookup_insert_eq.
    + rewrite lookup_insert_ne by done. by apply Hex.
Qed.

Lemma allRegistered_trySend (a : AlertMessage) (c : nat) (s : Server) :
  allRegistered s ->
  match trySend a c (heap s) with
  | Sent h => allRegistered (withHeap h s)
  | WouldBlock => True
  | SendPanics => False
  end.
Proof.
  intros Ha. destruct (trySend a c (heap s)) eqn:Hs; [|done|].
  - apply trySend_Sent in Hs as (ch & Hc & _ & _ & ->).
    apply allRegistered_insert; [done|by rewrite Hc|done].
  - unfold trySend in Hs. destruct (heap s !! c) as [ch|] eqn:Hc; [|done].
    destruct Ha as (_ & _ & Hop & _). rewrite (Hop c ch Hc) in Hs.
    by destruct (_ <? _)%nat.
Qed.

Lemma allRegistered_broadcast (a : AlertMessage) (s : Server) :
  allRegistered s ->
  allRegistered (broadcastToClients a s)
  /\ nextChan (broadcastToClients a s) = nextChan s.
Proof.
  intros Ha. pose proof Ha as (Hcr & Hcl & Hop & Hex).
  destruct (broadcastToClients_spec a s Hcr (allRegistered_open s Ha))
    as (Hheap & _ & Hn & Hc & _ & _ & Hcr').
  split; [|done]. repeat split; try done.
  - intros c. by rewrite Hc, Hn.
  - intros c ch. rewrite Hheap. destruct (decide _) as [Hreg|_]; [|apply Hop].
    destruct (heap s !! c) as [ch0|] eqn:Hc0; [|done]. cbn. intros [= <-].
    apply deliver_closed. by eapply Hop.
  - intros c Hlt. rewrite Hn in Hlt. rewrite Hheap.
    destruct (Hex c Hlt) as [ch Hch]. rewrite Hch. by destruct (decide _).
Qed.

Variable RFC3339 : Z -> string.

Lemma allRegistered_step (s : Server) (e : event) :
  isUnwind e = false -> allRegistered s ->
  allRegistered (step RFC3339 s e)
  /\ nextChan (step RFC3339 s e)
     = (nextChan s + if registers e then 1 else 0)%nat.
Proof.
  intros Hu Ha. pose proof Ha as (Hcr & Hcl & Hop & Hex).
  unfold step. rewrite Hcr.
  destruct e as [ok|c|c now|c|c|r]; try done; cbn [registers].
  - destruct ok; cbn; [|split; [done|lia]].
    split; [|lia]. repeat split; cbn; try done.
    + intros c. destruct (decide (nextChan s = c)) as [<-|Hne].
      * rewrite lookup_insert_eq. by rewrite Nat.leb_refl.
      * rewrite lookup_insert_ne by done. rewrite Hcl.
        repeat match goal with
               | |- context [(?a <? ?b)%nat] => destruct (Nat.ltb_spec a b)
               | |- context [(?a <=? ?b)%nat] => destruct (Nat.leb_spec a b)
               end; done || lia.
    + intros c ch. destruct (decide (nextChan s = c)) as [<-|Hne].
      * rewrite lookup_insert_eq. by intros [= <-].
      * rewrite lookup_insert_ne by done. apply Hop.
    + intros c Hlt. destruct (decide (nextChan s = c)) as [<-|Hne].
      * by rewrite lookup_insert_eq.
      * rewrite lookup_insert_ne by done. apply Hex. lia.
  - unfold heartbeat. destruct (decide _); [|split; [done|lia]].
    pose proof (allRegistered_trySend (heartbeatMessage RFC3339 now) c s Ha) as Ht.
    destruct (trySend _ _ _); [|split; [exact Ha|cbn; lia]|done].
    split; [done|cbn; lia].
  - unfold serve.
    destruct (heap s !! c) as [[[|alert rest] cl]|] eqn:Hc;
      try (split; [done|lia]).
    assert (allRegistered (withHeap (<[c := MkChan rest cl]> (heap s)) s)) as Ha'.
    { apply allRegistered_insert; [done|by rewrite Hc|]. apply (Hop c _ Hc). }
    destruct (Marshal alert); (split; [done|cbn; lia]).
  - unfold listenForAlerts. destruct r as [e|payload].
    + split; [done|cbn; lia].
    + destruct (Unmarshal payload zeroAlert) as [alert [e|]].
      * split; [done|cbn; lia].
      * match goal with |- context [broadcastToClients ?a ?s0] =>
          destruct (allRegistered_broadcast a s0) as [H1 H2]; [done|] end.
        split; [done|]. rewrite H2. cbn. lia.
Qed.

Lemma allRegistered_run (es : list event) :
  forall s,
    Forall (fun e => isUnwind e = false) es -> allRegistered s ->
    allRegistered (run RFC3339 es s)
    /\ nextChan (run RFC3339 es s)
       = (nextChan s + length (List.filter registers es))%nat.
Proof.
  induction es as [|e es IH]; intros s Hes Ha.
  - split; [done|cbn; lia].
  - apply Forall_cons in Hes as [He Hes].
    destruct (allRegistered_step s e He Ha) as [Ha' Hn'].
    destruct (IH _ Hes Ha') as [Ha'' Hn''].
    split; [done|]. cbn [run fold_left] in *. unfold run in Hn''. rewrite Hn'', Hn'.
    cbn [List.filter]. destruct (registers e); cbn; lia.
Qed.

(** X4: a sink leaves the registry through the handler's deferred function
    only. Along every run in which no deferred function runs, whatever
    else happens (heartbeats sent or missed, request contexts done, alerts
    served, delivered or dropped, bad messages), nothing panics and every sink
    ever registered is still registered, its channel open: the count is
    the number of requests that were registered. *)
Theorem registry_shrinks_only_by_deferred_function (es : list event) :
  Forall (fun e => isUnwind e = false) es ->
  crashed (run RFC3339 es init) = false
  /\ clientCount (run RFC3339 es init) = length (List.filter registers es)
  /\ forall c, (c < length (List.filter registers es))%nat ->
               clients (run RFC3339 es init) !! c = Some true
               /\ exists ch, heap (run RFC3339 es init) !! c = Some ch
                             /\ closed ch = false.
Proof.
  intros Hes.
  assert (allRegistered init) as H0.
  { repeat split; try done. intros c Hlt. cbn in Hlt. lia. }
  destruct (allRegistered_run es init Hes H0) as [Ha Hn]. cbn in Hn.
  pose proof Ha as (Hcr & Hcl & Hop & Hex).
  split; [done|]. split.
  - unfold clientCount. rewrite <- Hn.
    rewrite (size_keys _ (seq 0 (nextChan (run RFC3339 es init)))).
    + by rewrite length_seq.
    + apply NoDup_seq.
    + intros k. rewrite Hcl, list_elem_of_In, List.in_seq.
      destruct (k <? _)%nat eqn:E.
      * apply Nat.ltb_lt in E. split; [eauto|lia].
      * apply Nat.ltb_ge in E. split; [lia|by intros []].
  - intros c Hlt. rewrite <- Hn in Hlt. split.
    + rewrite Hcl. by rewrite (proj2 (Nat.ltb_lt _ _) Hlt).
    + destruct (Hex c Hlt) as [ch Hch]. exists ch. split; [done|]. by eapply Hop.
Qed.

End RegistryGrowth.

Lemma registry_shrinks_only_by_deferred_function_witness :
  Sse.clientCount
    (Sse.run Scenarios.plainFormat
       (Scenarios.oneSaturated ++ [Sse.HeartbeatTick 0 15; Sse.ContextDone 0])
       Sse.init) = 1%nat.
Proof.
  destruct (registry_shrinks_only_by_deferred_function Scenarios.plainFormat
              (Scenarios.oneSaturated ++ [Sse.HeartbeatTick 0 15; Sse.ContextDone 0]))
    as (_ & Hc & _).
  - repeat constructor.
  - rewrite Hc. reflexivity.
Defined.

(** ** Messages the subscriber rejects *)

Section PoisonMessages.

Import Sse SseObs.



Lemma sameButLog_logged_r (e : Zap.entry) (s t : Server) :
  sameButLog s t -> sameButLog s (logged e t).
Proof. done. Qed.




Variable RFC3339 : Z -> string.




End PoisonMessages.


(** ** What one price update sends, and the growth of the cooldown map *)

Section TickFacts.

Import Processor Ticks.

Variable env : Env.

Lemma evalAlert_crossed (priceUpdate : PriceUpdate) (alert : Models.Alert)
    (w : World) :
  exists evs,
    sentAlerts (console (exec (evalAlert env priceUpdate alert) w))
    = sentAlerts (console w) ++ evs
    /\ Forall (crossedBy priceUpdate alert) evs
    /\ (length evs <= 2)%nat
    /\ (lastAlertTime (exec (evalAlert env priceUpdate alert) w) = lastAlertTime w
        \/ exists t, lastAlertTime (exec (evalAlert env priceUpdate alert) w)
                     = <[alertKey alert := t]> (lastAlertTime w)).
Proof.
  destruct (windowElapsed_cases env (alertKey alert) w) as [Hel|(t & Hl & Hlt)].
  - destruct (evalAlert_evaluated env priceUpdate alert w Hel _ _ _
                eq_refl eq_refl eq_refl) as (Hc & Hm & _).
    set (n0 := clockReads _) in *.
    set (lows := match lowerCrossing priceUpdate alert with
                 | Some lower => [_] | None => [] end) in *.
    set (ups := match upperCrossing priceUpdate alert with
                | Some upper => [_] | None => [] end) in *.
    exists (lows ++ ups). split; [|split; [|split]].
    + rewrite Hc, !sentAlerts_app, sentAlerts_Triggering.
      destruct (lows ++ ups); cbn; by rewrite app_nil_r.
    + apply Forall_app. split.
      * unfold lows. destruct (lowerCrossing priceUpdate alert) as [thr|] eqn:E;
          [|constructor].
        apply lowerCrossing_Some in E as [E1 E2].
        constructor; [|constructor].
        split; [done|]. split; [done|]. left. by repeat split.
      * unfold ups. destruct (upperCrossing priceUpdate alert) as [thr|] eqn:E;
          [|constructor].
        apply upperCrossing_Some in E as [E1 E2].
        constructor; [|constructor].
        split; [done|]. split; [done|]. right. by repeat split.
    + rewrite length_app. unfold lows, ups.
      destruct (lowerCrossing _ _), (upperCrossing _ _); cbn; lia.
    + rewrite Hm. destruct (lows ++ ups); [by left|right; eauto].
  - exists []. unfold exec.
    rewrite (evalAlert_suppressed env priceUpdate alert w t Hl Hlt).
    cbn. rewrite sentAlerts_app. cbn.
    repeat split; try done; try lia; by left.
Qed.

Lemma evalAlerts_crossed (priceUpdate : PriceUpdate) (alerts : list Models.Alert) :
  forall w,
    exists evs,
      sentAlerts (console (exec (evalAlerts env priceUpdate alerts) w))
      = sentAlerts (console w) ++ evs
      /\ Forall (fun e => exists alert, alert ∈ alerts
                                        /\ crossedBy priceUpdate alert e) evs
      /\ (length evs <= 2 * length alerts)%nat
      /\ (forall key,
            is_Some (lastAlertTime w !! key) ->
            is_Some (lastAlertTime (exec (evalAlerts env priceUpdate alerts) w) !! key))
      /\ (forall key,
            is_Some (lastAlertTime (exec (evalAlerts env priceUpdate alerts) w) !! key) ->
            is_Some (lastAlertTime w !! key)
            \/ exists alert, alert ∈ alerts /\ alertKey alert = key).
Proof.
  induction alerts as [|alert rest IH]; intros w.
  - exists []. cbn. rewrite app_nil_r. repeat split; try done; try lia. by left.
  - cbn [evalAlerts]. rewrite exec_bind.
    destruct (evalAlert_crossed priceUpdate alert w) as (e1 & H1 & F1 & L1 & M1).
    set (w1 := exec (evalAlert env priceUpdate alert) w) in *.
    destruct (IH w1) as (e2 & H2 & F2 & L2 & K2 & N2).
    exists (e1 ++ e2). split; [|split; [|split; [|split]]].
    + by rewrite H2, H1, app_assoc.
    + apply Forall_app. split.
      * eapply Forall_impl; [exact F1|]. intros e He. exists alert.
        split; [by left|done].
      * eapply Forall_impl; [exact F2|]. intros e (a & Ha & He). exists a.
        split; [by right|done].
    + rewrite length_app. cbn [length]. lia.
    + intros key Hk. apply K2. destruct M1 as [->|[t ->]]; [done|].
      destruct (decide (alertKey alert = key)) as [->|Hne].
      * by rewrite lookup_insert_eq.
      * by rewrite lookup_insert_ne.
    + intros key Hk. apply N2 in Hk as [Hk|(a & Ha & Hk)].
      * destruct M1 as [M1|[t M1]]; rewrite M1 in Hk; [by left|].
        destruct (decide (alertKey alert = key)) as [<-|Hne].
        -- right. exists alert. split; [by left|done].
        -- rewrite lookup_insert_ne in Hk by done. by left.
      * right. exists a. split; [by right|done].
Qed.

Lemma insertDesc_elem (a b : Models.Alert) (l : list Models.Alert) :
  b ∈ Database.insertDesc a l <-> b = a \/ b ∈ l.
Proof.
  induction l as [|c l IH]; cbn.
  - rewrite list_elem_of_singleton. split; [by left|]. intros [|H]; [done|].
    by apply elem_of_nil in H.
  - destruct (_ <? _); rewrite !elem_of_cons; [done|]. rewrite IH. tauto.
Qed.

Lemma orderByCreatedAtDesc_elem (b : Models.Alert) (l : list Models.Alert) :
  b ∈ Database.orderByCreatedAtDesc l <-> b ∈ l.
Proof.
  induction l as [|a l IH]; cbn; [done|].
  rewrite insertDesc_elem, elem_of_cons, IH. tauto.
Qed.



Lemma rowsFor_elem (db : Database.DB) (symbol : string) (a : Models.Alert) :
  a ∈ rowsFor db symbol <-> a ∈ Database.table db /\ Models.Symbol a = symbol.
Proof.
  unfold rowsFor. rewrite !list_elem_of_In, List.filter_In.
  by rewrite String.eqb_eq.
Qed.

Lemma processPriceUpdate_ok (db : Database.DB) (priceUpdate : PriceUpdate)
    (w : World) :
  Database.failing db = false ->
  exec (processPriceUpdate env db priceUpdate) w
  = exec (evalAlerts env priceUpdate
            (Database.orderByCreatedAtDesc (rowsFor db (Symbol priceUpdate))))
         (MkWorld (lastAlertTime w) (clockReads w) (console w)
                  (Sse.MkPublisher (Sse.plog (pub w)) (Sse.redis (pub w)))).
Proof.
  intros Hf. unfold processPriceUpdate, Database.GetAlertsBySymbol, exec, rowsFor.
  by rewrite Hf.
Qed.

Lemma processPriceUpdate_failing (db : Database.DB) (priceUpdate : PriceUpdate)
    (w : World) :
  Database.failing db = true ->
  exists entry,
    exec (processPriceUpdate env db priceUpdate) w
    = MkWorld (lastAlertTime w) (clockReads w)
              (console w ++ [FailedToFetch DatabaseError])
              (Sse.MkPublisher (Sse.plog (pub w) ++ [entry]) (Sse.redis (pub w))).
Proof.
  intros Hf. unfold processPriceUpdate, Database.GetAlertsBySymbol, exec.
  rewrite Hf. by eexists.
Qed.


Lemma processPriceUpdate_keys (db : Database.DB) (priceUpdate : PriceUpdate)
    (w : World) :
  (forall key,
     is_Some (lastAlertTime w !! key) ->
     is_Some (lastAlertTime (exec (processPriceUpdate env db priceUpdate) w) !! key))
  /\ (forall key,
        is_Some (lastAlertTime (exec (processPriceUpdate env db priceUpdate) w) !! key) ->
        is_Some (lastAlertTime w !! key)
        \/ exists alert, alert ∈ Database.table db
                         /\ Models.Symbol alert = Symbol priceUpdate
                         /\ alertKey alert = key).
Proof.
  destruct (Database.failing db) eqn:Hf.
  - destruct (processPriceUpdate_failing db priceUpdate w Hf) as [entry ->].
    cbn. split; [done|]. intros key Hk. by left.
  - rewrite (processPriceUpdate_ok db priceUpdate w Hf).
    set (w0 := MkWorld _ _ _ _).
    destruct (evalAlerts_crossed priceUpdate
                (Database.orderByCreatedAtDesc (rowsFor db (Symbol priceUpdate))) w0)
      as (evs & _ & _ & _ & K & N).
    split; [exact K|]. intros key Hk. apply N in Hk as [Hk|(a & Ha & Hk)]; [by left|].
    apply orderByCreatedAtDesc_elem, rowsFor_elem in Ha as [Ha Hs].
    right. by exists a.
Qed.

(** X7: the cooldown map only grows. Through any sequence of price
    updates no entry of [lastAlertTime] is ever removed, and every key
    that appears is the key of a stored alert on the symbol of one of the
    updates processed. *)
Theorem cooldown_map_only_grows (ticks : list (Database.DB * PriceUpdate)) :
  forall w,
    (forall key,
       is_Some (lastAlertTime w !! key) ->
       is_Some (lastAlertTime (exec (processAll env ticks) w) !! key))
    /\ (forall key,
          is_Some (lastAlertTime (exec (processAll env ticks) w) !! key) ->
          is_Some (lastAlertTime w !! key)
          \/ exists db priceUpdate alert,
               (db, priceUpdate) ∈ ticks
               /\ alert ∈ Database.table db
               /\ Models.Symbol alert = Symbol priceUpdate
               /\ alertKey alert = key).
Proof.
  induction ticks as [|[db priceUpdate] rest IH]; intros w.
  - split; [done|]. intros key Hk. by left.
  - cbn [processAll]. rewrite exec_bind.
    destruct (processPriceUpdate_keys db priceUpdate w) as [K1 N1].
    destruct (IH (exec (processPriceUpdate env db priceUpdate) w)) as [K2 N2].
    split.
    + intros key Hk. by apply K2, K1.
    + intros key Hk. apply N2 in Hk as [Hk|(db' & pu' & a & Hin & Ha)].
      * apply N1 in Hk as [Hk|(a & Ha)]; [by left|].
        right. exists db, priceUpdate, a. split; [by left|done].
      * right. exists db', pu', a. split; [by right|done].
Qed.

Lemma evalAlert_notices (priceUpdate : PriceUpdate) (alert : Models.Alert)
    (w : World) :
  exists ls,
    console (exec (evalAlert env priceUpdate alert) w) = console w ++ ls
    /\ (is_Some (lowerCrossing priceUpdate alert)
        \/ is_Some (upperCrossing priceUpdate alert) ->
        Suppressed (alertKey alert) ∈ ls
        \/ exists e, Triggering e ∈ ls /\ crossedBy priceUpdate alert e).
Proof.
  destruct (windowElapsed_cases env (alertKey alert) w) as [Hel|(t & Hl & Hlt)].
  - destruct (evalAlert_evaluated env priceUpdate alert w Hel _ _ _
                eq_refl eq_refl eq_refl) as (Hc & _).
    eexists. split; [exact Hc|]. intros Hcross. right.
    destruct (lowerCrossing priceUpdate alert) as [thr|] eqn:E.
    + apply lowerCrossing_Some in E as [E1 E2]. eexists. split.
      * cbn [app map]. by left.
      * split; [done|]. split; [done|]. left. by repeat split.
    + destruct (upperCrossing priceUpdate alert) as [thr|] eqn:E'.
      * apply upperCrossing_Some in E' as [E1 E2]. eexists. split.
        -- cbn [app map]. by left.
        -- split; [done|]. split; [done|]. right. by repeat split.
      * by destruct Hcross as [[? ?]|[? ?]].
  - exists [Suppressed (alertKey alert)]. unfold exec.
    rewrite (evalAlert_suppressed env priceUpdate alert w t Hl Hlt). cbn.
    split; [done|]. intros _. left. by left.
Qed.

Lemma evalAlerts_notices (priceUpdate : PriceUpdate) (alerts : list Models.Alert) :
  forall w,
    exists ls,
      console (exec (evalAlerts env priceUpdate alerts) w) = console w ++ ls
      /\ forall alert,
           alert ∈ alerts ->
           is_Some (lowerCrossing priceUpdate alert)
           \/ is_Some (upperCrossing priceUpdate alert) ->
           Suppressed (alertKey alert) ∈ ls
           \/ exists e, Triggering e ∈ ls /\ crossedBy priceUpdate alert e.
Proof.
  induction alerts as [|a rest IH]; intros w.
  - exists []. cbn. rewrite app_nil_r. split; [done|].
    intros alert Hin. by apply elem_of_nil in Hin.
  - cbn [evalAlerts]. rewrite exec_bind.
    destruct (evalAlert_notices priceUpdate a w) as (l1 & H1 & N1).
    destruct (IH (exec (evalAlert env priceUpdate a) w)) as (l2 & H2 & N2).
    exists (l1 ++ l2). split; [by rewrite H2, H1, app_assoc|].
    intros alert Hin Hcross. apply elem_of_cons in Hin as [->|Hin].
    + destruct (N1 Hcross) as [Hs|(e & He & Hc)].
      * left. apply elem_of_app. by left.
      * right. exists e. split; [|done]. apply elem_of_app. by left.
    + destruct (N2 alert Hin Hcross) as [Hs|(e & He & Hc)].
      * left. apply elem_of_app. by right.
      * right. exists e. split; [|done]. apply elem_of_app. by right.
Qed.

(** X21: no crossing goes unnoticed. When the query succeeds, every
    stored alert on the update's symbol whose lower threshold the price is
    at or below, or whose upper threshold the price is at or above, is
    either handed to [sendSSEAlert] in that call or reported as
    suppressed by the cooldown of its key: the call prints one of the two
    for it. *)
Theorem tick_notices_every_crossing (db : Database.DB)
    (priceUpdate : PriceUpdate) (w : World) :
  Database.failing db = false ->
  exists ls,
    console (exec (processPriceUpdate env db priceUpdate) w) = console w ++ ls
    /\ forall alert thr,
         alert ∈ Database.table db ->
         Models.Symbol alert = Symbol priceUpdate ->
         (Models.LowerThreshold alert = Some thr
          /\ PrimFloat.leb (Price priceUpdate) thr = true)
         \/ (Models.UpperThreshold alert = Some thr
             /\ PrimFloat.leb thr (Price priceUpdate) = true) ->
         Suppressed (alertKey alert) ∈ ls
         \/ exists e, Triggering e ∈ ls /\ crossedBy priceUpdate alert e.
Proof.
  intros Hf. rewrite (processPriceUpdate_ok db priceUpdate w Hf).
  set (w0 := MkWorld _ _ _ _).
  destruct (evalAlerts_notices priceUpdate
              (Database.orderByCreatedAtDesc (rowsFor db (Symbol priceUpdate))) w0)
    as (ls & Hc & Hn).
  exists ls. split; [exact Hc|].
  intros alert thr Hin Hs Hcross. apply Hn.
  - apply orderByCreatedAtDesc_elem, rowsFor_elem. by split.
  - destruct Hcross as [Hl|Hu].
    + left. exists thr. by apply lowerCrossing_Some.
    + right. exists thr. by apply upperCrossing_Some.
Qed.

End TickFacts.

Lemma tick_notices_every_crossing_witness :
  exists ls,
    Processor.console
      (Processor.exec
         (Processor.processPriceUpdate Scenarios.specEnv Scenarios.alertsDB
            (Scenarios.btcTick 89000%float)) Processor.start)
    = Processor.console Processor.start ++ ls
    /\ (Processor.Suppressed (Processor.alertKey Scenarios.btcAlert) ∈ ls
        \/ exists e, Processor.Triggering e ∈ ls
                     /\ Ticks.crossedBy (Scenarios.btcTick 89000%float)
                                        Scenarios.btcAlert e).
Proof.
  destruct (tick_notices_every_crossing Scenarios.specEnv Scenarios.alertsDB
              (Scenarios.btcTick 89000%float) Processor.start) as (ls & Hc & Hn).
  - reflexivity.
  - exists ls. split; [exact Hc|].
    apply (Hn Scenarios.btcAlert 90000%float).
    + by left.
    + reflexivity.
    + left. split; [reflexivity|]. vm_compute. reflexivity.
Defined.

(** ** The ingestion service *)

Section IngestionFacts.

Import Ingestion.

Variable parseJSON : string -> option Json.value.
Variable produceFails : nat -> bool.

Lemma nextBackoff_pow (k : nat) :
  nextBackoff (2 ^ Z.of_nat (Nat.min k 5) * GoTime.Second)
  = 2 ^ Z.of_nat (Nat.min (S k) 5) * GoTime.Second.
Proof.
  destruct k as [|[|[|[|[|k]]]]]; try reflexivity.
  replace (Nat.min (S (S (S (S (S k))))) 5) with 5%nat by lia.
  replace (Nat.min (S (S (S (S (S (S k)))))) 5) with 5%nat by lia.
  reflexivity.
Qed.

Lemma pow_min_bounds (k : nat) : 1 <= 2 ^ Z.of_nat (Nat.min k 5) <= 32.
Proof.
  assert (Nat.min k 5 <= 5)%nat as H by lia.
  destruct (Nat.min k 5) as [|[|[|[|[|[|m]]]]]]; try (split; by vm_compute).
  lia.
Qed.

Lemma run_cons (a : answer) (l : list answer) (s : State) :
  run parseJSON produceFails (a :: l) s
  = run parseJSON produceFails l (step parseJSON produceFails s a).
Proof. reflexivity. Qed.

Lemma step_dial_failed (s : State) (backoff : GoTime.Duration) :
  stage s = Dialing backoff ->
  step parseJSON produceFails s (Dial true)
  = MkState (Dialing (nextBackoff backoff)) (slept s ++ [backoff]) (openConns s)
            (wsWritten s) (kafka s) (producerClosed s)
            ((out s ++ [Connecting]) ++ [ConnectionFailed backoff]).
Proof. intros Hs. unfold step. by rewrite Hs. Qed.

Lemma dial_failures (n : nat) :
  forall (k : nat) (s : State),
    stage s = Dialing (2 ^ Z.of_nat (Nat.min k 5) * GoTime.Second) ->
    stage (run parseJSON produceFails (repeat (Dial true) n) s)
    = Dialing (2 ^ Z.of_nat (Nat.min (k + n) 5) * GoTime.Second)
    /\ slept (run parseJSON produceFails (repeat (Dial true) n) s)
       = slept s ++ map (fun i => 2 ^ Z.of_nat (Nat.min i 5) * GoTime.Second)
                        (seq k n)
    /\ openConns (run parseJSON produceFails (repeat (Dial true) n) s) = openConns s
    /\ kafka (run parseJSON produceFails (repeat (Dial true) n) s) = kafka s.
Proof.
  induction n as [|n IH]; intros k s Hs.
  - cbn. rewrite Nat.add_0_r, app_nil_r. by repeat split.
  - cbn [repeat]. rewrite run_cons, (step_dial_failed s _ Hs).
    match goal with |- context [run _ _ _ ?s1] => set (s' := s1) end.
    destruct (IH (S k) s') as (H1 & H2 & H3 & H4).
    { unfold s'. cbn [stage]. by rewrite nextBackoff_pow. }
    rewrite H1, H2, H3, H4.
    replace (S k + n)%nat with (k + S n)%nat by lia.
    repeat split; try done. unfold s'. cbn [slept seq map].
    by rewrite <- app_assoc.
Qed.

Lemma finite_storeFloat64 (name : string) (v : Json.value) :
  PrimFloat.is_finite (fst (JsonStruct.storeFloat64 name v PrimFloat.zero)) = true.
Proof.
  destruct v as [|b|x|s|l|ms]; try reflexivity.
  cbn. by destruct (PrimFloat.is_finite x) eqn:E.
Qed.

Lemma parsePrice_finite (priceStr : string) :
  PrimFloat.is_finite (parsePrice parseJSON priceStr) = true.
Proof.
  unfold parsePrice. destruct (parseJSON priceStr) as [v|]; [|reflexivity].
  apply finite_storeFloat64.
Qed.

Lemma publishToKafka_finite (priceData : Processor.PriceUpdate) (s : State) :
  PrimFloat.is_finite (Processor.Price priceData) = true ->
  exists value,
    PriceUpdateJson.Marshal priceData = Ok value
    /\ stage (publishToKafka produceFails priceData s) = stage s
    /\ slept (publishToKafka produceFails priceData s) = slept s
    /\ openConns (publishToKafka produceFails priceData s) = openConns s
    /\ producerClosed (publishToKafka produceFails priceData s) = producerClosed s
    /\ produceCalls (kafka (publishToKafka produceFails priceData s))
       = S (produceCalls (kafka s))
    /\ if produceFails (produceCalls (kafka s))
       then produced (kafka (publishToKafka produceFails priceData s))
            = produced (kafka s)
            /\ out (publishToKafka produceFails priceData s)
               = out s ++ [ErrorProducing]
       else produced (kafka (publishToKafka produceFails priceData s))
            = produced (kafka s) ++ [value]
            /\ out (publishToKafka produceFails priceData s)
               = out s ++ [SentToKafka value].
Proof.
  intros Hf. unfold publishToKafka, PriceUpdateJson.Marshal, Json.encodeFloat.
  rewrite Hf. eexists. split; [reflexivity|].
  destruct (produceFails _); cbn; by repeat split.
Qed.

Lemma handleMessage_frame (message : option Json.value) (s : State) :
  stage (handleMessage parseJSON produceFails message s) = stage s
  /\ slept (handleMessage parseJSON produceFails message s) = slept s
  /\ openConns (handleMessage parseJSON produceFails message s) = openConns s
  /\ producerClosed (handleMessage parseJSON produceFails message s)
     = producerClosed s
  /\ exists ls, out (handleMessage parseJSON produceFails message s) = out s ++ ls
                /\ List.filter isConnected ls = []
                /\ existsb isSubscriptionFailed ls = false
                /\ existsb isErrorMarshaling ls = false.
Proof.
  unfold handleMessage.
  destruct (Unmarshal message zeroTrade) as [trade [e|]].
  - repeat split; try done. by exists [ErrorParsingMessage e].
  - destruct (String.eqb _ _).
    + set (pu := Processor.MkPriceUpdate _ _ _ _).
      set (s1 := printed _ s).
      destruct (publishToKafka_finite pu s1) as (value & _ & H1 & H2 & H3 & H4 & _ & H5).
      { apply parsePrice_finite. }
      rewrite H1, H2, H3, H4. repeat split; try done.
      destruct (produceFails _); destruct H5 as [_ ->]; cbn;
        rewrite <- app_assoc; by eexists.
    + repeat split; try done. exists []. by rewrite app_nil_r.
Qed.

Lemma existsb_app_false {A} (f : A -> bool) (l1 l2 : list A) :
  existsb f l1 = false -> existsb f l2 = false -> existsb f (l1 ++ l2) = false.
Proof. intros H1 H2. by rewrite existsb_app, H1, H2. Qed.

Lemma step_invariants (s : State) (a : answer) :
  backoffBounded s -> resourcesHeld s ->
  existsb isErrorMarshaling (out s) = false ->
  backoffBounded (step parseJSON produceFails s a)
  /\ resourcesHeld (step parseJSON produceFails s a)
  /\ existsb isErrorMarshaling (out (step parseJSON produceFails s a)) = false.
Proof.
  intros Hb Hres Hm. pose proof Hb as [Hsl Hst]. pose proof Hres as Hr.
  unfold step, resourcesHeld in Hr |- *.
  destruct (stage s) as [backoff| | |] eqn:Hs.
  - destruct a as [[|]| |]; [| |done|done].
    + destruct Hst as [k ->]. unfold resourcesHeld, backoffBounded, dialed in *.
      cbn. rewrite !List.filter_app, !existsb_app. cbn.
      rewrite !app_nil_r, !orb_false_r. repeat split; try apply Hr; try done.
      * apply Forall_app. split; [done|]. constructor; [|constructor].
        unfold GoTime.Second. pose proof (pow_min_bounds k). lia.
      * exists (S k). apply nextBackoff_pow.
    + unfold resourcesHeld, backoffBounded, dialed in *.
      cbn. rewrite !List.filter_app, !existsb_app. cbn.
      rewrite !length_app, !orb_false_r. cbn.
      repeat split; try apply Hr; try done.
      destruct Hr as (-> & _). lia.
  - destruct a as [|[|]|]; [done| | |done].
    + unfold resourcesHeld, backoffBounded in *. cbn.
      rewrite !existsb_app. cbn. rewrite !orb_false_r, orb_true_r.
      by repeat split.
    + unfold resourcesHeld, backoffBounded, dialed in *. cbn.
      rewrite !List.filter_app, !existsb_app. cbn.
      rewrite !app_nil_r, !orb_false_r. by repeat split; try apply Hr.
  - destruct a as [| |[message|]]; [done|done| |].
    + destruct (handleMessage_frame message s)
        as (H1 & H2 & H3 & H4 & ls & H5 & H6 & H7 & H8).
      unfold resourcesHeld, backoffBounded, dialed in *.
      rewrite H1, H2, H3, H4, H5, Hs in *.
      rewrite List.filter_app, H6, app_nil_r.
      destruct Hr as (Ho & Hp & Hf).
      repeat split; try done; by apply existsb_app_false.
    + unfold resourcesHeld, backoffBounded, dialed in *. cbn.
      rewrite !List.filter_app, !existsb_app. cbn.
      rewrite !app_nil_r, !orb_false_r. repeat split; try apply Hr; try done.
      by exists 0%nat.
  - by destruct a.
Qed.

Lemma run_invariants (answers : list answer) :
  forall s,
    backoffBounded s -> resourcesHeld s ->
    existsb isErrorMarshaling (out s) = false ->
    backoffBounded (run parseJSON produceFails answers s)
    /\ resourcesHeld (run parseJSON produceFails answers s)
    /\ existsb isErrorMarshaling (out (run parseJSON produceFails answers s)) = false.
Proof.
  induction answers as [|a answers IH]; intros s H1 H2 H3; [done|].
  rewrite run_cons. destruct (step_invariants s a H1 H2 H3) as (H1' & H2' & H3').
  by apply IH.
Qed.

Lemma start_invariants :
  backoffBounded start /\ resourcesHeld start
  /\ existsb isErrorMarshaling (out start) = false.
Proof.
  repeat split; try done. cbn. by exists 0%nat.
Qed.

(** X8: [connectWebSocket] sleeps 1 s, 2 s, 4 s, 8 s, 16 s, 32 s and then
    32 s again and again between failed dials: the backoff is doubled
    while it is below 30 s, so it comes to rest at 32 s. Every call of
    [connectWebSocket] starts at 1 s again, and no sleep [main] ever
    makes is shorter than 1 s or longer than 32 s. *)
Theorem backoff_doubles_up_to_32s :
  (forall (n : nat) (s : State),
     stage s = Dialing initialBackoff ->
     slept (run parseJSON produceFails (repeat (Dial true) n) s)
     = slept s ++ map (fun i => 2 ^ Z.of_nat (Nat.min i 5) * GoTime.Second) (seq 0 n)
     /\ stage (run parseJSON produceFails (repeat (Dial true) n) s)
        = Dialing (2 ^ Z.of_nat (Nat.min n 5) * GoTime.Second))
  /\ (forall s, stage s = Reading ->
        stage (step parseJSON produceFails s (ReadMessage None))
        = Dialing (1 * GoTime.Second))
  /\ (forall answers,
        Forall (fun d => 1 * GoTime.Second <= d <= 32 * GoTime.Second)
               (slept (run parseJSON produceFails answers start))).
Proof.
  split; [|split].
  - intros n s Hs. destruct (dial_failures n 0 s Hs) as (H1 & H2 & _).
    by rewrite H1, H2.
  - intros s Hs. unfold step. by rewrite Hs.
  - intros answers.
    destruct start_invariants as (H1 & H2 & H3).
    destruct (run_invariants answers start H1 H2 H3) as ([H _] & _).
    eapply Forall_impl; [exact H|]. intros d. cbn. lia.
Qed.

(** X9: [main] keeps every connection it has dialed open until it
    returns, and it returns only after a subscription has failed: in
    every state [main] reaches, either it has not returned, the open
    connections are as many as the dials that succeeded and the producer
    is open, or it has returned after printing that the subscription
    failed, and the deferred calls have closed every connection and the
    producer. *)
Theorem connections_closed_only_at_exit (answers : list answer) :
  let s := run parseJSON produceFails answers start in
  (stage s <> Exited ->
   openConns s = dialed s /\ producerClosed s = false
   /\ existsb isSubscriptionFailed (out s) = false)
  /\ (stage s = Exited ->
      openConns s = 0%nat /\ producerClosed s = true
      /\ existsb isSubscriptionFailed (out s) = true).
Proof.
  intros s.
  destruct start_invariants as (H1 & H2 & H3).
  destruct (run_invariants answers start H1 H2 H3) as (_ & H & _).
  fold s in H. unfold resourcesHeld in H.
  destruct (stage s); split; try done.
Qed.

End IngestionFacts.

(** ** From a trade to a call of [processPriceUpdate] *)

Section DecodeFacts.

Context {F S : Type}.
Variable fields : list F.
Variable tag : F -> string.
Variable setField : F -> Json.value -> S -> S * option error.
Variable P : S -> Prop.
Hypothesis setField_P : forall f v a, P a -> P (fst (setField f v a)).



End DecodeFacts.

Section KafkaFacts.

Import Ingestion.



Lemma decode_tagged_string (tagOf : string) (s : string) :
  Utf8.ValidString s = true ->
  JsonStruct.storeString tagOf (Json.Str s) EmptyString = (s, None).
Proof. intros Hs. cbn. by rewrite ToValidUTF8_valid. Qed.


Variable parseJSON : string -> option Json.value.
Variable produceFails : nat -> bool.


End KafkaFacts.


(** ** What goes to Kafka, and what the processor makes of it *)

Section PublishedFacts.

Import Ingestion.

Variable parseJSON : string -> option Json.value.
Variable produceFails : nat -> bool.




End PublishedFacts.

Section ConsumerFacts.

Import Processor Consumer.

Variable env : Env.


End ConsumerFacts.

(** ** The alerts API: routing *)

Section Routing.

Import Models Api ApiSpec.

Lemma splitSlash_cons (s : string) : exists part parts, splitSlash s = part :: parts.
Proof.
  induction s as [|c r IH]; cbn; [by eexists _, _|].
  destruct (Ascii.eqb c "/"); [by eexists _, _|].
  destruct IH as (part & parts & ->). by eexists _, _.
Qed.

Lemma splitSlash_slashFree (id rest : string) :
  slashFree id = true ->
  splitSlash (id +:+ String "/" rest) = id :: splitSlash rest.
Proof.
  induction id as [|c r IH]; intros Hf.
  - rewrite append_empty_l. cbn. reflexivity.
  - rewrite append_cons. cbn in *. apply andb_prop in Hf as [Hc Hr].
    apply negb_true_iff in Hc. change (Ascii.eqb c "/") with (Ascii.eqb c "047").
    cbn in Hc. rewrite Hc, (IH Hr). reflexivity.
Qed.

Lemma splitSlash_whole (id : string) :
  slashFree id = true -> splitSlash id = [id].
Proof.
  induction id as [|c r IH]; intros Hf; [done|].
  cbn in *. apply andb_prop in Hf as [Hc Hr].
  apply negb_true_iff in Hc. rewrite Hc, (IH Hr). reflexivity.
Qed.

Lemma splitSlash_parts (s : string) :
  Forall (fun part => slashFree part = true) (splitSlash s)
  /\ join (splitSlash s) "/" = s.
Proof.
  induction s as [|c r [IH1 IH2]]; [split; [by repeat constructor|done]|].
  cbn [splitSlash]. destruct (Ascii.eqb c "/") eqn:Hc.
  - apply Ascii.eqb_eq in Hc as ->. split; [by constructor|].
    destruct (splitSlash_cons r) as (part & parts & E). rewrite E in *.
    cbn [join]. rewrite append_empty_l. by rewrite <- IH2.
  - destruct (splitSlash r) as [|part parts] eqn:E.
    { destruct (splitSlash_cons r) as (? & ? & H). by rewrite E in H. }
    apply Forall_cons in IH1 as [H1 H2]. split.
    + constructor; [|done]. cbn. by rewrite Hc, H1.
    + rewrite <- IH2. destruct parts; [done|]. cbn [join].
      by rewrite append_cons.
Qed.

Variable Sum256 : string -> string.
Variable timeJSON : Z -> result Json.value.
Variable instance : string.

(** The handler an id is passed to, by the method. *)
Lemma item_dispatch (env : Env) (r : Request) (w : World)
    (id : string) (more : list string) (p0 p1 : string) :
  splitSlash (Path r) = p0 :: p1 :: id :: more -> id <> EmptyString ->
  AlertsHandler Sum256 timeJSON instance env r w
  = if String.eqb (Method r) "GET"
    then GetAlertHandler timeJSON env r id w
    else if String.eqb (Method r) "PUT" || String.eqb (Method r) "PATCH"
    then UpdateAlertHandler timeJSON instance env r id w
    else if String.eqb (Method r) "DELETE"
    then DeleteAlertHandler timeJSON instance env r id w
    else (HttpError "Method not allowed" StatusMethodNotAllowed, w).
Proof.
  intros Hp Hid. unfold AlertsHandler. rewrite Hp. cbn [length nth Nat.leb].
  apply String.eqb_neq in Hid. by rewrite Hid.
Qed.

Lemma append_empty_r (s : string) : s +:+ EmptyString = s.
Proof. induction s as [|c s IH]; [done|]. by rewrite append_cons, IH. Qed.

Lemma splitSlash_item (id rest : string) :
  slashFree id = true ->
  rest = EmptyString \/ (exists rest', rest = String "/" rest') ->
  exists more, splitSlash ("/alerts/" +:+ id +:+ rest)
               = EmptyString :: "alerts" :: id :: more.
Proof.
  intros Hf Hrest. rewrite !append_cons, append_empty_l. cbn [splitSlash Ascii.eqb].
  cbn -[splitSlash String.append].
  destruct Hrest as [->|[rest' ->]].
  - rewrite append_empty_r, (splitSlash_whole id Hf). by exists [].
  - rewrite (splitSlash_slashFree id rest' Hf).
    destruct (splitSlash_cons rest') as (part & parts & ->). by eexists.
Qed.

(** X13: [AlertsHandler] routes by the third segment of the path and the
    method. The segments [strings.Split] gives contain no "/" and joined
    by "/" give back the path. A path /alerts/ID, and equally
    /alerts/ID/ followed by anything, addresses the alert ID: GET goes to
    [GetAlertHandler], PUT and PATCH alike to [UpdateAlertHandler],
    DELETE to [DeleteAlertHandler], each with that ID, and any other
    method is answered 405. The paths /alerts and /alerts/ address the
    collection: GET browses, POST creates, any other method is answered
    405. *)
Theorem alerts_routed_by_third_segment (env : Env) (r : Request) (w : World) :
  (Forall (fun part => slashFree part = true) (splitSlash (Path r))
   /\ join (splitSlash (Path r)) "/" = Path r)
  /\ (forall id rest,
        id <> EmptyString -> slashFree id = true ->
        rest = EmptyString \/ (exists rest', rest = String "/" rest') ->
        Path r = "/alerts/" +:+ id +:+ rest ->
        AlertsHandler Sum256 timeJSON instance env r w
        = if String.eqb (Method r) "GET"
          then GetAlertHandler timeJSON env r id w
          else if String.eqb (Method r) "PUT" || String.eqb (Method r) "PATCH"
          then UpdateAlertHandler timeJSON instance env r id w
          else if String.eqb (Method r) "DELETE"
          then DeleteAlertHandler timeJSON instance env r id w
          else (HttpError "Method not allowed" 405, w))
  /\ (Path r = "/alerts" \/ Path r = "/alerts/" ->
      AlertsHandler Sum256 timeJSON instance env r w
      = if String.eqb (Method r) "GET"
        then BrowseAlertsHandler Sum256 timeJSON instance env r w
        else if String.eqb (Method r) "POST"
        then CreateAlertHandler timeJSON instance env r w
        else (HttpError "Method not allowed" 405, w)).
Proof.
  split; [apply splitSlash_parts|]. split.
  - intros id rest Hid Hf Hrest Hp.
    destruct (splitSlash_item id rest Hf Hrest) as [more Hs].
    rewrite <- Hp in Hs. by apply (item_dispatch env r w id more _ _ Hs).
  - intros Hp. unfold AlertsHandler. by destruct Hp as [-> | ->].
Qed.

End Routing.

(** ** The alerts API: what gets into the table *)

Section ApiFacts.

Import Models Api ApiSpec.

Variable Sum256 : string -> string.
Variable timeJSON : Z -> result Json.value.
Variable instance : string.

Lemma invalidateBrowse_table (env : Env) (w : World) :
  table (invalidateBrowse instance env w) = table w.
Proof.
  unfold invalidateBrowse.
  by destruct (CacheStore.InvalidateByPrefix _ _ _ _ _ _ _) as [st lg].
Qed.


Lemma CreateAlertHandler_table (env : Env) (r : Request) (w : World) :
  table (snd (CreateAlertHandler timeJSON instance env r w)) = table w
  \/ exists alert,
       table (snd (CreateAlertHandler timeJSON instance env r w))
       = table w ++ [alert]
       /\ wellFormed alert.
Proof.
  unfold CreateAlertHandler.
  destruct (JsonStruct.Unmarshal createFields createTag setCreateField (Body r)
              zeroCreate) as [req [err|]]; [by left|].
  destruct (String.eqb (CUserID req) EmptyString) eqn:Hu; cbn [orb]; [by left|].
  destruct (String.eqb (CSymbol req) EmptyString) eqn:Hs; [by left|].
  apply String.eqb_neq in Hu, Hs. unfold Crud.CreateAlert.
  destruct (CUpperThreshold req) as [x|] eqn:Hup,
           (CLowerThreshold req) as [y|] eqn:Hlo,
           (execFails env); cbn [fst snd table]; try (by left);
    right; rewrite invalidateBrowse_table; eexists; (split; [reflexivity|]);
    repeat split; try done; cbn; eauto.
Qed.

Lemma find_ID (id : string) (tbl : Crud.Table) (a : Alert) :
  List.find (fun a => String.eqb (ID a) id) tbl = Some a ->
  a ∈ tbl /\ ID a = id.
Proof.
  intros H. apply List.find_some in H as [Hin He].
  apply String.eqb_eq in He. by rewrite list_elem_of_In.
Qed.

Lemma merged_wellFormed (existing : Alert) (req : UpdateAlertRequest) (t : Z) :
  wellFormed existing -> wellFormed (merged existing req t).
Proof.
  intros (Hu & Hs & Ht). unfold merged. repeat split; cbn.
  - done.
  - destruct (String.eqb (USymbol req) EmptyString) eqn:E; [done|].
    by apply String.eqb_neq in E.
  - destruct (UUpperThreshold req), (ULowerThreshold req); eauto.
Qed.

(** What [UpdateAlertHandler] does once the alert is found, the body
    decodes and the alert found has a threshold. *)
Lemma UpdateAlertHandler_found (env : Env) (r : Request) (id : string) (w : World)
    (existing : Alert) (req : UpdateAlertRequest) :
  selectFails env = false ->
  List.find (fun a => String.eqb (ID a) id) (table w) = Some existing ->
  JsonStruct.Unmarshal updateFields updateTag setUpdateField (Body r) zeroUpdate
  = (req, None) ->
  is_Some (UpperThreshold existing) \/ is_Some (LowerThreshold existing) ->
  UpdateAlertHandler timeJSON instance env r id w
  = if execFails env
    then (HttpError "Failed to update alert" 500,
          MkWorld (table w) (store w)
            ((zlog w ++ [Zap.Entry Zap.ErrorLevel "Failed to update alert"
                           [Zap.String "alert_id" (ID existing);
                            Zap.Error DatabaseError]])
             ++ [Zap.Entry Zap.ErrorLevel "Failed to update alert"
                   [Zap.String "trace_id" (traceID env);
                    Zap.String "alert_id" id; Zap.Error DatabaseError]]))
    else (encodeTo timeJSON 200
            (MkResponse "Alert updated successfully"
                        (OneAlert (merged existing req (now env)))),
          invalidateBrowse instance env
            (MkWorld (map (fun row => if String.eqb (ID row) (ID existing)
                                      then Crud.updated (merged existing req (now env)) row
                                      else row) (table w))
                     (store w) (zlog w))).
Proof.
  intros Hsel Hfind Hd Hthr. unfold UpdateAlertHandler, Crud.GetAlertByID.
  rewrite Hsel, Hfind, Hd. cbn [table store zlog].
  assert (forall A (a b : A),
            match
              match UUpperThreshold req with
              | Some x => Some x
              | None => UpperThreshold existing
              end,
              match ULowerThreshold req with
              | Some x => Some x
              | None => LowerThreshold existing
              end
            with
            | None, None => a
            | _, _ => b
            end = b) as ->.
  { intros A a b.
    destruct (UUpperThreshold req); [done|].
    destruct (ULowerThreshold req); [by destruct (UpperThreshold existing)|].
    destruct Hthr as [[x ->]|[y ->]]; [done|].
    by destruct (UpperThreshold existing). }
  unfold Crud.UpdateAlert, merged. cbn [ID].
  replace (if negb (String.eqb (USymbol req) EmptyString)
           then USymbol req else Symbol existing)
    with (if String.eqb (USymbol req) EmptyString
          then Symbol existing else USymbol req)
    by (by destruct (String.eqb (USymbol req) EmptyString)).
  by destruct (execFails env).
Qed.

Lemma UpdateAlertHandler_table (env : Env) (r : Request) (id : string) (w : World) :
  Forall wellFormed (table w) ->
  Forall wellFormed (table (snd (UpdateAlertHandler timeJSON instance env r id w))).
Proof.
  intros Hw.
  destruct (selectFails env) eqn:Hsel.
  { unfold UpdateAlertHandler, Crud.GetAlertByID. by rewrite Hsel. }
  destruct (List.find (fun a => String.eqb (ID a) id) (table w))
    as [existing|] eqn:Hfind.
  2: { unfold UpdateAlertHandler, Crud.GetAlertByID. by rewrite Hsel, Hfind. }
  destruct (JsonStruct.Unmarshal updateFields updateTag setUpdateField (Body r)
              zeroUpdate) as [req [err|]] eqn:Hd.
  { unfold UpdateAlertHandler, Crud.GetAlertByID. by rewrite Hsel, Hfind, Hd. }
  pose proof (find_ID id (table w) existing Hfind) as [Hin Hid].
  rewrite Forall_forall in Hw. pose proof (Hw existing Hin) as Hex.
  rewrite (UpdateAlertHandler_found env r id w existing req Hsel Hfind Hd)
    by apply Hex.
  destruct (execFails env); cbn [snd table]; [by apply Forall_forall|].
  rewrite invalidateBrowse_table. cbn [table].
  apply Forall_forall. intros a Ha. apply list_elem_of_fmap in Ha as (row & -> & Hrow).
  destruct (String.eqb (ID row) (ID existing)); [|by apply Hw].
  pose proof (merged_wellFormed existing req (now env) Hex) as (_ & Hs & Ht).
  pose proof (Hw row Hrow) as (Hu' & _).
  by repeat split.
Qed.

Lemma DeleteAlertHandler_table (env : Env) (r : Request) (id : string) (w : World) :
  table (snd (DeleteAlertHandler timeJSON instance env r id w)) = table w
  \/ table (snd (DeleteAlertHandler timeJSON instance env r id w))
     = List.filter (fun a => negb (String.eqb (ID a) id)) (table w).
Proof.
  unfold DeleteAlertHandler, Crud.DeleteAlert.
  destruct (execFails env); [by left|].
  destruct (rowsAffectedFails env); [by right|].
  destruct (_ =? _)%nat; [by right|].
  right. cbn [snd]. by rewrite invalidateBrowse_table.
Qed.

Lemma BrowseAlertsHandler_table (env : Env) (r : Request) (w : World) :
  table (snd (BrowseAlertsHandler Sum256 timeJSON instance env r w)) = table w.
Proof.
  unfold BrowseAlertsHandler.
  destruct (CacheStore.GetCache _ _ _ _ _ _) as [[cached err] st].
  destruct (match err with None => _ | Some _ => _ end); [done|].
  cbn [table store zlog logged].
  destruct (if negb _ then _ else _) as [[alerts|e] lg]; [|done].
  destruct (encodeResponse timeJSON _); [|done].
  destruct (CacheStore.SetCache _ _ _ _ _ _ _ _) as [[e|] st']; done.
Qed.

Lemma GetAlertHandler_table (env : Env) (r : Request) (id : string) (w : World) :
  table (snd (GetAlertHandler timeJSON env r id w)) = table w.
Proof.
  unfold GetAlertHandler.
  by destruct (Crud.GetAlertByID _ _ _ _) as [[alert|f] lg].
Qed.

(** X15: the API keeps the alerts table well formed. If every stored
    alert has a user, a symbol and at least one threshold, then so it is
    after any request to [AlertsHandler], whatever the method, path, query
    and body, and whichever calls to Redis and to the database fail: the
    price processor never meets an alert without a threshold that came
    in through the API. *)
Theorem api_keeps_alerts_well_formed (env : Env) (r : Request) (w : World) :
  Forall wellFormed (table w) ->
  Forall wellFormed (table (snd (AlertsHandler Sum256 timeJSON instance env r w))).
Proof.
  intros Hw. unfold AlertsHandler.
  destruct (_ || _).
  - destruct (String.eqb (Method r) "GET").
    { by rewrite BrowseAlertsHandler_table. }
    destruct (String.eqb (Method r) "POST"); [|done].
    destruct (CreateAlertHandler_table env r w) as [->|(alert & -> & Ha)]; [done|].
    apply Forall_app. split; [done|]. by constructor.
  - destruct (String.eqb (Method r) "GET").
    { by rewrite GetAlertHandler_table. }
    destruct (_ || _); [by apply UpdateAlertHandler_table|].
    destruct (String.eqb (Method r) "DELETE"); [|done].
    destruct (DeleteAlertHandler_table env r (nth 2 (splitSlash (Path r)) EmptyString) w)
      as [->| ->]; [done|].
    rewrite Forall_forall in *. intros a Ha.
    apply list_elem_of_In, List.filter_In in Ha as [Ha _].
    apply Hw. by apply list_elem_of_In.
Qed.



Lemma filter_ID_length (id : string) (tbl : Crud.Table) :
  (length (List.filter (fun a => negb (String.eqb (ID a) id)) tbl) <= length tbl)%nat
  /\ ((length tbl - length (List.filter (fun a => negb (String.eqb (ID a) id)) tbl))%nat
      = 0%nat
      <-> Forall (fun a => ID a <> id) tbl).
Proof.
  induction tbl as [|a tbl [IH1 IH2]]; [split; [done|]; split; [constructor|done]|].
  cbn [List.filter]. destruct (String.eqb (ID a) id) eqn:E; cbn [negb length].
  - split; [lia|]. apply String.eqb_eq in E. split; [lia|].
    intros H. by apply Forall_cons in H as [H _].
  - apply String.eqb_neq in E. split; [lia|]. rewrite Forall_cons.
    rewrite <- IH2. split; [intros H; split; [done|lia]|intros [_ H]; lia].
Qed.

(** X17: deleting an alert that is not there is answered 500, not 404.
    With a working database, [DeleteAlertHandler] answers 200 and removes
    the rows with the id when there is one, after which no row has the id;
    when there is none it answers 500 "Failed to delete alert" and touches
    neither the table nor the cache. [GetAlertHandler] answers 404 both
    when no row has the id and when the SELECT fails. *)
Theorem delete_of_missing_alert_answers_500 (env : Env) (r : Request)
    (id : string) (w : World) :
  execFails env = false -> rowsAffectedFails env = false ->
  (Forall (fun a => ID a <> id) (table w) ->
   fst (DeleteAlertHandler timeJSON instance env r id w)
   = HttpError "Failed to delete alert" 500
   /\ table (snd (DeleteAlertHandler timeJSON instance env r id w)) = table w
   /\ store (snd (DeleteAlertHandler timeJSON instance env r id w)) = store w)
  /\ (Exists (fun a => ID a = id) (table w) ->
      fst (DeleteAlertHandler timeJSON instance env r id w)
      = Written 200 "application/json"
          (CacheStore.Rendered
             (Json.Object [("message", Json.Str "Alert deleted successfully")]))
      /\ table (snd (DeleteAlertHandler timeJSON instance env r id w))
         = List.filter (fun a => negb (String.eqb (ID a) id)) (table w)
      /\ Forall (fun a => ID a <> id)
                (table (snd (DeleteAlertHandler timeJSON instance env r id w))))
  /\ (forall env' r',
        selectFails env' = true \/ Forall (fun a => ID a <> id) (table w) ->
        fst (GetAlertHandler timeJSON env' r' id w)
        = HttpError "Alert not found" 404).
Proof.
  intros He Hr. destruct (filter_ID_length id (table w)) as [Hle Hzero].
  split; [|split].
  - intros Hnone. unfold DeleteAlertHandler, Crud.DeleteAlert.
    rewrite He, Hr. apply Hzero in Hnone as Hz. rewrite Hz. cbn.
    repeat split; try done.
    clear -Hnone. induction (table w) as [|a tbl IH]; [done|].
    apply Forall_cons in Hnone as [Ha Htbl]. cbn.
    apply String.eqb_neq in Ha. rewrite Ha. cbn. f_equal. by apply IH.
  - intros Hsome. unfold DeleteAlertHandler, Crud.DeleteAlert.
    rewrite He, Hr.
    destruct (_ =? _)%nat eqn:E.
    { apply Nat.eqb_eq, Hzero in E. apply Exists_exists in Hsome as (a & Ha & Hid).
      rewrite Forall_forall in E. by destruct (E a Ha). }
    cbn [fst snd]. rewrite invalidateBrowse_table. cbn [table].
    split; [by vm_compute|]. split; [done|].
    apply Forall_forall. intros a Ha.
    apply list_elem_of_In, List.filter_In in Ha as [_ Ha].
    apply negb_true_iff in Ha. by apply String.eqb_neq.
  - intros env' r' Hcase. unfold GetAlertHandler, Crud.GetAlertByID.
    destruct Hcase as [Hs|Hnone]; [by rewrite Hs|].
    destruct (selectFails env'); [done|].
    destruct (List.find _ (table w)) as [a|] eqn:Hf; [|done].
    apply find_ID in Hf as [Hin Hid]. rewrite Forall_forall in Hnone.
    by destruct (Hnone a Hin).
Qed.

End ApiFacts.

(** ** The alerts API: the response cache *)

Section CacheFacts.

Import Models Api ApiSpec.

Variable Sum256 : string -> string.
Variable timeJSON : Z -> result Json.value.
Variable instance : string.

Lemma expiryOf_30s (now : Z) (old : option Z) :
  CacheStore.expiryOf now (30 * GoTime.Second) old = Some (now + 30 * GoTime.Second).
Proof. reflexivity. Qed.

Lemma browse_rows (f : Crud.fault) (q : gmap string (list string))
    (tbl : Crud.Table) (lg : list Zap.entry) :
  f = Crud.NoFault ->
  (if negb (String.eqb (queryGet "user_id" q) EmptyString)
   then Crud.GetAlertsByUserID f (queryGet "user_id" q) tbl lg
   else if negb (String.eqb (queryGet "symbol" q) EmptyString)
   then Crud.GetAlertsBySymbol f (queryGet "symbol" q) tbl lg
   else Crud.GetAllAlerts f tbl lg)
  = (Ok (Database.orderByCreatedAtDesc (selected q tbl)), lg).
Proof.
  intros ->. unfold selected.
  destruct (negb (String.eqb (queryGet "user_id" q) EmptyString)); [done|].
  by destruct (negb (String.eqb (queryGet "symbol" q) EmptyString)).
Qed.


Lemma BrowseAlertsHandler_miss (env : Env) (r : Request) (w : World)
    (doc : Json.value) :
  getFails env = false -> setFails env = false -> queryFault env = Crud.NoFault ->
  CacheStore.get (redisNow env) (generateCacheKey Sum256 r "browse_alerts_") (store w)
  = None ->
  encodeResponse timeJSON
    (MkResponse "Alerts retrieved successfully"
       (ManyAlerts (Database.orderByCreatedAtDesc (selected (Query r) (table w)))))
  = Ok doc ->
  fst (BrowseAlertsHandler Sum256 timeJSON instance env r w)
  = Written 200 "application/json" (CacheStore.Rendered doc)
  /\ table (snd (BrowseAlertsHandler Sum256 timeJSON instance env r w)) = table w
  /\ CacheStore.kv (store (snd (BrowseAlertsHandler Sum256 timeJSON instance env r w)))
     = <[generateCacheKey Sum256 r "browse_alerts_"
         := (CacheStore.Rendered doc, Some (redisNow env + 30 * GoTime.Second))]>
         (CacheStore.kv (store w)).
Proof.
  intros Hg Hs Hq Hget Henc. unfold BrowseAlertsHandler, CacheStore.GetCache.
  rewrite Hg, Hget. cbn [fst snd CacheStore.isEmpty String.eqb negb].
  cbn [table store zlog logged].
  rewrite (browse_rows _ _ _ _ Hq), Henc.
  unfold CacheStore.SetCache. rewrite Hs, expiryOf_30s. by cbn.
Qed.

Lemma get_insert (now : Z) (key : string) (v : CacheStore.text) (expiry : Z)
    (st : CacheStore.Store) (kvs : gmap string (CacheStore.text * option Z)) :
  CacheStore.kv st = <[key := (v, Some expiry)]> kvs ->
  CacheStore.get now key st = if now <=? expiry then Some v else None.
Proof. intros H. unfold CacheStore.get. by rewrite H, lookup_insert_eq. Qed.













(** X20: different queries share a cache key. [generateCacheKey] joins
    the values of a parameter with "," and the parameters with "&" before
    hashing, so a parameter given twice and the same parameter given once
    with the two values joined by a comma have one key, although the
    handler filters on the first value only; and a value that contains
    "&user_id=" has the key of the query with that second parameter. *)
Theorem cache_keys_collide (method path : string) (body : option Json.value)
    (prefix k v1 v2 : string) :
  generateCacheKey Sum256 (MkRequest method path {[k := [v1 +:+ "," +:+ v2]]} body)
                   prefix
  = generateCacheKey Sum256 (MkRequest method path {[k := [v1; v2]]} body) prefix
  /\ queryGet k ({[k := [v1 +:+ "," +:+ v2]]} : gmap string (list string))
     = v1 +:+ "," +:+ v2
  /\ queryGet k ({[k := [v1; v2]]} : gmap string (list string)) = v1
  /\ generateCacheKey Sum256
       (MkRequest method path {["symbol" := [v1 +:+ "&user_id=" +:+ v2]]} body)
       prefix
     = generateCacheKey Sum256
         (MkRequest method path (<["symbol" := [v1]]> {["user_id" := [v2]]}) body)
         prefix.
Proof.
  split; [|split; [|split]].
  - unfold generateCacheKey. cbn [Query].
    rewrite !map_to_list_singleton. cbn [map fst sortStrings insertSorted].
    by rewrite !lookup_singleton_eq.
  - unfold queryGet. by rewrite lookup_singleton_eq.
  - unfold queryGet. by rewrite lookup_singleton_eq.
  - unfold generateCacheKey. cbn [Query].
    rewrite map_to_list_singleton. cbn [map fst sortStrings insertSorted].
    rewrite lookup_singleton_eq.
    assert (sortStrings (map fst (map_to_list
              (<["symbol" := [v1]]> ({["user_id" := [v2]]}
                 : gmap string (list string)))))
            = ["symbol"; "user_id"]) as ->.
    { vm_compute. reflexivity. }
    cbn [map]. rewrite lookup_insert_eq, lookup_insert_ne by done.
    rewrite lookup_singleton_eq. cbn [default join].
    reflexivity.
Qed.

(** X22: a browse that selects nothing answers with data null. When the
    cache has no entry for the request and the query selects no row (an
    empty table, or no row of the given user or symbol), the handler
    answers 200 with the message and [null] for data (the slice of
    [scanAlerts] is nil, and a nil slice in the interface field is neither
    omitted nor written as an empty array), and that document is what it
    stores under the request's cache key. *)
Theorem empty_browse_answers_null (env : Env) (r : Request) (w : World) :
  getFails env = false -> setFails env = false -> queryFault env = Crud.NoFault ->
  CacheStore.get (redisNow env) (generateCacheKey Sum256 r "browse_alerts_") (store w)
  = None ->
  selected (Query r) (table w) = [] ->
  let doc := Json.Object [ ("message", Json.Str "Alerts retrieved successfully");
                           ("data", Json.Null) ] in
  fst (BrowseAlertsHandler Sum256 timeJSON instance env r w)
  = Written 200 "application/json" (CacheStore.Rendered doc)
  /\ CacheStore.get (redisNow env) (generateCacheKey Sum256 r "browse_alerts_")
       (store (snd (BrowseAlertsHandler Sum256 timeJSON instance env r w)))
     = Some (CacheStore.Rendered doc).
Proof.
  intros Hg Hs Hq Hget Hsel doc.
  destruct (BrowseAlertsHandler_miss env r w doc Hg Hs Hq Hget) as (Hr & _ & Hkv).
  - by rewrite Hsel.
  - split; [exact Hr|].
    rewrite (get_insert _ _ _ _ _ _ Hkv).
    by destruct (Z.leb_spec (redisNow env) (redisNow env + 30 * GoTime.Second));
      [|unfold GoTime.Second in *; lia].
Qed.

End CacheFacts.

(** ** The alerts API on concrete requests *)

Lemma api_keeps_alerts_well_formed_witness :
  Forall ApiSpec.wellFormed
         (Api.table (snd (Api.AlertsHandler Examples.digest Examples.stamp "gateway-1"
                            Examples.quiet Examples.post Examples.emptyApi))).
Proof.
  apply api_keeps_alerts_well_formed. constructor.
Defined.


Lemma delete_of_missing_alert_answers_500_witness :
  fst (Api.DeleteAlertHandler Examples.stamp "gateway-1" Examples.quiet
         Examples.patch "id-2" Examples.oneAlert)
  = Api.HttpError "Failed to delete alert" 500.
Proof.
  destruct (delete_of_missing_alert_answers_500 Examples.stamp "gateway-1"
              Examples.quiet Examples.patch "id-2" Examples.oneAlert)
    as (Hmissing & _).
  - reflexivity.
  - reflexivity.
  - apply Hmissing. repeat constructor. discriminate.
Defined.



Lemma empty_browse_answers_null_witness :
  fst (Api.BrowseAlertsHandler Examples.digest Examples.stamp "gateway-1"
         Examples.quiet Examples.browse Examples.emptyApi)
  = Api.Written 200 "application/json"
      (CacheStore.Rendered
         (Json.Object [ ("message", Json.Str "Alerts retrieved successfully");
                        ("data", Json.Null) ])).
Proof.
  apply (empty_browse_answers_null Examples.digest Examples.stamp "gateway-1"
           Examples.quiet Examples.browse Examples.emptyApi).
  - reflexivity.
  - reflexivity.
  - reflexivity.
  - vm_compute. reflexivity.
  - vm_compute. reflexivity.
Defined.
